(** * Note synchronization and reconciliation engine

    A shallow embedding of the notes state controller
    ([NotesProvider] in [src/context/ThemeContext.tsx], second document) and of
    the autosave scheduler and load/reconcile effect of the editor component
    ([src/components/editor/Editor.tsx]).

    Conventions of the embedding.
    - A React state cell or a [useRef] cell is a record field.  An event
      handler runs to completion on the single UI thread, so a handler is a
      function on the record.
    - In the controller the refs that mirror state ([selectedNoteIdRef],
      [notesRef]) are fields of their own, assigned by [render]: between a
      state update and the render that follows it they hold the values of the
      render before.  [saveNote] reads the [currentNote] its [useCallback]
      closed over, which is an argument of the function: a caller may hold
      the callback of an earlier render.  [refreshNotes] closes over
      [notesFolder], which changes only when a folder is chosen, and reads
      it from the state.  In the editor [currentNote] and [reloadVersion] are
      the props of its last render, which [currentNoteIdRef] mirrors.
    - An [async] function is cut at each [await]: the code up to the first
      [await] is one function, and every resumption is a function of the
      settled promise (a [Result]) and of the state found at that moment,
      which other handlers may have changed in the meantime.
    - Calls that leave the component (the notes service, [setTimeout]) are
      recorded in the state: issued requests in a list, live timers in a
      table keyed by handle. *)

From stdpp Require Import base decidable option list gmap strings.
From Stdlib Require Import Ascii String.

Local Open Scope string_scope.
Local Open Scope list_scope.
Local Open Scope nat_scope.

(** ** JavaScript values used by the code *)

Module Js.

(** What a rejected promise carries: [err instanceof Error] or anything
    else. *)
Inductive Thrown :=
| ErrorObject (message : string)
| OtherValue.

(** A settled promise. *)
Inductive Result (A : Type) :=
| Resolved (a : A)
| Rejected (e : Thrown).
Arguments Resolved {A} a.
Arguments Rejected {A} e.

(** [err instanceof Error ? err.message : fallback] *)
Definition messageOr (e : Thrown) (fallback : string) : string :=
  match e with
  | ErrorObject m => m
  | OtherValue => fallback
  end.

(** Truthiness of a string: every string but the empty one. *)
Definition truthy (s : string) : bool :=
  match s with
  | EmptyString => false
  | String _ _ => true
  end.

(** Truthiness of [string | null | undefined]. *)
Definition truthyOpt (o : option string) : bool :=
  match o with
  | Some s => truthy s
  | None => false
  end.

(** [a || b] on [string | undefined]. *)
Definition or (a b : option string) : option string :=
  if truthyOpt a then a else b.

(** Strings are sequences of 8-bit code units (the Latin-1 range of
    the UTF-16 code units of a JavaScript string). *)

Definition codeOf (c : ascii) : nat := nat_of_ascii c.

(** [String.prototype.toLowerCase] on one code unit of that range: A-Z and
    the letters U+00C0..U+00DE (U+00D7 is the multiplication sign). *)
Definition lowerChar (c : ascii) : ascii :=
  let n := codeOf c in
  if (Nat.leb 65 n && Nat.leb n 90)%bool then ascii_of_nat (n + 32)
  else if (Nat.leb 192 n && Nat.leb n 222 && negb (Nat.eqb n 215))%bool
       then ascii_of_nat (n + 32)
  else c.

Fixpoint toLowerCase (s : string) : string :=
  match s with
  | EmptyString => EmptyString
  | String c s' => String (lowerChar c) (toLowerCase s')
  end.

(** White space and line terminators that [trim] strips, in that range:
    TAB, LF, VT, FF, CR, SP and NBSP. *)
Definition isSpace (c : ascii) : bool :=
  let n := codeOf c in
  ((Nat.leb 9 n && Nat.leb n 13) || Nat.eqb n 32 || Nat.eqb n 160)%bool.

Fixpoint trimStart (s : string) : string :=
  match s with
  | EmptyString => EmptyString
  | String c s' => if isSpace c then trimStart s' else s
  end.

(** Drops trailing white space: a character is kept when something
    that is kept follows it, or when it is not white space. *)
Fixpoint trimEnd (s : string) : string :=
  match s with
  | EmptyString => EmptyString
  | String c s' =>
      match trimEnd s' with
      | EmptyString => if isSpace c then EmptyString else String c EmptyString
      | rest => String c rest
      end
  end.

Definition trim (s : string) : string := trimEnd (trimStart s).

(** A string of white space only (the empty string included). *)
Fixpoint blank (s : string) : bool :=
  match s with
  | EmptyString => true
  | String c s' => isSpace c && blank s'
  end.

Fixpoint startsWith (p s : string) : bool :=
  match p, s with
  | EmptyString, _ => true
  | String _ _, EmptyString => false
  | String a p', String b s' => if Ascii.eqb a b then startsWith p' s' else false
  end.

(** [s.includes(p)] *)
Fixpoint includes (s p : string) : bool :=
  if startsWith p s then true
  else match s with
       | EmptyString => false
       | String _ s' => includes s' p
       end.

(** [s.replace(/&nbsp;|&#160;/g, " ")]: scanning left to right, each
    occurrence of either six-character entity becomes one space; [skip]
    counts the characters of a matched entity still to be dropped. *)
Fixpoint replaceNbspFrom (skip : nat) (s : string) : string :=
  match s with
  | EmptyString => EmptyString
  | String c s' =>
      match skip with
      | S k => replaceNbspFrom k s'
      | O =>
          if (startsWith "&nbsp;" s || startsWith "&#160;" s)%bool
          then String " " (replaceNbspFrom 5 s')
          else String c (replaceNbspFrom 0 s')
      end
  end.

Definition replaceNbsp (s : string) : string := replaceNbspFrom 0 s.

End Js.

(** ** Data model ([src/types/note]) *)

Module Note.
Record t := mk {
  id : string;
  title : string;
  content : string;
  path : string;
  modified : nat
}.
End Note.

Module NoteMetadata.
Record t := mk {
  id : string;
  title : string;
  preview : string;
  modified : nat
}.
End NoteMetadata.

(** [score] is only copied, never computed with; the instant results carry
    the literal [0]. *)
Module SearchResult.
Record t := mk {
  id : string;
  title : string;
  preview : string;
  modified : nat;
  score : Z
}.
End SearchResult.

(** The settings record: [pinnedNoteIds] is optional, the other fields are
    carried along by the object spread. *)
Module Settings.
Record t := mk {
  pinnedNoteIds : option (list string);
  otherFields : list (string * string)
}.
End Settings.

(** ** The notes state controller ([NotesProvider]) *)

Module NotesContext.

Import Js.

(** Calls into [notesService]. *)
Inductive Request :=
| ListNotes
| ReadNote (id : string)
| SaveNote (id content : string)
| GetSettings
| UpdateSettings (s : Settings.t)
| SearchNotes (query : string).

(** Callbacks handed to [setTimeout]: the debounced list refresh of
    [scheduleRefresh] and the release of the recently-saved marks at the end
    of [saveNote]. *)
Inductive TimerCallback :=
| RefreshCb
| ReleaseCb (savingNoteId : string) (updatedId : option string).

Record Timer := mkTimer {
  handle : positive;
  delay : nat;
  callback : TimerCallback
}.

Record State := mkState {
  (* useState *)
  notes : list NoteMetadata.t;
  selectedNoteId : option string;
  currentNote : option Note.t;
  notesFolder : option string;
  error : option string;
  searchQuery : string;
  searchResults : list SearchResult.t;
  isSearching : bool;
  hasExternalChanges : bool;
  reloadVersion : nat;
  (* useRef *)
  recentlySavedRef : gset string;
  refreshTimeoutRef : option positive;
  searchRequestIdRef : nat;
  (* useRef, assigned in the body of the component at every render:
     [selectedNoteIdRef.current = selectedNoteId] and
     [notesRef.current = notes] *)
  selectedNoteIdRef : option string;
  notesRef : list NoteMetadata.t;
  (* the world outside the component *)
  timers : list Timer;
  nextHandle : positive;
  requests : list Request
}.

Definition initial : State :=
  mkState [] None None None None "" [] false false 0 ∅ None 0 None [] []
    1%positive [].

Definition setNotes (v : list NoteMetadata.t) (st : State) : State :=
  mkState v (selectedNoteId st) (currentNote st) (notesFolder st) (error st)
    (searchQuery st) (searchResults st) (isSearching st) (hasExternalChanges
    st) (reloadVersion st) (recentlySavedRef st) (refreshTimeoutRef st)
    (searchRequestIdRef st) (selectedNoteIdRef st) (notesRef st) (timers st)
    (nextHandle st) (requests st).

Definition setSelectedNoteId (v : option string) (st : State) : State :=
  mkState (notes st) v (currentNote st) (notesFolder st) (error st)
    (searchQuery st) (searchResults st) (isSearching st) (hasExternalChanges
    st) (reloadVersion st) (recentlySavedRef st) (refreshTimeoutRef st)
    (searchRequestIdRef st) (selectedNoteIdRef st) (notesRef st) (timers st)
    (nextHandle st) (requests st).

Definition setCurrentNote (v : option Note.t) (st : State) : State :=
  mkState (notes st) (selectedNoteId st) v (notesFolder st) (error st)
    (searchQuery st) (searchResults st) (isSearching st) (hasExternalChanges
    st) (reloadVersion st) (recentlySavedRef st) (refreshTimeoutRef st)
    (searchRequestIdRef st) (selectedNoteIdRef st) (notesRef st) (timers st)
    (nextHandle st) (requests st).

Definition setNotesFolderState (v : option string) (st : State) : State :=
  mkState (notes st) (selectedNoteId st) (currentNote st) v (error st)
    (searchQuery st) (searchResults st) (isSearching st) (hasExternalChanges
    st) (reloadVersion st) (recentlySavedRef st) (refreshTimeoutRef st)
    (searchRequestIdRef st) (selectedNoteIdRef st) (notesRef st) (timers st)
    (nextHandle st) (requests st).

Definition setError (v : option string) (st : State) : State :=
  mkState (notes st) (selectedNoteId st) (currentNote st) (notesFolder st) v
    (searchQuery st) (searchResults st) (isSearching st) (hasExternalChanges
    st) (reloadVersion st) (recentlySavedRef st) (refreshTimeoutRef st)
    (searchRequestIdRef st) (selectedNoteIdRef st) (notesRef st) (timers st)
    (nextHandle st) (requests st).

Definition setSearchQuery (v : string) (st : State) : State :=
  mkState (notes st) (selectedNoteId st) (currentNote st) (notesFolder st)
    (error st) v (searchResults st) (isSearching st) (hasExternalChanges st)
    (reloadVersion st) (recentlySavedRef st) (refreshTimeoutRef st)
    (searchRequestIdRef st) (selectedNoteIdRef st) (notesRef st) (timers st)
    (nextHandle st) (requests st).

Definition setSearchResults (v : list SearchResult.t) (st : State) : State :=
  mkState (notes st) (selectedNoteId st) (currentNote st) (notesFolder st)
    (error st) (searchQuery st) v (isSearching st) (hasExternalChanges st)
    (reloadVersion st) (recentlySavedRef st) (refreshTimeoutRef st)
    (searchRequestIdRef st) (selectedNoteIdRef st) (notesRef st) (timers st)
    (nextHandle st) (requests st).

Definition setIsSearching (v : bool) (st : State) : State :=
  mkState (notes st) (selectedNoteId st) (currentNote st) (notesFolder st)
    (error st) (searchQuery st) (searchResults st) v (hasExternalChanges st)
    (reloadVersion st) (recentlySavedRef st) (refreshTimeoutRef st)
    (searchRequestIdRef st) (selectedNoteIdRef st) (notesRef st) (timers st)
    (nextHandle st) (requests st).

Definition setHasExternalChanges (v : bool) (st : State) : State :=
  mkState (notes st) (selectedNoteId st) (currentNote st) (notesFolder st)
    (error st) (searchQuery st) (searchResults st) (isSearching st) v
    (reloadVersion st) (recentlySavedRef st) (refreshTimeoutRef st)
    (searchRequestIdRef st) (selectedNoteIdRef st) (notesRef st) (timers st)
    (nextHandle st) (requests st).

Definition setReloadVersion (v : nat) (st : State) : State :=
  mkState (notes st) (selectedNoteId st) (currentNote st) (notesFolder st)
    (error st) (searchQuery st) (searchResults st) (isSearching st)
    (hasExternalChanges st) v (recentlySavedRef st) (refreshTimeoutRef st)
    (searchRequestIdRef st) (selectedNoteIdRef st) (notesRef st) (timers st)
    (nextHandle st) (requests st).

Definition setRecentlySaved (v : gset string) (st : State) : State :=
  mkState (notes st) (selectedNoteId st) (currentNote st) (notesFolder st)
    (error st) (searchQuery st) (searchResults st) (isSearching st)
    (hasExternalChanges st) (reloadVersion st) v (refreshTimeoutRef st)
    (searchRequestIdRef st) (selectedNoteIdRef st) (notesRef st) (timers st)
    (nextHandle st) (requests st).

Definition setRefreshTimeout (v : option positive) (st : State) : State :=
  mkState (notes st) (selectedNoteId st) (currentNote st) (notesFolder st)
    (error st) (searchQuery st) (searchResults st) (isSearching st)
    (hasExternalChanges st) (reloadVersion st) (recentlySavedRef st) v
    (searchRequestIdRef st) (selectedNoteIdRef st) (notesRef st) (timers st)
    (nextHandle st) (requests st).

Definition setSearchRequestId (v : nat) (st : State) : State :=
  mkState (notes st) (selectedNoteId st) (currentNote st) (notesFolder st)
    (error st) (searchQuery st) (searchResults st) (isSearching st)
    (hasExternalChanges st) (reloadVersion st) (recentlySavedRef st)
    (refreshTimeoutRef st) v (selectedNoteIdRef st) (notesRef st) (timers st)
    (nextHandle st) (requests st).

Definition setSelectedNoteIdRef (v : option string) (st : State) : State :=
  mkState (notes st) (selectedNoteId st) (currentNote st) (notesFolder st)
    (error st) (searchQuery st) (searchResults st) (isSearching st)
    (hasExternalChanges st) (reloadVersion st) (recentlySavedRef st)
    (refreshTimeoutRef st) (searchRequestIdRef st) v (notesRef st) (timers st)
    (nextHandle st) (requests st).

Definition setNotesRef (v : list NoteMetadata.t) (st : State) : State :=
  mkState (notes st) (selectedNoteId st) (currentNote st) (notesFolder st)
    (error st) (searchQuery st) (searchResults st) (isSearching st)
    (hasExternalChanges st) (reloadVersion st) (recentlySavedRef st)
    (refreshTimeoutRef st) (searchRequestIdRef st) (selectedNoteIdRef st) v
    (timers st) (nextHandle st) (requests st).

Definition setTimers (v : list Timer) (st : State) : State :=
  mkState (notes st) (selectedNoteId st) (currentNote st) (notesFolder st)
    (error st) (searchQuery st) (searchResults st) (isSearching st)
    (hasExternalChanges st) (reloadVersion st) (recentlySavedRef st)
    (refreshTimeoutRef st) (searchRequestIdRef st) (selectedNoteIdRef st)
    (notesRef st) v (nextHandle st) (requests st).

Definition setNextHandle (v : positive) (st : State) : State :=
  mkState (notes st) (selectedNoteId st) (currentNote st) (notesFolder st)
    (error st) (searchQuery st) (searchResults st) (isSearching st)
    (hasExternalChanges st) (reloadVersion st) (recentlySavedRef st)
    (refreshTimeoutRef st) (searchRequestIdRef st) (selectedNoteIdRef st)
    (notesRef st) (timers st) v (requests st).

Definition setRequests (v : list Request) (st : State) : State :=
  mkState (notes st) (selectedNoteId st) (currentNote st) (notesFolder st)
    (error st) (searchQuery st) (searchResults st) (isSearching st)
    (hasExternalChanges st) (reloadVersion st) (recentlySavedRef st)
    (refreshTimeoutRef st) (searchRequestIdRef st) (selectedNoteIdRef st)
    (notesRef st) (timers st) (nextHandle st) v.

(** A render: the body of the component runs and assigns the two refs
    that mirror state.  Between a state update and the render that follows
    it, the refs still hold the values of the render before. *)
Definition render (st : State) : State :=
  setNotesRef (notes st) (setSelectedNoteIdRef (selectedNoteId st) st).

(** *** Primitive effects *)

(** A call [notesService.f(...)]: the request leaves the component. *)
Definition call (r : Request) (st : State) : State :=
  setRequests (requests st ++ [r]) st.

(** [recentlySavedRef.current.add(id)] and [.delete(id)] *)
Definition recentlySavedAdd (id : string) (st : State) : State :=
  setRecentlySaved ({[ id ]} ∪ recentlySavedRef st) st.

Definition recentlySavedDelete (id : string) (st : State) : State :=
  setRecentlySaved (recentlySavedRef st ∖ {[ id ]}) st.

(** [window.setTimeout(cb, ms)]: a fresh handle, the timer becomes live. *)
Definition setTimeout (cb : TimerCallback) (ms : nat) (st : State)
  : positive * State :=
  let h := nextHandle st in
  (h, setNextHandle (Pos.succ h) (setTimers (timers st ++ [mkTimer h ms cb]) st)).

(** [clearTimeout(h)] *)
Definition clearTimeout (h : positive) (st : State) : State :=
  setTimers (filter (λ t, handle t ≠ h) (timers st)) st.

(** *** [refreshNotes] and [scheduleRefresh] *)

(** [refreshNotes], up to [await notesService.listNotes()].  The boolean
    tells whether the call is now waiting for the list. *)
Definition refreshNotes (st : State) : State * bool :=
  if truthyOpt (notesFolder st) then (call ListNotes st, true)
  else (st, false).

(** [refreshNotes] after the list request settled. *)
Definition refreshNotes_settled (r : Result (list NoteMetadata.t)) (st : State)
  : State :=
  match r with
  | Resolved notesList => setNotes notesList st
  | Rejected err => setError (Some (messageOr err "Failed to load notes")) st
  end.

Definition scheduleRefresh (st : State) : State :=
  let st1 :=
    match refreshTimeoutRef st with
    | Some h => clearTimeout h st
    | None => st
    end in
  let (h, st2) := setTimeout RefreshCb 300 st1 in
  setRefreshTimeout (Some h) st2.

(** A live timer fires: it leaves the table and its callback runs.  The
    boolean tells whether a [refreshNotes] is now waiting for the list. *)
Definition runCallback (cb : TimerCallback) (st : State) : State * bool :=
  match cb with
  | RefreshCb => refreshNotes (setRefreshTimeout None st)
  | ReleaseCb savingNoteId updatedId =>
      let st1 := recentlySavedDelete savingNoteId st in
      (match updatedId with
       | Some u => if truthy u then recentlySavedDelete u st1 else st1
       | None => st1
       end, false)
  end.

Definition fireTimer (h : positive) (st : State) : State * bool :=
  match List.find (λ t, bool_decide (handle t = h)) (timers st) with
  | Some t => runCallback (callback t) (clearTimeout h st)
  | None => (st, false)
  end.

(** *** [selectNote] and [reloadCurrentNote] *)

(** [selectNote(id)] up to [await notesService.readNote(id)]. *)
Definition selectNote (id : string) (st : State) : State :=
  call (ReadNote id) (setHasExternalChanges false (setSelectedNoteId (Some id) st)).

(** [selectNote] after the read settled. *)
Definition selectNote_settled (r : Result Note.t) (st : State) : State :=
  match r with
  | Resolved note => setCurrentNote (Some note) st
  | Rejected err => setError (Some (messageOr err "Failed to load note")) st
  end.

(** [reloadCurrentNote] up to the read; the boolean tells whether a read
    is awaited.  The id is read from [selectedNoteIdRef.current]. *)
Definition reloadCurrentNote (st : State) : State * bool :=
  match selectedNoteIdRef st with
  | Some id => if truthy id then (call (ReadNote id) st, true) else (st, false)
  | None => (st, false)
  end.

Definition reloadCurrentNote_settled (r : Result Note.t) (st : State) : State :=
  match r with
  | Resolved note =>
      let st1 := setCurrentNote (Some note) st in
      let st2 := setHasExternalChanges false st1 in
      setReloadVersion (reloadVersion st2 + 1) st2
  | Rejected err => setError (Some (messageOr err "Failed to reload note")) st
  end.

(** *** [saveNote] *)

(** Where a [saveNote] call is suspended, with the variables its
    continuation still uses. *)
Inductive SaveFrame :=
| AwaitWrite (savingNoteId : string)
| AwaitSettings (savingNoteId : string) (updated : Note.t)
| AwaitUpdate (savingNoteId : string) (updated : Note.t).

(** How a resumption of [saveNote] ends: suspended at the next [await],
    at the end of the [try] block, or in the [catch] block. *)
Inductive SaveOutcome :=
| Suspended (f : SaveFrame)
| Completed
| Caught.

(** [noteId || currentNote?.id].  [saveNote] is a [useCallback] with
    dependency [currentNote]: the [currentNote] it reads is the one it closed
    over, the current note of the render that created the callback a caller
    holds ([capturedNote]), not the state at the time of the call. *)
Definition savingNoteIdOf (noteId : option string)
  (capturedNote : option Note.t) : option string :=
  Js.or noteId (Note.id <$> capturedNote).

(** [saveNote(content, noteId?)], called through a callback that closed
    over [capturedNote], up to [await notesService.saveNote(...)]; [None] is
    the early [return]. *)
Definition saveNote (capturedNote : option Note.t) (content : string)
  (noteId : option string) (st : State) : State * option SaveFrame :=
  match savingNoteIdOf noteId capturedNote with
  | Some savingNoteId =>
      if truthy savingNoteId then
        let st1 := recentlySavedAdd savingNoteId st in
        (call (SaveNote savingNoteId content) st1, Some (AwaitWrite savingNoteId))
      else (st, None)
  | None => (st, None)
  end.

(** The [catch] block. *)
Definition saveNote_catch (savingNoteId : string) (updatedId : option string)
  (err : Thrown) (st : State) : State :=
  let st1 := setError (Some (messageOr err "Failed to save note")) st in
  let st2 := recentlySavedDelete savingNoteId st1 in
  match updatedId with
  | Some u => if truthy u then recentlySavedDelete u st2 else st2
  | None => st2
  end.

(** The updater passed to [setSelectedNoteId] at the end of the [try]
    block; it runs on the selection current at that moment and calls
    [setCurrentNote(updated)] on the same condition. *)
Definition saveNote_updateSelection (savingNoteId : string) (updated : Note.t)
  (st : State) : State :=
  if decide (selectedNoteId st = Some savingNoteId) then
    setSelectedNoteId (Some (Note.id updated)) (setCurrentNote (Some updated) st)
  else st.

(** The rest of the [try] block once the write (and the pin transfer, if
    any) is through. *)
Definition saveNote_finish (savingNoteId : string) (updated : Note.t)
  (st : State) : State :=
  let st1 := setHasExternalChanges false st in
  let st2 := saveNote_updateSelection savingNoteId updated st1 in
  let st3 := scheduleRefresh st2 in
  snd (setTimeout (ReleaseCb savingNoteId (Some (Note.id updated))) 1000 st3).

(** After [notesService.saveNote] settled. *)
Definition saveNote_written (savingNoteId : string) (r : Result Note.t)
  (st : State) : State * SaveOutcome :=
  match r with
  | Rejected err => (saveNote_catch savingNoteId None err st, Caught)
  | Resolved updated =>
      if decide (Note.id updated ≠ savingNoteId) then
        let st1 := recentlySavedAdd (Note.id updated) st in
        (call GetSettings st1, Suspended (AwaitSettings savingNoteId updated))
      else (saveNote_finish savingNoteId updated st, Completed)
  end.

(** After [notesService.getSettings] settled (rename path). *)
Definition saveNote_gotSettings (savingNoteId : string) (updated : Note.t)
  (r : Result Settings.t) (st : State) : State * SaveOutcome :=
  match r with
  | Rejected err =>
      (saveNote_catch savingNoteId (Some (Note.id updated)) err st, Caught)
  | Resolved currentSettings =>
      let pinnedIds := default [] (Settings.pinnedNoteIds currentSettings) in
      if decide (savingNoteId ∈ pinnedIds) then
        let updatedSettings :=
          Settings.mk
            (Some ((λ id, if decide (id = savingNoteId)
                          then Note.id updated else id) <$> pinnedIds))
            (Settings.otherFields currentSettings) in
        (call (UpdateSettings updatedSettings) st,
         Suspended (AwaitUpdate savingNoteId updated))
      else (saveNote_finish savingNoteId updated st, Completed)
  end.

(** After [notesService.updateSettings] settled (pin transfer). *)
Definition saveNote_settingsUpdated (savingNoteId : string) (updated : Note.t)
  (r : Result unit) (st : State) : State * SaveOutcome :=
  match r with
  | Rejected err =>
      (saveNote_catch savingNoteId (Some (Note.id updated)) err st, Caught)
  | Resolved _ => (saveNote_finish savingNoteId updated st, Completed)
  end.

(** *** [search] and [clearSearch] *)

(** The instant local matches of a lower-cased query. *)
Definition matchesQuery (queryLower : string) (note : NoteMetadata.t) : bool :=
  includes (toLowerCase (NoteMetadata.title note)) queryLower
  || includes (toLowerCase (NoteMetadata.preview note)) queryLower.

Definition toInstantResult (note : NoteMetadata.t) : SearchResult.t :=
  SearchResult.mk (NoteMetadata.id note) (NoteMetadata.title note)
    (NoteMetadata.preview note) (NoteMetadata.modified note) 0.

Definition instantResultsOf (queryLower : string) (ns : list NoteMetadata.t)
  : list SearchResult.t :=
  toInstantResult <$> take 20 (filter (λ note, Is_true (matchesQuery queryLower note)) ns).

(** The merge loop: [merged] starts as a copy of [results]; every instant
    result whose id is not in [seen] is pushed. *)
Definition mergeResults (results instantResults : list SearchResult.t)
  : list SearchResult.t :=
  let seen : gset string := list_to_set (SearchResult.id <$> results) in
  foldl (λ merged result,
           if decide (SearchResult.id result ∈ seen) then merged
           else merged ++ [result])
        results instantResults.

(** Where a [search] call is suspended: its request id and the instant
    results it computed. *)
Record SearchFrame := mkSearchFrame {
  requestId : nat;
  instantResults : list SearchResult.t
}.

(** [search(query)] up to [await notesService.searchNotes(trimmedQuery)];
    [None] is the early [return] on a blank query.  The instant results are
    computed from [notesRef.current]. *)
Definition search (query : string) (st : State) : State * option SearchFrame :=
  let requestId := S (searchRequestIdRef st) in
  let st1 := setSearchQuery query (setSearchRequestId requestId st) in
  let trimmedQuery := trim query in
  if negb (truthy trimmedQuery) then
    (setIsSearching false (setSearchResults [] st1), None)
  else
    let queryLower := toLowerCase trimmedQuery in
    let instantResults := instantResultsOf queryLower (notesRef st1) in
    let st2 := setIsSearching true (setSearchResults instantResults st1) in
    (call (SearchNotes trimmedQuery) st2,
     Some (mkSearchFrame requestId instantResults)).

(** [search] after the authoritative request settled. *)
Definition search_settled (f : SearchFrame) (r : Result (list SearchResult.t))
  (st : State) : State :=
  match r with
  | Resolved results =>
      if decide (requestId f ≠ searchRequestIdRef st) then st
      else
        let st1 :=
          match results with
          | [] => setSearchResults (instantResults f) st
          | _ => setSearchResults (mergeResults results (instantResults f)) st
          end in
        setIsSearching false st1
  | Rejected _ =>
      if decide (requestId f ≠ searchRequestIdRef st) then st
      else setIsSearching false st
  end.

Definition clearSearch (st : State) : State :=
  setIsSearching false
    (setSearchResults []
       (setSearchQuery "" (setSearchRequestId (searchRequestIdRef st + 1) st))).

(** *** The [file-change] listener *)

(** The listener registered by the effect; [isCancelled] is the flag of
    the effect's closure, [changed_ids] the payload field (possibly
    missing).  The selection is read from [selectedNoteIdRef.current], the
    recently-saved set from its ref.  The boolean tells whether a
    [refreshNotes] is now waiting for the list. *)
Definition onFileChange (isCancelled : bool) (changed_ids : option (list string))
  (st : State) : State * bool :=
  if isCancelled then (st, false)
  else
    let changedIds := default [] changed_ids in
    let externalChanges :=
      filter (λ id, id ∉ recentlySavedRef st) changedIds in
    match externalChanges with
    | [] => (st, false)
    | _ =>
        let (st1, waiting) := refreshNotes st in
        match selectedNoteIdRef st1 with
        | Some currentId =>
            if truthy currentId && bool_decide (currentId ∈ externalChanges)
            then (setHasExternalChanges true st1, waiting)
            else (st1, waiting)
        | None => (st1, waiting)
        end
    end.

(** The ids of a notification that survive the self-echo filter. *)
Definition externalIds (changed_ids : option (list string)) (st : State)
  : list string :=
  filter (λ id, id ∉ recentlySavedRef st) (default [] changed_ids).

(** *** Resumptions and runs *)

(** What settles when a suspended [saveNote] resumes. *)
Inductive SaveResponse :=
| WriteSettled (r : Result Note.t)
| SettingsSettled (r : Result Settings.t)
| UpdateSettled (r : Result unit).

(** A suspended [saveNote] resumes; a frame is resumed only by the promise
    it awaits. *)
Definition saveNote_resume (f : SaveFrame) (resp : SaveResponse) (st : State)
  : option (State * SaveOutcome) :=
  match f, resp with
  | AwaitWrite savingNoteId, WriteSettled r =>
      Some (saveNote_written savingNoteId r st)
  | AwaitSettings savingNoteId updated, SettingsSettled r =>
      Some (saveNote_gotSettings savingNoteId updated r st)
  | AwaitUpdate savingNoteId updated, UpdateSettled r =>
      Some (saveNote_settingsUpdated savingNoteId updated r st)
  | _, _ => None
  end.

(** The variable [savingNoteId] of a suspended [saveNote]. *)
Definition frameSavingNoteId (f : SaveFrame) : string :=
  match f with
  | AwaitWrite savingNoteId => savingNoteId
  | AwaitSettings savingNoteId _ => savingNoteId
  | AwaitUpdate savingNoteId _ => savingNoteId
  end.

(** The variable [updated] once the write resolved: the value that
    resolves it, or the value the frame already holds. *)
Definition frameUpdated (f : SaveFrame) (resp : SaveResponse) : option Note.t :=
  match f, resp with
  | AwaitWrite _, WriteSettled (Resolved updated) => Some updated
  | AwaitSettings _ updated, _ => Some updated
  | AwaitUpdate _ updated, _ => Some updated
  | _, _ => None
  end.

(** Everything that can happen to the controller: a render, a call of
    one of its actions (a [saveNote] through a callback of whatever render),
    a promise settling, a notification of the file watcher, a timer
    firing. *)
Inductive Action :=
| Render
| DoRefreshNotes
| RefreshSettled (r : Result (list NoteMetadata.t))
| DoSelectNote (id : string)
| SelectSettled (r : Result Note.t)
| DoReloadCurrentNote
| ReloadSettled (r : Result Note.t)
| DoSaveNote (capturedNote : option Note.t) (content : string)
    (noteId : option string)
| SaveResumed (f : SaveFrame) (resp : SaveResponse)
| DoSearch (query : string)
| SearchSettled (f : SearchFrame) (r : Result (list SearchResult.t))
| DoClearSearch
| FileChanged (isCancelled : bool) (changed_ids : option (list string))
| TimerFired (h : positive).

Definition step (a : Action) (st : State) : State :=
  match a with
  | Render => render st
  | DoRefreshNotes => fst (refreshNotes st)
  | RefreshSettled r => refreshNotes_settled r st
  | DoSelectNote id => selectNote id st
  | SelectSettled r => selectNote_settled r st
  | DoReloadCurrentNote => fst (reloadCurrentNote st)
  | ReloadSettled r => reloadCurrentNote_settled r st
  | DoSaveNote capturedNote content noteId =>
      fst (saveNote capturedNote content noteId st)
  | SaveResumed f resp =>
      match saveNote_resume f resp st with
      | Some (st', _) => st'
      | None => st
      end
  | DoSearch query => fst (search query st)
  | SearchSettled f r => search_settled f r st
  | DoClearSearch => clearSearch st
  | FileChanged isCancelled changed_ids =>
      fst (onFileChange isCancelled changed_ids st)
  | TimerFired h => fst (fireTimer h st)
  end.

Definition run (actions : list Action) (st : State) : State :=
  foldl (λ s a, step a s) st actions.

(** One call of [saveNote] from its first [await] on: before each
    resumption other actions run ([others]), then the awaited promise settles
    with [resp].  The result is the state the last resumption found, the
    state it left, and how it ended; [None] while the call is still
    suspended when the script ends. *)
Fixpoint saveNote_run (f : SaveFrame)
  (script : list (list Action * SaveResponse)) (st : State)
  : option (State * State * SaveOutcome) :=
  match script with
  | [] => None
  | (others, resp) :: script' =>
      let found := run others st in
      match saveNote_resume f resp found with
      | None => None
      | Some (st', Suspended f') => saveNote_run f' script' st'
      | Some (st', out) => Some (found, st', out)
      end
  end.

(** The note the write of such a call returned. *)
Definition writeResult (script : list (list Action * SaveResponse))
  : option Note.t :=
  match script with
  | (_, WriteSettled (Resolved updated)) :: _ => Some updated
  | _ => None
  end.

End NotesContext.

(** ** The text codec and the editor component *)

(** The document model of the editing surface and its markdown codec are
    supplied by the editor library: [parse] is [manager.parse] ([None] when it
    throws), [serialize] is [manager.serialize(editor.getJSON())], [rawContent]
    is the document [setContent] builds from a plain string, [getText] is
    [editor.getText()], and [hasManager] tells whether the markdown extension
    registered its manager. *)
Class Codec := {
  Doc : Type;
  hasManager : bool;
  parse : string → option Doc;
  serialize : Doc → string;
  rawContent : string → Doc;
  getText : Doc → string
}.

Module Editor.

Import Js.

Section WithCodec.

Context {codec : Codec}.

(** Callbacks handed to [setTimeout]: the debounced save of [scheduleSave]
    (closing over [savingNoteId]) and the debounced save of
    [handleSourceChange] (closing over [value] and [currentNote]). *)
Inductive TimerCallback :=
| SaveCb (savingNoteId : string)
| SourceCb (value : string) (note : option Note.t).

Record Timer := mkTimer {
  handle : positive;
  deadline : nat;
  callback : TimerCallback
}.

(** The closure handed to [requestAnimationFrame] by the load effect. *)
Record Frame := mkFrame {
  loadingNoteId : string;
  isNewNoteOrWasEmpty : bool;
  noteContent : string
}.

(** What the component does that the properties speak about, in the order
    in which it does it. *)
Inductive Event :=
| NeedsSaveAssigned (v : bool)
| MarkdownComputed
| SaveNoteCalled (content : string) (noteId : option string)
| ContentSet (d : Doc)
| Blurred
| ScrolledToTop
| FocusedAndSelectedAll.

Record State := mkState {
  (* props, from the notes context *)
  currentNote : option Note.t;
  reloadVersion : nat;
  (* the TipTap instance: its document; [None] until it is created *)
  editorRef : option Doc;
  (* useState *)
  isSaving : bool;
  sourceMode : bool;
  sourceContent : string;
  (* useRef *)
  saveTimeoutRef : option positive;
  sourceTimeoutRef : option positive;
  isLoadingRef : bool;
  needsSaveRef : bool;
  loadedNoteIdRef : option string;
  loadedModifiedRef : option nat;
  lastSaveRef : option (string * string);
  lastReloadVersionRef : nat;
  (* the browser: clock, live timers, requested animation frames *)
  now : nat;
  timers : list Timer;
  nextHandle : positive;
  frames : list Frame;
  (* what the component did, oldest first *)
  trace : list Event
}.

Definition setCurrentNote (v : option Note.t) (st : State) : State :=
  mkState v (reloadVersion st) (editorRef st) (isSaving st) (sourceMode st)
    (sourceContent st) (saveTimeoutRef st) (sourceTimeoutRef st)
    (isLoadingRef st) (needsSaveRef st) (loadedNoteIdRef st)
    (loadedModifiedRef st) (lastSaveRef st) (lastReloadVersionRef st) (now st)
    (timers st) (nextHandle st) (frames st) (trace st).

Definition setReloadVersion (v : nat) (st : State) : State :=
  mkState (currentNote st) v (editorRef st) (isSaving st) (sourceMode st)
    (sourceContent st) (saveTimeoutRef st) (sourceTimeoutRef st)
    (isLoadingRef st) (needsSaveRef st) (loadedNoteIdRef st)
    (loadedModifiedRef st) (lastSaveRef st) (lastReloadVersionRef st) (now st)
    (timers st) (nextHandle st) (frames st) (trace st).

Definition setEditorRef (v : option Doc) (st : State) : State :=
  mkState (currentNote st) (reloadVersion st) v (isSaving st) (sourceMode st)
    (sourceContent st) (saveTimeoutRef st) (sourceTimeoutRef st)
    (isLoadingRef st) (needsSaveRef st) (loadedNoteIdRef st)
    (loadedModifiedRef st) (lastSaveRef st) (lastReloadVersionRef st) (now st)
    (timers st) (nextHandle st) (frames st) (trace st).

Definition setIsSaving (v : bool) (st : State) : State :=
  mkState (currentNote st) (reloadVersion st) (editorRef st) v (sourceMode st)
    (sourceContent st) (saveTimeoutRef st) (sourceTimeoutRef st)
    (isLoadingRef st) (needsSaveRef st) (loadedNoteIdRef st)
    (loadedModifiedRef st) (lastSaveRef st) (lastReloadVersionRef st) (now st)
    (timers st) (nextHandle st) (frames st) (trace st).

Definition setSourceMode (v : bool) (st : State) : State :=
  mkState (currentNote st) (reloadVersion st) (editorRef st) (isSaving st) v
    (sourceContent st) (saveTimeoutRef st) (sourceTimeoutRef st)
    (isLoadingRef st) (needsSaveRef st) (loadedNoteIdRef st)
    (loadedModifiedRef st) (lastSaveRef st) (lastReloadVersionRef st) (now st)
    (timers st) (nextHandle st) (frames st) (trace st).

Definition setSourceContent (v : string) (st : State) : State :=
  mkState (currentNote st) (reloadVersion st) (editorRef st) (isSaving st)
    (sourceMode st) v (saveTimeoutRef st) (sourceTimeoutRef st)
    (isLoadingRef st) (needsSaveRef st) (loadedNoteIdRef st)
    (loadedModifiedRef st) (lastSaveRef st) (lastReloadVersionRef st) (now st)
    (timers st) (nextHandle st) (frames st) (trace st).

Definition setSaveTimeoutRef (v : option positive) (st : State) : State :=
  mkState (currentNote st) (reloadVersion st) (editorRef st) (isSaving st)
    (sourceMode st) (sourceContent st) v (sourceTimeoutRef st)
    (isLoadingRef st) (needsSaveRef st) (loadedNoteIdRef st)
    (loadedModifiedRef st) (lastSaveRef st) (lastReloadVersionRef st) (now st)
    (timers st) (nextHandle st) (frames st) (trace st).

Definition setSourceTimeoutRef (v : option positive) (st : State) : State :=
  mkState (currentNote st) (reloadVersion st) (editorRef st) (isSaving st)
    (sourceMode st) (sourceContent st) (saveTimeoutRef st) v (isLoadingRef st)
    (needsSaveRef st) (loadedNoteIdRef st) (loadedModifiedRef st)
    (lastSaveRef st) (lastReloadVersionRef st) (now st) (timers st)
    (nextHandle st) (frames st) (trace st).

Definition setIsLoadingRef (v : bool) (st : State) : State :=
  mkState (currentNote st) (reloadVersion st) (editorRef st) (isSaving st)
    (sourceMode st) (sourceContent st) (saveTimeoutRef st)
    (sourceTimeoutRef st) v (needsSaveRef st) (loadedNoteIdRef st)
    (loadedModifiedRef st) (lastSaveRef st) (lastReloadVersionRef st) (now st)
    (timers st) (nextHandle st) (frames st) (trace st).

Definition setNeedsSaveRef (v : bool) (st : State) : State :=
  mkState (currentNote st) (reloadVersion st) (editorRef st) (isSaving st)
    (sourceMode st) (sourceContent st) (saveTimeoutRef st)
    (sourceTimeoutRef st) (isLoadingRef st) v (loadedNoteIdRef st)
    (loadedModifiedRef st) (lastSaveRef st) (lastReloadVersionRef st) (now st)
    (timers st) (nextHandle st) (frames st) (trace st).

Definition setLoadedNoteIdRef (v : option string) (st : State) : State :=
  mkState (currentNote st) (reloadVersion st) (editorRef st) (isSaving st)
    (sourceMode st) (sourceContent st) (saveTimeoutRef st)
    (sourceTimeoutRef st) (isLoadingRef st) (needsSaveRef st) v
    (loadedModifiedRef st) (lastSaveRef st) (lastReloadVersionRef st) (now st)
    (timers st) (nextHandle st) (frames st) (trace st).

Definition setLoadedModifiedRef (v : option nat) (st : State) : State :=
  mkState (currentNote st) (reloadVersion st) (editorRef st) (isSaving st)
    (sourceMode st) (sourceContent st) (saveTimeoutRef st)
    (sourceTimeoutRef st) (isLoadingRef st) (needsSaveRef st)
    (loadedNoteIdRef st) v (lastSaveRef st) (lastReloadVersionRef st) (now st)
    (timers st) (nextHandle st) (frames st) (trace st).

Definition setLastSaveRef (v : option (string * string)) (st : State) : State :=
  mkState (currentNote st) (reloadVersion st) (editorRef st) (isSaving st)
    (sourceMode st) (sourceContent st) (saveTimeoutRef st)
    (sourceTimeoutRef st) (isLoadingRef st) (needsSaveRef st)
    (loadedNoteIdRef st) (loadedModifiedRef st) v (lastReloadVersionRef st)
    (now st) (timers st) (nextHandle st) (frames st) (trace st).

Definition setLastReloadVersionRef (v : nat) (st : State) : State :=
  mkState (currentNote st) (reloadVersion st) (editorRef st) (isSaving st)
    (sourceMode st) (sourceContent st) (saveTimeoutRef st)
    (sourceTimeoutRef st) (isLoadingRef st) (needsSaveRef st)
    (loadedNoteIdRef st) (loadedModifiedRef st) (lastSaveRef st) v (now st)
    (timers st) (nextHandle st) (frames st) (trace st).

Definition setNow (v : nat) (st : State) : State :=
  mkState (currentNote st) (reloadVersion st) (editorRef st) (isSaving st)
    (sourceMode st) (sourceContent st) (saveTimeoutRef st)
    (sourceTimeoutRef st) (isLoadingRef st) (needsSaveRef st)
    (loadedNoteIdRef st) (loadedModifiedRef st) (lastSaveRef st)
    (lastReloadVersionRef st) v (timers st) (nextHandle st) (frames st)
    (trace st).

Definition setTimers (v : list Timer) (st : State) : State :=
  mkState (currentNote st) (reloadVersion st) (editorRef st) (isSaving st)
    (sourceMode st) (sourceContent st) (saveTimeoutRef st)
    (sourceTimeoutRef st) (isLoadingRef st) (needsSaveRef st)
    (loadedNoteIdRef st) (loadedModifiedRef st) (lastSaveRef st)
    (lastReloadVersionRef st) (now st) v (nextHandle st) (frames st)
    (trace st).

Definition setNextHandle (v : positive) (st : State) : State :=
  mkState (currentNote st) (reloadVersion st) (editorRef st) (isSaving st)
    (sourceMode st) (sourceContent st) (saveTimeoutRef st)
    (sourceTimeoutRef st) (isLoadingRef st) (needsSaveRef st)
    (loadedNoteIdRef st) (loadedModifiedRef st) (lastSaveRef st)
    (lastReloadVersionRef st) (now st) (timers st) v (frames st) (trace st).

Definition setFrames (v : list Frame) (st : State) : State :=
  mkState (currentNote st) (reloadVersion st) (editorRef st) (isSaving st)
    (sourceMode st) (sourceContent st) (saveTimeoutRef st)
    (sourceTimeoutRef st) (isLoadingRef st) (needsSaveRef st)
    (loadedNoteIdRef st) (loadedModifiedRef st) (lastSaveRef st)
    (lastReloadVersionRef st) (now st) (timers st) (nextHandle st) v
    (trace st).

Definition setTrace (v : list Event) (st : State) : State :=
  mkState (currentNote st) (reloadVersion st) (editorRef st) (isSaving st)
    (sourceMode st) (sourceContent st) (saveTimeoutRef st)
    (sourceTimeoutRef st) (isLoadingRef st) (needsSaveRef st)
    (loadedNoteIdRef st) (loadedModifiedRef st) (lastSaveRef st)
    (lastReloadVersionRef st) (now st) (timers st) (nextHandle st) (frames st)
    v.

(** *** Primitive effects *)

Definition emit (e : Event) (st : State) : State :=
  setTrace (trace st ++ [e]) st.

(** [window.setTimeout(cb, ms)] *)
Definition setTimeout (cb : TimerCallback) (ms : nat) (st : State)
  : positive * State :=
  let h := nextHandle st in
  (h, setNextHandle (Pos.succ h)
        (setTimers (timers st ++ [mkTimer h (now st + ms) cb]) st)).

(** [clearTimeout(h)] *)
Definition clearTimeout (h : positive) (st : State) : State :=
  setTimers (filter (λ t, handle t ≠ h) (timers st)) st.

(** [needsSaveRef.current = v] *)
Definition assignNeedsSave (v : bool) (st : State) : State :=
  emit (NeedsSaveAssigned v) (setNeedsSaveRef v st).

(** [editor.commands.setContent(d)].  The update it emits reaches
    [onUpdate] while [isLoadingRef.current] is true, where it is dropped. *)
Definition setContent (d : Doc) (st : State) : State :=
  emit (ContentSet d) (setEditorRef (Some d) st).

(** *** Serialization and the save path *)

(** [getMarkdown(editorInstance)] *)
Definition getMarkdown (editorInstance : option Doc) : string :=
  match editorInstance with
  | None => ""
  | Some d => if hasManager then replaceNbsp (serialize d) else getText d
  end.

(** [const markdown = getMarkdown(editorRef.current)] *)
Definition computeMarkdown (st : State) : string * State :=
  (getMarkdown (editorRef st), emit MarkdownComputed st).

(** [saveImmediately(noteId, content)] up to [await saveNote(...)] *)
Definition saveImmediately (noteId content : string) (st : State) : State :=
  let st1 := setIsSaving true st in
  let st2 := setLastSaveRef (Some (noteId, content)) st1 in
  emit (SaveNoteCalled content (Some noteId)) st2.

(** The [finally] block of [saveImmediately]. *)
Definition saveImmediately_settled (st : State) : State :=
  setIsSaving false st.

(** [flushPendingSave()] up to its [await] *)
Definition flushPendingSave (st : State) : State :=
  let st1 :=
    match saveTimeoutRef st with
    | Some h => setSaveTimeoutRef None (clearTimeout h st)
    | None => st
    end in
  match editorRef st1, loadedNoteIdRef st1 with
  | Some _, Some loaded =>
      if needsSaveRef st1 && truthy loaded then
        let st2 := assignNeedsSave false st1 in
        let (markdown, st3) := computeMarkdown st2 in
        saveImmediately loaded markdown st3
      else st1
  | _, _ => st1
  end.

(** [scheduleSave()] *)
Definition scheduleSave (st : State) : State :=
  let st1 :=
    match saveTimeoutRef st with
    | Some h => clearTimeout h st
    | None => st
    end in
  match Note.id <$> currentNote st1 with
  | Some savingNoteId =>
      if truthy savingNoteId then
        let st2 := assignNeedsSave true st1 in
        let (h, st3) := setTimeout (SaveCb savingNoteId) 500 st2 in
        setSaveTimeoutRef (Some h) st3
      else st1
  | None => st1
  end.

(** The callback of the timer set by [scheduleSave], up to its [await].
    [currentNoteIdRef.current] mirrors [currentNote?.id ?? null]. *)
Definition saveTimerFired (savingNoteId : string) (st : State) : State :=
  if bool_decide (Note.id <$> currentNote st ≠ Some savingNoteId)
     || negb (needsSaveRef st)
  then st
  else
    match editorRef st with
    | Some _ =>
        let st1 := assignNeedsSave false st in
        let (markdown, st2) := computeMarkdown st1 in
        saveImmediately savingNoteId markdown st2
    | None => st
    end.

(** The editor applied a transaction that produced document [d] and
    called [onUpdate]. *)
Definition onUpdate (d : Doc) (st : State) : State :=
  let st1 := setEditorRef (Some d) st in
  if isLoadingRef st1 then st1 else scheduleSave st1.

(** [handleSourceChange(value)] and the callback of its timer. *)
Definition handleSourceChange (value : string) (st : State) : State :=
  let st1 := setSourceContent value st in
  let st2 :=
    match sourceTimeoutRef st1 with
    | Some h => clearTimeout h st1
    | None => st1
    end in
  let (h, st3) := setTimeout (SourceCb value (currentNote st2)) 300 st2 in
  setSourceTimeoutRef (Some h) st3.

Definition sourceTimerFired (value : string) (note : option Note.t) (st : State)
  : State :=
  match note with
  | Some n =>
      let st1 := setIsSaving true st in
      let st2 := setLastSaveRef (Some (Note.id n, value)) st1 in
      emit (SaveNoteCalled value (Some (Note.id n))) st2
  | None => st
  end.

(** The cleanup of the unmount effect. *)
Definition unmount (st : State) : State :=
  let st1 :=
    match saveTimeoutRef st with
    | Some h => clearTimeout h st
    | None => st
    end in
  match editorRef st1 with
  | Some d =>
      if needsSaveRef st1 then
        let st2 := assignNeedsSave false st1 in
        let st3 := emit MarkdownComputed st2 in
        let markdown := if hasManager then serialize d else getText d in
        emit (SaveNoteCalled markdown None) st3
      else st1
  | None => st1
  end.

(** *** Timers and the clock *)

Definition runCallback (cb : TimerCallback) (st : State) : State :=
  match cb with
  | SaveCb savingNoteId => saveTimerFired savingNoteId st
  | SourceCb value note => sourceTimerFired value note st
  end.

(** The live timer that fires next when the clock moves to [t]: the one
    with the least deadline not after [t], the earliest set among equals. *)
Fixpoint nextDue (t : nat) (l : list Timer) : option Timer :=
  match l with
  | [] => None
  | tm :: l' =>
      match nextDue t l' with
      | Some tm' =>
          if Nat.leb (deadline tm) t && Nat.leb (deadline tm) (deadline tm')
          then Some tm else Some tm'
      | None => if Nat.leb (deadline tm) t then Some tm else None
      end
  end.

(** One timer fires: the clock is at its deadline, it is no longer live,
    its callback runs. *)
Definition fire (tm : Timer) (st : State) : State :=
  runCallback (callback tm)
    (clearTimeout (handle tm) (setNow (Nat.max (now st) (deadline tm)) st)).

Fixpoint runTimers (fuel : nat) (t : nat) (st : State) : State :=
  match fuel with
  | O => st
  | S fuel' =>
      match nextDue t (timers st) with
      | Some tm => runTimers fuel' t (fire tm st)
      | None => st
      end
  end.

(** The clock moves to [t]; every timer due by then fires, in order.  No
    callback of this component sets a timer, so the number of live timers
    bounds the number of firings. *)
Definition advanceTo (t : nat) (st : State) : State :=
  let st1 := runTimers (List.length (timers st)) t st in
  setNow (Nat.max (now st1) t) st1.

(** *** The load/reconcile effect *)

(** [parse] with the fall-back to the raw text. *)
Definition loadContent (content : string) (st : State) : State :=
  if hasManager then
    match parse content with
    | Some parsed => setContent parsed st
    | None => setContent (rawContent content) st
    end
  else setContent (rawContent content) st.

(** [lastSave?.noteId === loadedNoteIdRef.current &&
     lastSave?.content === currentNote.content] *)
Definition isRenameEcho (note : Note.t) (st : State) : bool :=
  match lastSaveRef st, loadedNoteIdRef st with
  | Some (noteId, content), Some loaded =>
      bool_decide (noteId = loaded) && bool_decide (content = Note.content note)
  | _, _ => false
  end.

(** The effect with dependencies [currentNote], [editor],
    [flushPendingSave], [reloadVersion]. *)
Definition loadEffect (st : State) : State :=
  match currentNote st, editorRef st with
  | Some note, Some _ =>
      let isSameNote := bool_decide (Some (Note.id note) = loadedNoteIdRef st) in
      if negb isSameNote && isRenameEcho note st then
        let st1 := setLoadedNoteIdRef (Some (Note.id note)) st in
        let st2 := setLoadedModifiedRef (Some (Note.modified note)) st1 in
        let st3 := setLastSaveRef None st2 in
        if needsSaveRef st3 then flushPendingSave st3 else st3
      else
        let st1 :=
          if negb isSameNote && needsSaveRef st then flushPendingSave st
          else st in
        let st2 :=
          if negb isSameNote then
            let st' := setSourceMode false st1 in
            match sourceTimeoutRef st' with
            | Some h => setSourceTimeoutRef None (clearTimeout h st')
            | None => st'
            end
          else st1 in
        let isManualReload :=
          bool_decide (reloadVersion st2 ≠ lastReloadVersionRef st2) in
        if isSameNote then
          if isManualReload then
            let st3 := setLastReloadVersionRef (reloadVersion st2) st2 in
            let st4 := setLoadedModifiedRef (Some (Note.modified note)) st3 in
            let st5 := setIsLoadingRef true st4 in
            let st6 := loadContent (Note.content note) st5 in
            setIsLoadingRef false st6
          else setLoadedModifiedRef (Some (Note.modified note)) st2
        else
          let isNewNote := bool_decide (loadedNoteIdRef st2 = None) in
          let wasEmpty :=
            negb isNewNote && bool_decide (trim (Note.content note) = "") in
          let st3 := setLoadedNoteIdRef (Some (Note.id note)) st2 in
          let st4 := setLoadedModifiedRef (Some (Note.modified note)) st3 in
          let st5 := setIsLoadingRef true st4 in
          let st6 := emit Blurred st5 in
          let st7 := loadContent (Note.content note) st6 in
          let st8 := emit ScrolledToTop st7 in
          setFrames
            (frames st8 ++
               [mkFrame (Note.id note) (isNewNote || wasEmpty) (Note.content note)])
            st8
  | _, _ => st
  end.

(** The callback handed to [requestAnimationFrame] runs. *)
Definition frameFired (f : Frame) (st : State) : State :=
  if bool_decide (loadedNoteIdRef st ≠ Some (loadingNoteId f)) then st
  else
    let st1 := emit ScrolledToTop st in
    let st2 := setIsLoadingRef false st1 in
    if isNewNoteOrWasEmpty f && bool_decide (trim (noteContent f) = "")
    then emit FocusedAndSelectedAll st2
    else st2.

(** A render with new props from the notes context, followed by the load
    effect (which React runs when [currentNote] or [reloadVersion]
    changed). *)
Definition render (note : option Note.t) (version : nat) (st : State) : State :=
  loadEffect (setReloadVersion version (setCurrentNote note st)).

(** *** Scenarios *)

(** The calls [saveNote(content, noteId)] the component made, oldest
    first. *)
Definition saveCalls (st : State) : list (string * option string) :=
  omap (λ e, match e with
             | SaveNoteCalled content noteId => Some (content, noteId)
             | _ => None
             end) (trace st).




(** Every live timer is the one [saveTimeoutRef] holds: no debounced
    save of an earlier burst or of the source view is still pending. *)
Definition ownsTimers (st : State) : Prop :=
  ∀ tm, tm ∈ timers st → saveTimeoutRef st = Some (handle tm).


(** *** Intermediate states named in the statements *)

(** What the persist step of the timer callback and of the flush does
    from the state [st] it starts in. *)
Definition persist (noteId : string) (st : State) : State :=
  saveImmediately noteId (getMarkdown (editorRef st))
    (emit MarkdownComputed (assignNeedsSave false st)).


(** The state of the rename-echo branch once the new identity is adopted
    and the fingerprint is cleared. *)
Definition adopted (note : Note.t) (st : State) : State :=
  setLastSaveRef None
    (setLoadedModifiedRef (Some (Note.modified note))
       (setLoadedNoteIdRef (Some (Note.id note)) st)).

(** The scheduler right after a buffer mutation: the buffer is dirty and
    the only live timer is the one just set, due half a second later. *)
Definition armed (note : Note.t) (d : Doc)
  (calls : list (string * option string)) (st : State) : Prop :=
  currentNote st = Some note ∧ editorRef st = Some d ∧
  isLoadingRef st = false ∧ needsSaveRef st = true ∧ saveCalls st = calls ∧
  ∃ h, saveTimeoutRef st = Some h ∧
       timers st = [mkTimer h (now st + 500) (SaveCb (Note.id note))].


Definition initial : State :=
  mkState None 0 None false false "" None None false false None None None 0
    0 [] 1%positive [] [].

End WithCodec.

End Editor.

(** A codec for examples: documents are their own markdown text. *)
Definition textCodec : Codec :=
  {| Doc := string;
     hasManager := true;
     parse := λ s, Some s;
     serialize := λ d, d;
     rawContent := λ s, s;
     getText := λ d, d |}.

(** ** Concrete states for the examples *)

Module Scenario.

Definition noteA : Note.t := Note.mk "a" "Alpha" "alpha" "/notes/a.md" 10.
Definition noteB : Note.t := Note.mk "b" "Beta" "beta" "/notes/b.md" 20.

(** What the write returns when the first line of note [a] became
    [# Title]: the file, hence the id, was renamed. *)
Definition renamedA : Note.t :=
  Note.mk "Title" "Title" "# Title" "/notes/Title.md" 30.

Definition metaA : NoteMetadata.t := NoteMetadata.mk "a" "Apple pie" "recipe" 10.
Definition metaB : NoteMetadata.t := NoteMetadata.mk "b" "Banana" "An APPLE a day" 20.
Definition metaC : NoteMetadata.t := NoteMetadata.mk "c" "Cherry" "stone fruit" 30.

(** The controller with a folder, three notes listed and note [a] open,
    as rendered. *)
Definition controller0 : NotesContext.State :=
  NotesContext.render
    (NotesContext.setCurrentNote (Some noteA)
       (NotesContext.setSelectedNoteId (Some "a")
          (NotesContext.setNotes [metaA; metaB; metaC]
             (NotesContext.setNotesFolderState (Some "/notes")
                NotesContext.initial)))).

(** Note [a] is saved and selected again while the write is in flight... *)
Definition savingA : NotesContext.State :=
  fst (NotesContext.saveNote (Some noteA) "alpha!" None controller0).

(** ... and the user switches to note [b] before the write returns. *)
Definition switchToB : list NotesContext.Action :=
  [NotesContext.DoSelectNote "b"; NotesContext.SelectSettled (Js.Resolved noteB)].

Definition savedA : Note.t := Note.mk "a" "Alpha" "alpha!" "/notes/a.md" 11.

Definition saveScript : list (list NotesContext.Action * NotesContext.SaveResponse) :=
  [(switchToB, NotesContext.WriteSettled (Js.Resolved savedA))].

(** The controller after a completed save of note [a] whose
    recently-saved mark has been released by its timer (handle 2; handle 1 is
    the debounced refresh). *)
Definition afterSave : NotesContext.State :=
  fst (NotesContext.fireTimer 2
         (NotesContext.saveNote_finish "a" savedA
            (fst (NotesContext.saveNote (Some noteA) "alpha!" None
                    controller0)))).

(** The editor over the text codec with note [a] loaded and clean. *)
Definition editor0 : @Editor.State textCodec :=
  Editor.setLoadedModifiedRef (Some 10)
    (Editor.setLoadedNoteIdRef (Some "a")
       (Editor.setEditorRef (Some ("alpha" : @Doc textCodec))
          (Editor.setCurrentNote (Some noteA) Editor.initial))).



Definition typing : list (nat * @Doc textCodec) :=
  [(100, "al"); (499, "alp")].

End Scenario.

(** ** The remaining actions of the controller *)

Module NotesActions.

Import Js NotesContext.

(** How a resumption of one of these actions ends: suspended at the next
    [await] (frame [F]), at the end of the [try] block, or in the [catch]
    block. *)
Inductive Outcome (F : Type) :=
| Waiting (f : F)
| Finished
| Failed.
Arguments Waiting {F} f.
Arguments Finished {F}.
Arguments Failed {F}.

(** [await refreshNotes()] as the last statement of a [try] block:
    suspended on the list request when [refreshNotes] issued one, done
    otherwise. *)
Definition awaitRefresh {F} (frame : F) (st : State) : State * Outcome F :=
  let (st1, waiting) := refreshNotes st in
  (st1, if waiting then Waiting frame else Finished).

(** *** [deleteNote] *)

Inductive DeleteFrame :=
| DelAwaitDelete (id : string)
| DelAwaitSettings (id : string)
| DelAwaitUpdate (id : string)
| DelAwaitRefresh.

Inductive DeleteResponse :=
| DeleteSettled (r : Result unit)
| DelSettingsSettled (r : Result Settings.t)
| DelUpdateSettled (r : Result unit)
| DelRefreshSettled (r : Result (list NoteMetadata.t)).

(** [deleteNote(id)] up to [await notesService.deleteNote(id)]: the frame
    is the call awaited. *)
Definition deleteNote (id : string) (st : State) : State * DeleteFrame :=
  (st, DelAwaitDelete id).

Definition deleteNote_catch (err : Thrown) (st : State) : State :=
  setError (Some (messageOr err "Failed to delete note")) st.

(** The updater passed to [setSelectedNoteId]. *)
Definition deleteNote_unselect (id : string) (st : State) : State :=
  if decide (selectedNoteId st = Some id) then
    setSelectedNoteId None (setCurrentNote None st)
  else st.

(** The [try] block from the updater on. *)
Definition deleteNote_finish (id : string) (st : State)
  : State * Outcome DeleteFrame :=
  awaitRefresh DelAwaitRefresh (deleteNote_unselect id st).

Definition deleteNote_resume (f : DeleteFrame) (resp : DeleteResponse)
  (st : State) : option (State * Outcome DeleteFrame) :=
  match f, resp with
  | DelAwaitDelete id, DeleteSettled r =>
      Some match r with
           | Rejected err => (deleteNote_catch err st, Failed)
           | Resolved _ => (call GetSettings st, Waiting (DelAwaitSettings id))
           end
  | DelAwaitSettings id, DelSettingsSettled r =>
      Some match r with
           | Rejected err => (deleteNote_catch err st, Failed)
           | Resolved currentSettings =>
               let pinnedIds :=
                 default [] (Settings.pinnedNoteIds currentSettings) in
               if decide (id ∈ pinnedIds) then
                 let updatedSettings :=
                   Settings.mk
                     (Some (filter (λ pinId, pinId ≠ id) pinnedIds))
                     (Settings.otherFields currentSettings) in
                 (call (UpdateSettings updatedSettings) st,
                  Waiting (DelAwaitUpdate id))
               else deleteNote_finish id st
           end
  | DelAwaitUpdate id, DelUpdateSettled r =>
      Some match r with
           | Rejected err => (deleteNote_catch err st, Failed)
           | Resolved _ => deleteNote_finish id st
           end
  | DelAwaitRefresh, DelRefreshSettled r =>
      Some (refreshNotes_settled r st, Finished)
  | _, _ => None
  end.

(** *** [pinNote] and [unpinNote] *)

Inductive PinFrame :=
| PinAwaitSettings (id : string)
| PinAwaitUpdate
| PinAwaitRefresh.

Inductive PinResponse :=
| PinSettingsSettled (r : Result Settings.t)
| PinUpdateSettled (r : Result unit)
| PinRefreshSettled (r : Result (list NoteMetadata.t)).

(** [pinNote(id)] and [unpinNote(id)] up to
    [await notesService.getSettings()]. *)
Definition pinNote (id : string) (st : State) : State * PinFrame :=
  (call GetSettings st, PinAwaitSettings id).

Definition unpinNote (id : string) (st : State) : State * PinFrame :=
  (call GetSettings st, PinAwaitSettings id).

Definition pin_catch (fallback : string) (err : Thrown) (st : State) : State :=
  setError (Some (messageOr err fallback)) st.

Definition pinNote_resume (f : PinFrame) (resp : PinResponse) (st : State)
  : option (State * Outcome PinFrame) :=
  match f, resp with
  | PinAwaitSettings id, PinSettingsSettled r =>
      Some match r with
           | Rejected err => (pin_catch "Failed to pin note" err st, Failed)
           | Resolved currentSettings =>
               let pinnedIds :=
                 default [] (Settings.pinnedNoteIds currentSettings) in
               if decide (id ∈ pinnedIds) then (st, Finished)
               else
                 let updatedSettings :=
                   Settings.mk (Some (pinnedIds ++ [id]))
                     (Settings.otherFields currentSettings) in
                 (call (UpdateSettings updatedSettings) st,
                  Waiting PinAwaitUpdate)
           end
  | PinAwaitUpdate, PinUpdateSettled r =>
      Some match r with
           | Rejected err => (pin_catch "Failed to pin note" err st, Failed)
           | Resolved _ => awaitRefresh PinAwaitRefresh st
           end
  | PinAwaitRefresh, PinRefreshSettled r =>
      Some (refreshNotes_settled r st, Finished)
  | _, _ => None
  end.

Definition unpinNote_resume (f : PinFrame) (resp : PinResponse) (st : State)
  : option (State * Outcome PinFrame) :=
  match f, resp with
  | PinAwaitSettings id, PinSettingsSettled r =>
      Some match r with
           | Rejected err => (pin_catch "Failed to unpin note" err st, Failed)
           | Resolved currentSettings =>
               let pinnedIds :=
                 default [] (Settings.pinnedNoteIds currentSettings) in
               let updatedSettings :=
                 Settings.mk (Some (filter (λ pinId, pinId ≠ id) pinnedIds))
                   (Settings.otherFields currentSettings) in
               (call (UpdateSettings updatedSettings) st,
                Waiting PinAwaitUpdate)
           end
  | PinAwaitUpdate, PinUpdateSettled r =>
      Some match r with
           | Rejected err => (pin_catch "Failed to unpin note" err st, Failed)
           | Resolved _ => awaitRefresh PinAwaitRefresh st
           end
  | PinAwaitRefresh, PinRefreshSettled r =>
      Some (refreshNotes_settled r st, Finished)
  | _, _ => None
  end.

(** *** [createNote] and [duplicateNote] *)

Inductive CreateFrame :=
| CreateAwaitNote
| CreateAwaitRefresh (note : Note.t).

Inductive CreateResponse :=
| NoteSettled (r : Result Note.t)
| CreateRefreshSettled (r : Result (list NoteMetadata.t)).

(** [createNote()] up to [await notesService.createNote()], and
    [duplicateNote(id)] up to [await notesService.duplicateNote(id)]. *)
Definition createNote (st : State) : State * CreateFrame :=
  (st, CreateAwaitNote).

Definition duplicateNote (id : string) (st : State) : State * CreateFrame :=
  (st, CreateAwaitNote).

(** The [try] block of [createNote] after [await refreshNotes()]. *)
Definition createNote_finish (note : Note.t) (st : State) : State :=
  let st1 := setCurrentNote (Some note) st in
  let st2 := setSelectedNoteId (Some (Note.id note)) st1 in
  let st3 := setSearchQuery "" st2 in
  let st4 := setSearchResults [] st3 in
  snd (setTimeout (ReleaseCb (Note.id note) None) 1000 st4).

(** The [try] block of [duplicateNote] after [await refreshNotes()]. *)
Definition duplicateNote_finish (newNote : Note.t) (st : State) : State :=
  let st1 := setCurrentNote (Some newNote) st in
  let st2 := setSelectedNoteId (Some (Note.id newNote)) st1 in
  snd (setTimeout (ReleaseCb (Note.id newNote) None) 1000 st2).

(** Both actions have the same shape; [finish] is the code after the
    refresh and [fallback] the message of the [catch] block. *)
Definition create_resume (finish : Note.t → State → State) (fallback : string)
  (f : CreateFrame) (resp : CreateResponse) (st : State)
  : option (State * Outcome CreateFrame) :=
  match f, resp with
  | CreateAwaitNote, NoteSettled r =>
      Some match r with
           | Rejected err => (setError (Some (messageOr err fallback)) st, Failed)
           | Resolved note =>
               let st1 := recentlySavedAdd (Note.id note) st in
               let (st2, waiting) := refreshNotes st1 in
               if waiting then (st2, Waiting (CreateAwaitRefresh note))
               else (finish note st2, Finished)
           end
  | CreateAwaitRefresh note, CreateRefreshSettled r =>
      Some (finish note (refreshNotes_settled r st), Finished)
  | _, _ => None
  end.

Definition createNote_resume :=
  create_resume createNote_finish "Failed to create note".

Definition duplicateNote_resume :=
  create_resume duplicateNote_finish "Failed to duplicate note".

(** The variable [note] ([newNote]) once the service call resolved: the
    value that resolves it, or the value the frame already holds. *)
Definition frameNote (f : CreateFrame) (resp : CreateResponse) : option Note.t :=
  match f, resp with
  | CreateAwaitNote, NoteSettled (Resolved note) => Some note
  | CreateAwaitRefresh note, _ => Some note
  | _, _ => None
  end.

(** *** Timer bookkeeping *)

(** Handles are handed out in increasing order: every live timer has a
    handle below the next one to be handed out. *)
Definition handlesFresh (st : State) : Prop :=
  ∀ t, t ∈ timers st → (handle t < nextHandle st)%positive.

#[global] Instance TimerCallback_eq_dec : EqDecision TimerCallback.
Proof. solve_decision. Defined.

(** The live refresh timers. *)
Definition refreshTimers (st : State) : list Timer :=
  filter (λ t, callback t = RefreshCb) (timers st).

(** Every live refresh timer is the one [refreshTimeoutRef] holds. *)
Definition refreshOwned (st : State) : Prop :=
  ∀ t, t ∈ timers st → callback t = RefreshCb →
       refreshTimeoutRef st = Some (handle t).

(** Several saves complete one after the other, each with its saved id
    and returned note. *)
Definition finishSaves (saves : list (string * Note.t)) (st : State) : State :=
  foldl (λ s p, saveNote_finish (fst p) (snd p) s) st saves.

(** *** Runs over all actions *)

Inductive AnyAction :=
| Core (a : Action)
| DoDeleteNote (id : string)
| DeleteResumed (f : DeleteFrame) (resp : DeleteResponse)
| DoPinNote (id : string)
| PinResumed (f : PinFrame) (resp : PinResponse)
| DoUnpinNote (id : string)
| UnpinResumed (f : PinFrame) (resp : PinResponse)
| DoCreateNote
| CreateResumed (f : CreateFrame) (resp : CreateResponse)
| DoDuplicateNote (id : string)
| DuplicateResumed (f : CreateFrame) (resp : CreateResponse).

(** A resumption that does not match its frame does not happen. *)
Definition resumed {F} (r : option (State * Outcome F)) (st : State) : State :=
  match r with
  | Some (st', _) => st'
  | None => st
  end.

Definition stepAny (a : AnyAction) (st : State) : State :=
  match a with
  | Core a => step a st
  | DoDeleteNote id => fst (deleteNote id st)
  | DeleteResumed f resp => resumed (deleteNote_resume f resp st) st
  | DoPinNote id => fst (pinNote id st)
  | PinResumed f resp => resumed (pinNote_resume f resp st) st
  | DoUnpinNote id => fst (unpinNote id st)
  | UnpinResumed f resp => resumed (unpinNote_resume f resp st) st
  | DoCreateNote => fst (createNote st)
  | CreateResumed f resp => resumed (createNote_resume f resp st) st
  | DoDuplicateNote id => fst (duplicateNote id st)
  | DuplicateResumed f resp => resumed (duplicateNote_resume f resp st) st
  end.

Definition runAny (actions : list AnyAction) (st : State) : State :=
  foldl (λ s a, stepAny a s) st actions.

(** What every reachable state satisfies about its timers: handles are
    fresh and pairwise distinct, and the refresh timer is owned. *)
Definition timersOk (st : State) : Prop :=
  handlesFresh st ∧ refreshOwned st ∧ NoDup (handle <$> timers st).

End NotesActions.

(** ** The editor: what a load puts in the buffer, edits of the source view *)

Module EditorScenes.

Import Js Editor.

Section WithCodec.

Context {codec : Codec}.

(** The document the load effect hands to [editor.commands.setContent]
    for the content of a note: the parsed markdown, or the raw text when
    there is no manager or [manager.parse] throws. *)
Definition loadedDoc (content : string) : Doc :=
  if hasManager then
    match parse content with
    | Some parsed => parsed
    | None => rawContent content
    end
  else rawContent content.

(** What the unmount cleanup serializes: no non-breaking-space clean-up
    here, unlike [getMarkdown]. *)
Definition unmountMarkdown (d : Doc) : string :=
  if hasManager then serialize d else getText d.

(** A burst of edits in the source view: the first at the current
    instant, each later one [gap] milliseconds after the one before it. *)
Fixpoint sourceEdits (vs : list (nat * string)) (st : State) : State :=
  match vs with
  | [] => st
  | (gap, value) :: vs' =>
      sourceEdits vs' (handleSourceChange value (advanceTo (now st + gap) st))
  end.

Definition sourceBurst (v0 : string) (vs : list (nat * string)) (st : State)
  : State :=
  sourceEdits vs (handleSourceChange v0 st).

(** The text after such a burst. *)
Definition lastValue (v0 : string) (vs : list (nat * string)) : string :=
  List.last (snd <$> vs) v0.

(** Every live timer is the one [sourceTimeoutRef] holds. *)
Definition ownsSourceTimers (st : State) : Prop :=
  ∀ tm, tm ∈ timers st → sourceTimeoutRef st = Some (handle tm).

(** The source view right after an edit: the only live timer is the one
    just set, due 300 ms later, and it closes over the text and the note. *)
Definition sourceArmed (note : option Note.t) (value : string)
  (calls : list (string * option string)) (st : State) : Prop :=
  currentNote st = note ∧ sourceContent st = value ∧ saveCalls st = calls ∧
  ∃ h, sourceTimeoutRef st = Some h ∧
       timers st = [mkTimer h (now st + 300) (SourceCb value note)].

End WithCodec.

End EditorScenes.

(** ** Arrow-key navigation of the note list ([App]) *)

Module AppKeys.

Import Js NotesContext.

Local Open Scope Z_scope.

(** [displayItems]: the search results while a query is typed, the notes
    otherwise.  The navigation reads the ids only. *)
Definition displayItems (st : State) : list string :=
  if truthy (trim (searchQuery st)) then SearchResult.id <$> searchResults st
  else NoteMetadata.id <$> notes st.

(** [items.findIndex((n) => n.id === selectedNoteId)], counting from
    [i]: the index of the first such item, [-1] when there is none. *)
Fixpoint findIndexFrom (i : Z) (selectedNoteId : option string)
  (items : list string) : Z :=
  match items with
  | [] => -1
  | id :: items' =>
      if decide (Some id = selectedNoteId) then i
      else findIndexFrom (i + 1) selectedNoteId items'
  end.

Definition findIndex (selectedNoteId : option string) (items : list string)
  : Z :=
  findIndexFrom 0 selectedNoteId items.

Inductive ArrowKey := ArrowDown | ArrowUp.

(** [newIndex] as the handler computes it from [currentIndex] and
    [displayItems.length]. *)
Definition newIndex (key : ArrowKey) (currentIndex len : Z) : Z :=
  match key with
  | ArrowDown => if currentIndex <? len - 1 then currentIndex + 1 else 0
  | ArrowUp => if 0 <? currentIndex then currentIndex - 1 else len - 1
  end.

(** [items[i]] for an integer [i]: [undefined] out of range. *)
Definition itemAt (items : list string) (i : Z) : option string :=
  if i <? 0 then None else items !! Z.to_nat i.

(** The id the handler passes to [selectNote]; [None] when
    [displayItems[newIndex]] is [undefined], where reading [.id] throws. *)
Definition arrowTarget (key : ArrowKey) (st : State) : option string :=
  let items := displayItems st in
  itemAt items
    (newIndex key (findIndex (selectedNoteId st) items)
       (Z.of_nat (List.length items))).

(** The arrow-key branch of the global key handler, for a key pressed
    outside the editor and outside an input.  With an empty list the key
    falls through and nothing is selected. *)
Definition handleArrow (key : ArrowKey) (st : State) : Result State :=
  match displayItems st with
  | [] => Resolved st
  | _ =>
      match arrowTarget key st with
      | Some id => Resolved (selectNote id st)
      | None =>
          Rejected (ErrorObject "Cannot read properties of undefined")
      end
  end.

End AppKeys.

(** ** Navigating the matches of the in-note search ([Editor]) *)

Module EditorSearch.

Local Open Scope Z_scope.

(** The state [searchMatches] (positions [from], [to]) and
    [currentMatchIndex]. *)
Record State := mkState {
  searchMatches : list (Z * Z);
  currentMatchIndex : Z
}.

(** [goToNextMatch] and [goToPreviousMatch], with an editor present; [%]
    is the remainder of JavaScript, which has the sign of the dividend. *)
Definition goToNextMatch (st : State) : State :=
  let len := Z.of_nat (List.length (searchMatches st)) in
  if len =? 0 then st
  else mkState (searchMatches st) (Z.rem (currentMatchIndex st + 1) len).

Definition goToPreviousMatch (st : State) : State :=
  let len := Z.of_nat (List.length (searchMatches st)) in
  if len =? 0 then st
  else mkState (searchMatches st) (Z.rem (currentMatchIndex st - 1 + len) len).

(** The search effect stores new matches together with index 0. *)
Definition setMatches (matches : list (Z * Z)) (st : State) : State :=
  mkState matches 0.

(** The active match, the one [updateSearchDecorations] highlights and
    scrolls to: [matches[currentIndex]]. *)
Definition activeMatch (st : State) : option (Z * Z) :=
  if currentMatchIndex st <? 0 then None
  else searchMatches st !! Z.to_nat (currentMatchIndex st).

End EditorSearch.

(** ** The search box of the sidebar ([Sidebar]) *)

Module Sidebar.

Import Js.

(** The callback handed to [setTimeout] by [handleSearchChange] closes
    over the text typed. *)
Record Timer := mkTimer {
  handle : positive;
  deadline : nat;
  value : string
}.

Record State := mkState {
  (* useState *)
  searchOpen : bool;
  inputValue : string;
  (* useRef *)
  debounceRef : option positive;
  (* the browser: clock and live timers *)
  now : nat;
  timers : list Timer;
  nextHandle : positive;
  (* the notes context the component reads and calls *)
  ctx : NotesContext.State
}.

Definition setSearchOpen (v : bool) (st : State) : State :=
  mkState v (inputValue st) (debounceRef st) (now st) (timers st) (nextHandle st) (ctx st).

Definition setInputValue (v : string) (st : State) : State :=
  mkState (searchOpen st) v (debounceRef st) (now st) (timers st) (nextHandle st) (ctx st).

Definition setDebounceRef (v : option positive) (st : State) : State :=
  mkState (searchOpen st) (inputValue st) v (now st) (timers st) (nextHandle st) (ctx st).

Definition setNow (v : nat) (st : State) : State :=
  mkState (searchOpen st) (inputValue st) (debounceRef st) v (timers st) (nextHandle st) (ctx st).

Definition setTimers (v : list Timer) (st : State) : State :=
  mkState (searchOpen st) (inputValue st) (debounceRef st) (now st) v (nextHandle st) (ctx st).

Definition setNextHandle (v : positive) (st : State) : State :=
  mkState (searchOpen st) (inputValue st) (debounceRef st) (now st) (timers st) v (ctx st).

Definition setCtx (v : NotesContext.State) (st : State) : State :=
  mkState (searchOpen st) (inputValue st) (debounceRef st) (now st) (timers st) (nextHandle st) v.

Definition setTimeout (v : string) (ms : nat) (st : State) : positive * State :=
  let h := nextHandle st in
  (h, setNextHandle (Pos.succ h)
        (setTimers (timers st ++ [mkTimer h (now st + ms) v]) st)).

Definition clearTimeout (h : positive) (st : State) : State :=
  setTimers (filter (λ t, handle t ≠ h) (timers st)) st.

(** The effect with dependency [searchQuery]: when the query of the
    context is not what it was at the previous render ([before]), the input
    takes it over. *)
Definition syncInput (before : string) (st : State) : State :=
  if decide (NotesContext.searchQuery (ctx st) = before) then st
  else setInputValue (NotesContext.searchQuery (ctx st)) st.

(** [handleSearchChange(e)] with [e.target.value = v] *)
Definition handleSearchChange (v : string) (st : State) : State :=
  let st1 := setInputValue v st in
  let st2 :=
    match debounceRef st1 with
    | Some h => clearTimeout h st1
    | None => st1
    end in
  let (h, st3) := setTimeout v 220 st2 in
  setDebounceRef (Some h) st3.

(** The callback of the debounce timer: [search(value)], then the render
    and its effect. *)
Definition debounceFired (v : string) (st : State) : State :=
  let before := NotesContext.searchQuery (ctx st) in
  syncInput before (setCtx (fst (NotesContext.search v (ctx st))) st).

(** [handleClearSearch()] *)
Definition handleClearSearch (st : State) : State :=
  let before := NotesContext.searchQuery (ctx st) in
  syncInput before
    (setCtx (NotesContext.clearSearch (ctx st)) (setInputValue "" st)).

(** [closeSearch()] *)
Definition closeSearch (st : State) : State :=
  let before := NotesContext.searchQuery (ctx st) in
  syncInput before
    (setCtx (NotesContext.clearSearch (ctx st))
       (setInputValue "" (setSearchOpen false st))).

(** [handleSearchKeyDown(e)] for the Escape key *)
Definition handleEscape (st : State) : State :=
  if truthy (inputValue st) then handleClearSearch st else closeSearch st.

(** The three ways the user dismisses a search. *)
Inductive Dismissal := ClearButton | EscapeKey | CloseSearch.

Definition dismiss (how : Dismissal) (st : State) : State :=
  match how with
  | ClearButton => handleClearSearch st
  | EscapeKey => handleEscape st
  | CloseSearch => closeSearch st
  end.

(** *** Timers and the clock *)

Fixpoint nextDue (t : nat) (l : list Timer) : option Timer :=
  match l with
  | [] => None
  | tm :: l' =>
      match nextDue t l' with
      | Some tm' =>
          if Nat.leb (deadline tm) t && Nat.leb (deadline tm) (deadline tm')
          then Some tm else Some tm'
      | None => if Nat.leb (deadline tm) t then Some tm else None
      end
  end.

Definition fire (tm : Timer) (st : State) : State :=
  debounceFired (value tm)
    (clearTimeout (handle tm) (setNow (Nat.max (now st) (deadline tm)) st)).

Fixpoint runTimers (fuel : nat) (t : nat) (st : State) : State :=
  match fuel with
  | O => st
  | S fuel' =>
      match nextDue t (timers st) with
      | Some tm => runTimers fuel' t (fire tm st)
      | None => st
      end
  end.

(** The clock moves to [t]; every timer due by then fires.  The callback
    sets no timer, so the number of live timers bounds the firings. *)
Definition advanceTo (t : nat) (st : State) : State :=
  let st1 := runTimers (List.length (timers st)) t st in
  setNow (Nat.max (now st1) t) st1.

(** *** Scenarios *)

(** The user types: the first change now, each later one [gap]
    milliseconds after the one before it. *)
Fixpoint changes (vs : list (nat * string)) (st : State) : State :=
  match vs with
  | [] => st
  | (gap, v) :: vs' =>
      changes vs' (handleSearchChange v (advanceTo (now st + gap) st))
  end.

Definition typing (v0 : string) (vs : list (nat * string)) (st : State)
  : State :=
  changes vs (handleSearchChange v0 st).

Definition lastTyped (v0 : string) (vs : list (nat * string)) : string :=
  List.last (snd <$> vs) v0.

(** Every live timer is the one [debounceRef] holds. *)
Definition ownsTimers (st : State) : Prop :=
  ∀ tm, tm ∈ timers st → debounceRef st = Some (handle tm).

(** The search box right after a change: the only live timer is the one
    just set, due 220 ms later, closing over the text typed. *)
Definition armed (v : string) (c : NotesContext.State) (st : State) : Prop :=
  inputValue st = v ∧ ctx st = c ∧
  ∃ h, debounceRef st = Some h ∧ timers st = [mkTimer h (now st + 220) v].

End Sidebar.

(** ** The preview window of a single file ([PreviewApp]) *)

Module FileContent.
Record t := mk {
  path : string;
  content : string;
  title : string;
  modified : nat
}.
End FileContent.

Module PreviewApp.

Import Js.

(** Calls into [filesService], for the file of the window. *)
Inductive Request :=
| ReadFileDirect
| SaveFileDirect (newContent : string).

Record State := mkState {
  (* useState *)
  content : option string;
  title : string;
  modified : nat;
  hasExternalChanges : bool;
  reloadVersion : nat;
  (* useRef *)
  recentlySavedRef : bool;
  (* the world outside the component *)
  requests : list Request
}.

Definition setContent (v : option string) (st : State) : State :=
  mkState v (title st) (modified st) (hasExternalChanges st) (reloadVersion
    st) (recentlySavedRef st) (requests st).

Definition setTitle (v : string) (st : State) : State :=
  mkState (content st) v (modified st) (hasExternalChanges st)
    (reloadVersion st) (recentlySavedRef st) (requests st).

Definition setModified (v : nat) (st : State) : State :=
  mkState (content st) (title st) v (hasExternalChanges st) (reloadVersion
    st) (recentlySavedRef st) (requests st).

Definition setHasExternalChanges (v : bool) (st : State) : State :=
  mkState (content st) (title st) (modified st) v (reloadVersion st)
    (recentlySavedRef st) (requests st).

Definition setReloadVersion (v : nat) (st : State) : State :=
  mkState (content st) (title st) (modified st) (hasExternalChanges st) v
    (recentlySavedRef st) (requests st).

Definition setRecentlySavedRef (v : bool) (st : State) : State :=
  mkState (content st) (title st) (modified st) (hasExternalChanges st)
    (reloadVersion st) v (requests st).

Definition setRequests (v : list Request) (st : State) : State :=
  mkState (content st) (title st) (modified st) (hasExternalChanges st)
    (reloadVersion st) (recentlySavedRef st) v.

Definition call (r : Request) (st : State) : State :=
  setRequests (requests st ++ [r]) st.

Definition initial : State := mkState None "" 0 false 0 false [].

(** The effect that loads the file on mount, after the read settled. *)
Definition load_settled (r : Result FileContent.t) (st : State) : State :=
  match r with
  | Resolved result =>
      setModified (FileContent.modified result)
        (setTitle (FileContent.title result)
           (setContent (Some (FileContent.content result)) st))
  | Rejected _ => st
  end.

(** What a [handleFocus] suspended on its read still uses: [modified]
    and [content] as they were at the render that registered the handler. *)
Record FocusFrame := mkFocusFrame {
  seenModified : nat;
  seenContent : option string
}.

(** [handleFocus()] up to [await filesService.readFileDirect(filePath)];
    [None] when the recently-saved mark is consumed instead. *)
Definition handleFocus (st : State) : State * option FocusFrame :=
  if recentlySavedRef st then (setRecentlySavedRef false st, None)
  else (call ReadFileDirect st,
        Some (mkFocusFrame (modified st) (content st))).

Definition handleFocus_settled (f : FocusFrame) (r : Result FileContent.t)
  (st : State) : State :=
  match r with
  | Resolved result =>
      if bool_decide (FileContent.modified result ≠ seenModified f)
         && bool_decide (seenContent f ≠ None)
      then setHasExternalChanges true st
      else st
  | Rejected _ => st
  end.

(** [save(newContent)] up to its [await], and after the write settled. *)
Definition save (newContent : string) (st : State) : State :=
  call (SaveFileDirect newContent) st.

Definition save_settled (r : Result FileContent.t) (st : State) : State :=
  match r with
  | Resolved result =>
      let st1 := setRecentlySavedRef true st in
      let st2 := setModified (FileContent.modified result) st1 in
      let st3 := setTitle (FileContent.title result) st2 in
      setHasExternalChanges false st3
  | Rejected _ => st
  end.

(** [reload()] up to its [await], and after the read settled. *)
Definition reload (st : State) : State := call ReadFileDirect st.

Definition reload_settled (r : Result FileContent.t) (st : State) : State :=
  match r with
  | Resolved result =>
      let st1 := setContent (Some (FileContent.content result)) st in
      let st2 := setTitle (FileContent.title result) st1 in
      let st3 := setModified (FileContent.modified result) st2 in
      let st4 := setHasExternalChanges false st3 in
      setReloadVersion (reloadVersion st4 + 1) st4
  | Rejected _ => st
  end.

(** The listener of [preview-file-change]. *)
Definition onPreviewFileChange (st : State) : State :=
  setHasExternalChanges true st.

(** Everything that can happen to the preview window. *)
Inductive Action :=
| LoadSettled (r : Result FileContent.t)
| Focus
| FocusSettled (f : FocusFrame) (r : Result FileContent.t)
| DoSave (newContent : string)
| SaveSettled (r : Result FileContent.t)
| DoReload
| ReloadSettled (r : Result FileContent.t)
| PreviewFileChanged.

Definition step (a : Action) (st : State) : State :=
  match a with
  | LoadSettled r => load_settled r st
  | Focus => fst (handleFocus st)
  | FocusSettled f r => handleFocus_settled f r st
  | DoSave newContent => save newContent st
  | SaveSettled r => save_settled r st
  | DoReload => reload st
  | ReloadSettled r => reload_settled r st
  | PreviewFileChanged => onPreviewFileChange st
  end.

Definition run (actions : list Action) (st : State) : State :=
  foldl (λ s a, step a s) st actions.

End PreviewApp.

(** ** The command palette ([CommandPalette]) *)

Module CommandPalette.

Import Js.

Local Open Scope Z_scope.

(** A command of the palette: its label and what it runs (named by its
    id). *)
Record Command := mkCommand {
  commandId : string;
  label : string
}.

(** An entry of [allItems]: a note (selecting it and closing the palette
    is its action) or a command. *)
Inductive Item :=
| NoteItem (id : string)
| CommandItem (cmd : Command).

(** [filteredNotes]: every note while the query is blank, the results of
    the palette's own search otherwise. *)
Definition filteredNotes (query : string) (notes localSearchResults : list string)
  : list string :=
  if negb (truthy (trim query)) then notes else localSearchResults.

(** [filteredCommands] *)
Definition filteredCommands (query : string) (commands : list Command)
  : list Command :=
  if negb (truthy (trim query)) then commands
  else
    let queryLower := toLowerCase query in
    filter (λ cmd, Is_true (includes (toLowerCase (label cmd)) queryLower))
      commands.

(** [allItems]: at most ten notes first, then the commands. *)
Definition allItems (notes : list string) (commands : list Command) : list Item :=
  (NoteItem <$> take 10 notes) ++ (CommandItem <$> commands).

(** [notesCount], the offset of the rows of the commands. *)
Definition notesCount (notes : list string) : nat :=
  Nat.min (List.length notes) 10.

Inductive Key := ArrowDown | ArrowUp.

(** The updater [handleKeyDown] passes to [setSelectedIndex]. *)
Definition moveSelection (len : Z) (key : Key) (i : Z) : Z :=
  match key with
  | ArrowDown => Z.min (i + 1) (len - 1)
  | ArrowUp => Z.max (i - 1) 0
  end.

(** The index after a sequence of arrow keys, from the 0 it is reset to
    when the palette opens or the query changes. *)
Definition selectedIndexAfter (items : list Item) (keys : list Key) : Z :=
  foldl (λ i key, moveSelection (Z.of_nat (List.length items)) key i) 0 keys.

(** [allItems[selectedIndex]], whose action the Enter key runs if it is
    defined. *)
Definition itemAt (items : list Item) (i : Z) : option Item :=
  if i <? 0 then None else items !! Z.to_nat i.

End CommandPalette.

(** ** Concrete states for the further examples *)

Module Scenes.

Import Scenario.

(** Two saves of note [a] complete one after the other. *)
Definition twoSaves : list (string * Note.t) := [("a", savedA); ("a", savedA)].

(** The settings with notes [b] and [a] pinned, in this order. *)
Definition pinnedBA : Settings.t :=
  Settings.mk (Some ["b"; "a"]) [("theme", "dark")].

Definition unpinned : Settings.t := Settings.mk None [("theme", "dark")].

(** The controller before a notes folder is chosen, once [createNote]
    (or [duplicateNote]) has run to its end with note [b]. *)
Definition created : NotesContext.State :=
  NotesActions.createNote_finish noteB
    (NotesContext.recentlySavedAdd "b" NotesContext.initial).

Definition duplicated : NotesContext.State :=
  NotesActions.duplicateNote_finish noteB
    (NotesContext.recentlySavedAdd "b" NotesContext.initial).

(** The editor with unsaved edits of note [a]... *)
Definition dirtyA : @Editor.State textCodec :=
  Editor.onUpdate ("alpha, edited" : @Doc textCodec) editor0.

(** ... when the controller presents note [b]. *)
Definition switchingToB : @Editor.State textCodec :=
  Editor.setCurrentNote (Some noteB) dirtyA.


(** Note [a], open with unsaved edits in an editor that was mounted while
    it was current, is deleted: the controller, rendered, has no current
    note... *)
Definition deletedA : NotesContext.State :=
  NotesContext.render (NotesActions.deleteNote_unselect "a" controller0).

(** ... the editor is rendered without a note and then unmounted. *)
Definition unmountedAfterDelete : @Editor.State textCodec :=
  Editor.unmount (Editor.render None 0 dirtyA).

(** The editor when the controller has reloaded note [a] from disk. *)
Definition reloadedA : Note.t :=
  Note.mk "a" "Alpha" "alpha from disk" "/notes/a.md" 12.

Definition reloading : @Editor.State textCodec :=
  Editor.setReloadVersion 1 (Editor.setCurrentNote (Some reloadedA) dirtyA).

(** Edits of the source view of note [a]. *)
Definition sourceTyping : list (nat * string) := [(100, "# T"); (299, "# Ti")].

(** The title typed in the source view was saved and the file renamed;
    the user typed on within the 300 ms, then the renamed note arrives. *)
Definition sourceRenameArrives : @Editor.State textCodec :=
  Editor.setCurrentNote (Some renamedA)
    (Editor.handleSourceChange "# Title and more"
       (Editor.advanceTo 300 (Editor.handleSourceChange "# Title" editor0))).

(** Three matches of the in-note search, the last one active. *)
Definition atLastMatch : EditorSearch.State :=
  EditorSearch.mkState [(1, 3); (5, 7); (9, 11)]%Z 2%Z.

(** The sidebar over the controller, and after the user typed [app]. *)
Definition sidebar0 : Sidebar.State :=
  Sidebar.mkState true "" None 0 [] 1%positive controller0.

Definition typedApp : Sidebar.State := Sidebar.handleSearchChange "app" sidebar0.

Definition searchTyping : list (nat * string) := [(100, "ap"); (219, "app")].

(** The preview window with its file loaded. *)
Definition file0 : FileContent.t := FileContent.mk "/tmp/x.md" "text" "x" 10.

Definition file1 : FileContent.t := FileContent.mk "/tmp/x.md" "text!" "x" 11.

Definition preview0 : PreviewApp.State :=
  PreviewApp.load_settled (Js.Resolved file0) PreviewApp.initial.

End Scenes.

(** * Properties *)

(** ** JavaScript strings *)

Module JsFacts.

Import Js.

Example toLowerCase_ex : toLowerCase "Hello World" = "hello world".
Proof. reflexivity. Qed.

Example trim_ex : trim "  a b  " = "a b".
Proof. reflexivity. Qed.

Example includes_ex : includes "shopping list" "ping" = true.
Proof. reflexivity. Qed.

Example includes_no_ex : includes "shopping list" "pong" = false.
Proof. reflexivity. Qed.

Example replaceNbsp_ex : replaceNbsp "a&nbsp;b&#160;c&nb" = "a b c&nb".
Proof. reflexivity. Qed.

Lemma trimStart_blank s : blank s = true → trimStart s = "".
Proof.
  induction s as [|c s IH]; simpl; [done|].
  intros [Hc Hs]%andb_prop. rewrite Hc. auto.
Qed.

(** [trim] maps the empty string and every string of white space to the
    empty string. *)
Lemma trim_blank s : blank s = true → trim s = "".
Proof. intros H. unfold trim. by rewrite trimStart_blank. Qed.

Lemma truthy_true s : truthy s = true ↔ s ≠ "".
Proof. destruct s; simpl; split; intros; congruence. Qed.

Lemma truthy_false s : truthy s = false ↔ s = "".
Proof. destruct s; simpl; split; intros; congruence. Qed.

End JsFacts.

(** ** The notes state controller *)

Module NotesContextFacts.

Import Js JsFacts NotesContext.

(** *** Frame lemmas: what [scheduleRefresh] and [setTimeout] leave alone *)

Lemma scheduleRefresh_selectedNoteId st :
  selectedNoteId (scheduleRefresh st) = selectedNoteId st.
Proof. unfold scheduleRefresh. by destruct (refreshTimeoutRef st). Qed.

Lemma scheduleRefresh_currentNote st :
  currentNote (scheduleRefresh st) = currentNote st.
Proof. unfold scheduleRefresh. by destruct (refreshTimeoutRef st). Qed.

Lemma saveNote_updateSelection_selectedNoteId savingNoteId updated st :
  selectedNoteId (saveNote_updateSelection savingNoteId updated st) =
  if decide (selectedNoteId st = Some savingNoteId)
  then Some (Note.id updated) else selectedNoteId st.
Proof. unfold saveNote_updateSelection. by case_decide. Qed.

Lemma saveNote_updateSelection_currentNote savingNoteId updated st :
  currentNote (saveNote_updateSelection savingNoteId updated st) =
  if decide (selectedNoteId st = Some savingNoteId)
  then Some updated else currentNote st.
Proof. unfold saveNote_updateSelection. by case_decide. Qed.

Lemma saveNote_finish_selectedNoteId savingNoteId updated st :
  selectedNoteId (saveNote_finish savingNoteId updated st) =
  if decide (selectedNoteId st = Some savingNoteId)
  then Some (Note.id updated) else selectedNoteId st.
Proof.
  unfold saveNote_finish. cbn [snd setTimeout selectedNoteId setNextHandle setTimers].
  rewrite scheduleRefresh_selectedNoteId.
  by rewrite saveNote_updateSelection_selectedNoteId.
Qed.

Lemma saveNote_finish_currentNote savingNoteId updated st :
  currentNote (saveNote_finish savingNoteId updated st) =
  if decide (selectedNoteId st = Some savingNoteId)
  then Some updated else currentNote st.
Proof.
  unfold saveNote_finish. cbn [snd setTimeout currentNote setNextHandle setTimers].
  rewrite scheduleRefresh_currentNote.
  by rewrite saveNote_updateSelection_currentNote.
Qed.

(** A resumption that reaches the end of the [try] block ran
    [saveNote_finish] on the state it found, with the note the write
    returned. *)
Lemma saveNote_resume_completed f resp st st' :
  saveNote_resume f resp st = Some (st', Completed) →
  ∃ updated, frameUpdated f resp = Some updated ∧
             st' = saveNote_finish (frameSavingNoteId f) updated st.
Proof.
  destruct f as [s|s u|s u], resp as [r|r|r]; simpl; try done; intros H.
  - unfold saveNote_written in H. destruct r as [updated|e]; [|naive_solver].
    case_decide; naive_solver.
  - unfold saveNote_gotSettings in H. destruct r as [cs|e]; [|naive_solver].
    case_decide; naive_solver.
  - unfold saveNote_settingsUpdated in H. destruct r; naive_solver.
Qed.

(** The frames of one call carry the id being saved and the note returned
    by the write from one [await] to the next. *)
Lemma saveNote_resume_suspended f resp st st' f' :
  saveNote_resume f resp st = Some (st', Suspended f') →
  frameSavingNoteId f' = frameSavingNoteId f ∧
  ∃ updated, frameUpdated f resp = Some updated ∧
             ∀ resp', frameUpdated f' resp' = Some updated.
Proof.
  destruct f as [s|s u|s u], resp as [r|r|r]; simpl; try done; intros H.
  - unfold saveNote_written in H. destruct r as [updated|e]; [|naive_solver].
    case_decide; [|naive_solver]. simplify_eq. eauto.
  - unfold saveNote_gotSettings in H. destruct r as [cs|e]; [|naive_solver].
    case_decide; [|naive_solver]. simplify_eq. eauto.
  - unfold saveNote_settingsUpdated in H. destruct r; naive_solver.
Qed.

Lemma saveNote_run_completed f script st found st' :
  saveNote_run f script st = Some (found, st', Completed) →
  ∃ updated,
    (∃ others resp rest, script = (others, resp) :: rest ∧
                         frameUpdated f resp = Some updated) ∧
    st' = saveNote_finish (frameSavingNoteId f) updated found.
Proof.
  revert f st. induction script as [|[others resp] script IH]; intros f st; [done|].
  simpl. destruct (saveNote_resume f resp (run others st)) as [[s1 out]|] eqn:E;
    [|done].
  destruct out as [f'| |].
  - intros (updated & (o & r & rest & -> & Hu) & ->)%IH.
    apply saveNote_resume_suspended in E as (Hs & u & Hfu & Hall).
    exists updated. rewrite Hs. split; [|done].
    exists others, resp, ((o, r) :: rest). split; [done|].
    rewrite Hfu. by rewrite <- (Hall r).
  - intros [= <- <-].
    apply saveNote_resume_completed in E as (updated & Hu & ->).
    exists updated. eauto 10.
  - done.
Qed.

Lemma saveNote_started capturedNote content noteId st st1 f :
  saveNote capturedNote content noteId st = (st1, Some f) →
  ∃ savingNoteId, savingNoteIdOf noteId capturedNote = Some savingNoteId ∧
                  truthy savingNoteId = true ∧
                  f = AwaitWrite savingNoteId ∧
                  st1 = call (SaveNote savingNoteId content)
                          (recentlySavedAdd savingNoteId st).
Proof.
  unfold saveNote. destruct (savingNoteIdOf noteId capturedNote) as [s|]; [|done].
  destruct (truthy s) eqn:E; [|done]. intros [= <- <-]. eauto.
Qed.

(** C1. For every call [saveNote(content, noteId)], through the callback
    of whatever render, that runs to the end of its [try] block, whatever
    other actions ran while it was suspended: with [savingNoteId] the id being
    saved and [updated] the note the write returned, if the selection found at completion is [savingNoteId] then the
    selection becomes [updated.id] and the current note becomes [updated];
    otherwise (the user switched notes while the save was in flight) the
    selection and the current note are left as they were found. *)
Theorem saveNote_updates_selection_iff_still_selected
  capturedNote content noteId st0 st1 f script found st' :
  saveNote capturedNote content noteId st0 = (st1, Some f) →
  saveNote_run f script st1 = Some (found, st', Completed) →
  ∃ savingNoteId updated,
    savingNoteIdOf noteId capturedNote = Some savingNoteId ∧
    writeResult script = Some updated ∧
    (selectedNoteId found = Some savingNoteId →
       selectedNoteId st' = Some (Note.id updated) ∧
       currentNote st' = Some updated) ∧
    (selectedNoteId found ≠ Some savingNoteId →
       selectedNoteId st' = selectedNoteId found ∧
       currentNote st' = currentNote found).
Proof.
  intros (savingNoteId & Hid & _ & -> & _)%saveNote_started.
  intros (updated & (others & resp & rest & -> & Hu) & ->)%saveNote_run_completed.
  exists savingNoteId, updated. split; [done|]. split.
  { destruct resp as [[u|e]|r|r]; simpl in Hu |- *; congruence. }
  rewrite saveNote_finish_selectedNoteId, saveNote_finish_currentNote.
  simpl. split; intros H; case_decide; done.
Qed.

(** C10, as amended. [saveNote(content)] without a note id resolves its
    target from the [currentNote] its callback closed over, in whatever state
    the controller is when it is called.  Through a callback created by a
    render without a current note it returns at once and leaves the whole
    state as it was: no request is issued, the recently-saved set, the timers
    (hence any scheduled list refresh), the selection, the current note, the
    error and the external-change flag are untouched.  Through a callback
    created by a render with current note [note] (of non-empty id) it marks
    the id of [note] as recently saved and issues one write for it, also when
    no note is current any more at the time of the call; so the call is
    without effect exactly when its callback closed over no note (or over a
    note with an empty id). *)
Theorem saveNote_without_target_is_noop content st :
  saveNote None content None st = (st, None) ∧
  (∀ note, Note.id note ≠ "" →
     let result := saveNote (Some note) content None st in
     snd result = Some (AwaitWrite (Note.id note)) ∧
     requests (fst result) = requests st ++ [SaveNote (Note.id note) content] ∧
     recentlySavedRef (fst result) = {[ Note.id note ]} ∪ recentlySavedRef st ∧
     currentNote (fst result) = currentNote st ∧
     selectedNoteId (fst result) = selectedNoteId st) ∧
  (∀ capturedNote,
     saveNote capturedNote content None st = (st, None) ↔
     capturedNote = None ∨ Note.id <$> capturedNote = Some "").
Proof.
  assert (∀ note, Note.id note ≠ "" →
            saveNote (Some note) content None st =
            (call (SaveNote (Note.id note) content)
               (recentlySavedAdd (Note.id note) st),
             Some (AwaitWrite (Note.id note)))) as Hwrite.
  { intros note Hid%truthy_true.
    unfold saveNote, savingNoteIdOf, Js.or.
    cbn [truthyOpt fmap option_fmap option_map]. by rewrite Hid. }
  split; [done|]. split.
  { intros note Hid result. subst result. by rewrite Hwrite. }
  intros [note|]; [|split; [by left|done]]. split.
  - intros Hnoop. right. cbn. f_equal.
    destruct (decide (Note.id note = "")) as [|Hid]; [done|].
    rewrite Hwrite in Hnoop by done. by injection Hnoop.
  - intros [|Hid]; [done|]. cbn in Hid. injection Hid as Hid.
    unfold saveNote, savingNoteIdOf, Js.or.
    cbn [truthyOpt fmap option_fmap option_map]. by rewrite Hid.
Qed.


(** *** [selectNote] *)

(** What a failed read changes: the error message, nothing else. *)
Lemma selectNote_settled_rejected err st :
  selectNote_settled (Rejected err) st =
  setError (Some (messageOr err "Failed to load note")) st.
Proof. reflexivity. Qed.

(** C7, as amended. In [selectNote(id)] the selection is set to [id] and
    the external-change flag is cleared before the read is awaited; when the
    read then fails, whatever ran in between, the error message is reported
    and nothing else changes: the current note is kept, and the selection is
    not put back to the note selected before the call. *)
Theorem selectNote_read_failure id err st others :
  let st1 := selectNote id st in
  let found := run others st1 in
  let st2 := selectNote_settled (Rejected err) found in
  (selectedNoteId st1 = Some id ∧
   hasExternalChanges st1 = false ∧
   currentNote st1 = currentNote st ∧
   requests st1 = requests st ++ [ReadNote id]) ∧
  (error st2 = Some (messageOr err "Failed to load note") ∧
   selectedNoteId st2 = selectedNoteId found ∧
   currentNote st2 = currentNote found ∧
   hasExternalChanges st2 = hasExternalChanges found ∧
   notes st2 = notes found ∧
   reloadVersion st2 = reloadVersion found ∧
   requests st2 = requests found) ∧
  (others = [] → selectedNoteId st2 = Some id ∧ currentNote st2 = currentNote st).
Proof.
  intros st1 found st2. split; [by repeat split|]. split; [by repeat split|].
  intros ->. by split.
Qed.

(** *** The file-change listener *)

Lemma refreshNotes_frame st :
  let st' := fst (refreshNotes st) in
  selectedNoteId st' = selectedNoteId st ∧
  currentNote st' = currentNote st ∧
  hasExternalChanges st' = hasExternalChanges st ∧
  reloadVersion st' = reloadVersion st ∧
  recentlySavedRef st' = recentlySavedRef st ∧
  searchRequestIdRef st' = searchRequestIdRef st ∧
  selectedNoteIdRef st' = selectedNoteIdRef st.
Proof. unfold refreshNotes. by destruct (truthyOpt (notesFolder st)). Qed.

Lemma onFileChange_flag isCancelled changed_ids st :
  hasExternalChanges (fst (onFileChange isCancelled changed_ids st)) =
  hasExternalChanges st
  || (negb isCancelled
      && match selectedNoteIdRef st with
         | Some currentId =>
             truthy currentId
             && bool_decide (currentId ∈ externalIds changed_ids st)
         | None => false
         end).
Proof.
  unfold onFileChange, externalIds. destruct isCancelled; simpl.
  { by rewrite orb_false_r. }
  destruct (filter _ (default [] changed_ids)) as [|x l] eqn:E.
  { simpl. destruct (selectedNoteIdRef st) as [c|]; [|by rewrite orb_false_r].
    by rewrite andb_false_r, orb_false_r. }
  pose proof (refreshNotes_frame st) as (_ & _ & Hflag & _ & _ & _ & Hsel).
  destruct (refreshNotes st) as [st1 w]; simpl in *. rewrite Hsel.
  destruct (selectedNoteIdRef st) as [c|]; simpl; [|by rewrite orb_false_r].
  destruct (truthy c && bool_decide (c ∈ x :: l)); simpl.
  - by rewrite orb_true_r.
  - by rewrite orb_false_r.
Qed.

(** C4. Processing a file-change notification: (1) if it turns the
    external-change flag on, then the selected id (the one the listener
    reads, [selectedNoteIdRef.current]) is one of its ids that is not in the
    recently-saved set; (2) if the selected id is in the recently-saved set,
    the flag is left as it was; (3) dropping from the
    notification an id that is in the recently-saved set changes nothing in
    what the listener does; (4) a notification all of whose ids are in the
    set leaves the whole state as it was. *)
Theorem onFileChange_ignores_recently_saved isCancelled changed_ids st :
  (hasExternalChanges st = false →
   hasExternalChanges (fst (onFileChange isCancelled changed_ids st)) = true →
   ∃ id, selectedNoteIdRef st = Some id ∧ id ∈ default [] changed_ids ∧
         id ∉ recentlySavedRef st) ∧
  (∀ id, selectedNoteIdRef st = Some id → id ∈ recentlySavedRef st →
         hasExternalChanges (fst (onFileChange isCancelled changed_ids st)) =
         hasExternalChanges st) ∧
  (∀ id, id ∈ recentlySavedRef st →
         onFileChange isCancelled changed_ids st =
         onFileChange isCancelled
           (Some (filter (λ x, x ≠ id) (default [] changed_ids))) st) ∧
  ((∀ id, id ∈ default [] changed_ids → id ∈ recentlySavedRef st) →
   onFileChange isCancelled changed_ids st = (st, false)).
Proof.
  repeat split.
  - intros Hoff. rewrite onFileChange_flag, Hoff. simpl.
    destruct isCancelled; [done|]. simpl.
    destruct (selectedNoteIdRef st) as [c|]; [|done].
    intros [_ Hin%bool_decide_eq_true]%andb_prop.
    unfold externalIds in Hin. apply list_elem_of_filter in Hin as [? ?]. eauto.
  - intros id Hsel Hin. rewrite onFileChange_flag, Hsel.
    rewrite (bool_decide_eq_false_2 (id ∈ _)).
    + by rewrite !andb_false_r, orb_false_r.
    + unfold externalIds. rewrite list_elem_of_filter. tauto.
  - intros id Hin. unfold onFileChange. destruct isCancelled; [done|].
    simpl.
    assert (filter (λ x, x ∉ recentlySavedRef st)
              (filter (λ x, x ≠ id) (default [] changed_ids)) =
            filter (λ x, x ∉ recentlySavedRef st) (default [] changed_ids))
      as ->; [|done].
    rewrite list_filter_filter. apply list_filter_iff. intros x.
    split; [tauto|]. intros Hx. split; [done|]. congruence.
  - intros Hall. unfold onFileChange. destruct isCancelled; [done|].
    destruct (filter _ (default [] changed_ids)) as [|x l] eqn:E; [done|].
    assert (x ∈ filter (λ id, id ∉ recentlySavedRef st) (default [] changed_ids))
      as [? ?]%list_elem_of_filter by (rewrite E; left).
    naive_solver.
Qed.

(** *** Search *)

(** [includes] decides the substring relation. *)
Lemma append_String c s t : String c s +:+ t = String c (s +:+ t).
Proof. reflexivity. Qed.

Lemma append_empty t : "" +:+ t = t.
Proof. reflexivity. Qed.

Lemma startsWith_spec p s : startsWith p s = true ↔ ∃ rest, s = p +:+ rest.
Proof.
  revert s. induction p as [|a p IH]; intros s; simpl.
  { split; [eauto|done]. }
  destruct s as [|b s].
  { split; [done|]. intros [rest Hr]. by rewrite append_String in Hr. }
  destruct (Ascii.eqb_spec a b) as [->|Hne].
  - rewrite IH. split; intros [rest Hr]; exists rest;
      rewrite append_String in *; congruence.
  - split; [done|]. intros [rest Hr]. rewrite append_String in Hr. congruence.
Qed.

Lemma includes_spec s p :
  includes s p = true ↔ ∃ before after, s = before +:+ p +:+ after.
Proof.
  induction s as [|c s IH]; simpl.
  - destruct (startsWith p "") eqn:E.
    + split; [|done]. intros _. apply startsWith_spec in E as [rest E].
      by exists "", rest.
    + split; [done|]. intros (before & after & H).
      destruct before; [|by rewrite append_String in H].
      rewrite append_empty in H.
      assert (startsWith p "" = true) by (apply startsWith_spec; eauto).
      congruence.
  - destruct (startsWith p (String c s)) eqn:E.
    + split; [|done]. intros _. apply startsWith_spec in E as [rest E].
      by exists "", rest.
    + rewrite IH. split.
      * intros (before & after & ->). by exists (String c before), after.
      * intros (before & after & H). destruct before as [|b before].
        -- rewrite append_empty in H.
           assert (startsWith p (String c s) = true)
             by (apply startsWith_spec; eauto).
           congruence.
        -- rewrite append_String in H. injection H as -> ->. eauto.
Qed.

Lemma merge_loop (seen : gset string) acc instant :
  foldl (λ merged result,
           if decide (SearchResult.id result ∈ seen) then merged
           else merged ++ [result]) acc instant =
  acc ++ filter (λ r, SearchResult.id r ∉ seen) instant.
Proof.
  revert acc. induction instant as [|r instant IH]; intros acc; simpl.
  { by rewrite app_nil_r. }
  rewrite IH, filter_cons. case_decide as Hseen.
  - by rewrite decide_False by tauto.
  - rewrite decide_True by done. by rewrite <- app_assoc.
Qed.

Lemma mergeResults_spec results instant :
  mergeResults results instant =
  results ++
    filter (λ r, SearchResult.id r ∉ SearchResult.id <$> results) instant.
Proof.
  unfold mergeResults. rewrite merge_loop. f_equal.
  apply list_filter_iff. intros r. by rewrite elem_of_list_to_set.
Qed.

Lemma instantResultsOf_ids queryLower ns :
  SearchResult.id <$> instantResultsOf queryLower ns =
  NoteMetadata.id <$>
    take 20 (filter (λ note, Is_true (matchesQuery queryLower note)) ns).
Proof.
  unfold instantResultsOf. rewrite <- list_fmap_compose. done.
Qed.

(** Merging never shows an id twice when neither list does. *)
Lemma mergeResults_NoDup results instant :
  NoDup (SearchResult.id <$> results) →
  NoDup (SearchResult.id <$> instant) →
  NoDup (SearchResult.id <$> mergeResults results instant).
Proof.
  intros Hr Hi. rewrite mergeResults_spec, fmap_app.
  apply NoDup_app. split; [done|]. split.
  - intros x Hx (r & -> & Hin)%list_elem_of_fmap.
    apply list_elem_of_filter in Hin as [Hnot _]. done.
  - clear Hr. induction instant as [|r instant IH]; [constructor|].
    rewrite fmap_cons in Hi. apply NoDup_cons in Hi as [Hr Hi].
    rewrite filter_cons. case_decide; [|auto].
    rewrite fmap_cons. apply NoDup_cons. split; [|auto].
    intros (r' & Heq & Hin)%list_elem_of_fmap.
    apply list_elem_of_filter in Hin as [_ Hin].
    apply Hr. rewrite Heq. apply list_elem_of_fmap. eauto.
Qed.

Lemma search_blank query st :
  trim query = "" →
  search query st =
  (setIsSearching false
     (setSearchResults []
        (setSearchQuery query (setSearchRequestId (S (searchRequestIdRef st)) st))),
   None).
Proof. intros H. unfold search. by rewrite H. Qed.

Lemma search_nonblank query st :
  trim query ≠ "" →
  let queryLower := toLowerCase (trim query) in
  let instant := instantResultsOf queryLower (notesRef st) in
  search query st =
  (call (SearchNotes (trim query))
     (setIsSearching true
        (setSearchResults instant
           (setSearchQuery query
              (setSearchRequestId (S (searchRequestIdRef st)) st)))),
   Some (mkSearchFrame (S (searchRequestIdRef st)) instant)).
Proof.
  intros H%truthy_true. unfold search. by rewrite H.
Qed.

Lemma instantResultsOf_elem queryLower ns r :
  r ∈ instantResultsOf queryLower ns →
  SearchResult.score r = 0%Z ∧
  ∃ note, note ∈ ns ∧ r = toInstantResult note ∧
          matchesQuery queryLower note = true.
Proof.
  unfold instantResultsOf. intros (note & -> & Hin)%list_elem_of_fmap.
  split; [done|]. exists note.
  apply elem_of_take in Hin as (j & Hin & _).
  apply list_elem_of_lookup_2 in Hin.
  apply list_elem_of_filter in Hin as [Hm Hin].
  by apply Is_true_true in Hm.
Qed.

Lemma instantResultsOf_length queryLower ns :
  (List.length (instantResultsOf queryLower ns) ≤ 20)%nat.
Proof. unfold instantResultsOf. rewrite length_fmap, length_take. lia. Qed.

(** A note matches exactly when its lower-cased title or its lower-cased
    preview contains the lower-cased query. *)
Lemma matchesQuery_spec queryLower note :
  matchesQuery queryLower note = true ↔
  (∃ a b, toLowerCase (NoteMetadata.title note) = a +:+ queryLower +:+ b) ∨
  (∃ a b, toLowerCase (NoteMetadata.preview note) = a +:+ queryLower +:+ b).
Proof.
  unfold matchesQuery. rewrite orb_true_iff, !includes_spec. done.
Qed.

(** The instant results follow the order of the list. *)
Lemma instantResultsOf_complete queryLower ns i note :
  ns !! i = Some note → matchesQuery queryLower note = true →
  (List.length (filter (λ n, Is_true (matchesQuery queryLower n)) (take i ns))
   < 20)%nat →
  toInstantResult note ∈ instantResultsOf queryLower ns.
Proof.
  intros Hi Hm Hlt. unfold instantResultsOf.
  apply list_elem_of_fmap. exists note. split; [done|].
  rewrite <- (take_drop_middle ns i note Hi), filter_app, filter_cons_True
    by (by apply Is_true_true).
  set (before := filter _ (take i ns)) in *.
  rewrite take_app_ge by lia.
  apply elem_of_app. right.
  destruct (20 - List.length before)%nat as [|k] eqn:E; [lia|].
  simpl. left.
Qed.

(** C8. A blank query clears the results at once, without a request.  A
    non-blank query at once shows the instant results: for the first twenty
    notes of the in-memory list ([notesRef.current], the list of the last
    render) whose lower-cased title or preview contains the lower-cased
    trimmed query, in the order of the list, the id, title, preview and
    modification time of the note with score 0; a note is among them as soon
    as it matches and fewer than twenty matching notes precede it.  When the
    response to the latest request arrives, an empty response leaves these
    instant results on display, and a non-empty one displays the
    authoritative results in their order followed by the instant results
    whose id is not among them. *)
Theorem search_instant_then_merged query st :
  (blank query = true →
   snd (search query st) = None ∧
   searchResults (fst (search query st)) = [] ∧
   isSearching (fst (search query st)) = false ∧
   requests (fst (search query st)) = requests st) ∧
  (trim query ≠ "" →
   ∃ f, snd (search query st) = Some f ∧
     let st1 := fst (search query st) in
     let queryLower := toLowerCase (trim query) in
     let matching note :=
       (∃ a b, toLowerCase (NoteMetadata.title note) = a +:+ queryLower +:+ b) ∨
       (∃ a b, toLowerCase (NoteMetadata.preview note) = a +:+ queryLower +:+ b) in
     searchResults st1 = instantResults f ∧
     (∀ note, matchesQuery queryLower note = true ↔ matching note) ∧
     instantResults f =
       (λ note, SearchResult.mk (NoteMetadata.id note) (NoteMetadata.title note)
                  (NoteMetadata.preview note) (NoteMetadata.modified note) 0) <$>
         take 20 (filter (λ note, Is_true (matchesQuery queryLower note))
                    (notesRef st)) ∧
     (∀ r, r ∈ instantResults f →
           SearchResult.score r = 0%Z ∧
           ∃ note, note ∈ notesRef st ∧ matching note ∧
             r = SearchResult.mk (NoteMetadata.id note) (NoteMetadata.title note)
                   (NoteMetadata.preview note) (NoteMetadata.modified note) 0) ∧
     (∀ i note,
        notesRef st !! i = Some note → matching note →
        (List.length
           (filter (λ n, Is_true (matchesQuery queryLower n))
              (take i (notesRef st))) < 20)%nat →
        SearchResult.mk (NoteMetadata.id note) (NoteMetadata.title note)
          (NoteMetadata.preview note) (NoteMetadata.modified note) 0
        ∈ instantResults f) ∧
     (List.length (instantResults f) ≤ 20)%nat ∧
     notesRef (render st) = notes st ∧
     requests st1 = requests st ++ [SearchNotes (trim query)] ∧
     ∀ found results,
       searchRequestIdRef found = requestId f →
       let st2 := search_settled f (Resolved results) found in
       (results = [] → searchResults st2 = instantResults f) ∧
       (results ≠ [] →
        searchResults st2 =
          results ++
            filter (λ r, SearchResult.id r ∉ SearchResult.id <$> results)
              (instantResults f))).
Proof.
  split.
  - intros Hb%trim_blank. by rewrite search_blank.
  - intros Hq. rewrite search_nonblank by done. eexists. split; [done|].
    cbn [fst instantResults requestId]. split; [done|].
    split; [intros note; apply matchesQuery_spec|]. split; [done|]. split.
    { intros r (Hscore & note & Hin & -> & Hm)%instantResultsOf_elem.
      split; [done|]. exists note. split; [done|].
      split; [by apply matchesQuery_spec|done]. }
    split.
    { intros i note Hi Hm%matchesQuery_spec Hlt.
      by apply (instantResultsOf_complete _ _ i note). }
    split; [apply instantResultsOf_length|]. split; [done|]. split; [done|].
    intros found results Hlatest. unfold search_settled. cbn [requestId].
    rewrite decide_False by (intros ?; congruence).
    split.
    + by intros ->.
    + intros Hne. destruct results as [|r results]; [done|].
      cbn [instantResults]. by rewrite <- mergeResults_spec.
Qed.

(** *** Request ids *)

Ltac unfold_actions :=
  unfold refreshNotes, refreshNotes_settled, selectNote, selectNote_settled,
    reloadCurrentNote, reloadCurrentNote_settled, saveNote, saveNote_resume,
    saveNote_written, saveNote_gotSettings, saveNote_settingsUpdated,
    saveNote_finish, saveNote_updateSelection, saveNote_catch,
    scheduleRefresh, onFileChange, fireTimer, runCallback, refreshNotes,
    recentlySavedAdd, recentlySavedDelete, call, clearTimeout, setTimeout,
    clearSearch, search, search_settled.

(** Only [search] and [clearSearch] touch the request counter, and both
    increase it. *)
Lemma step_searchRequestIdRef a st :
  searchRequestIdRef st ≤ searchRequestIdRef (step a st).
Proof.
  destruct a; simpl; unfold_actions;
    repeat (case_match; simplify_eq; simpl; try lia); lia.
Qed.

Lemma run_searchRequestIdRef actions st :
  searchRequestIdRef st ≤ searchRequestIdRef (run actions st).
Proof.
  revert st. induction actions as [|a actions IH]; intros st; simpl; [done|].
  etrans; [apply (step_searchRequestIdRef a)|apply IH].
Qed.

Lemma search_requestId query st :
  searchRequestIdRef (fst (search query st)) = S (searchRequestIdRef st) ∧
  ∀ f, snd (search query st) = Some f → requestId f = S (searchRequestIdRef st).
Proof.
  unfold search. destruct (negb (truthy (trim query))); simpl; split; try done.
  by intros f [= <-].
Qed.

Lemma search_settled_stale f r st :
  requestId f ≠ searchRequestIdRef st → search_settled f r st = st.
Proof.
  intros H. unfold search_settled. destruct r; by rewrite decide_True.
Qed.

(** C9. Every [search] call takes the successor of the request counter as
    its request id, and [clearSearch] increases the counter too; a response
    whose request id is not the counter's value leaves the whole state as it
    is.  So when a search is followed, after whatever other actions, by a
    later search (or by [clearSearch]), the response to the earlier one, at
    whatever later moment it arrives, changes nothing: in particular not the
    results the later search displays. *)
Theorem stale_search_response_is_discarded q1 st0 f1 r1 others1 others2 :
  snd (search q1 st0) = Some f1 →
  let st1 := fst (search q1 st0) in
  (∀ q st, searchRequestIdRef st < searchRequestIdRef (fst (search q st)) ∧
           ∀ f, snd (search q st) = Some f →
                requestId f = searchRequestIdRef (fst (search q st))) ∧
  (∀ st, searchRequestIdRef st < searchRequestIdRef (clearSearch st)) ∧
  (∀ f r st, requestId f ≠ searchRequestIdRef st → search_settled f r st = st) ∧
  (∀ q2,
     let st2 := fst (search q2 (run others1 st1)) in
     let found := run others2 st2 in
     (∀ f2, snd (search q2 (run others1 st1)) = Some f2 →
            requestId f1 < requestId f2) ∧
     search_settled f1 r1 found = found) ∧
  (let found := run others2 (clearSearch (run others1 st1)) in
   search_settled f1 r1 found = found).
Proof.
  intros Hf1 st1.
  pose proof (search_requestId q1 st0) as [Hc1 Hid1]. specialize (Hid1 _ Hf1).
  fold st1 in Hc1.
  split; [|split; [|split; [|split]]].
  - intros q st. destruct (search_requestId q st) as [Hc Hid]. split; [lia|].
    intros f Hf. rewrite (Hid f Hf). done.
  - intros st. simpl. lia.
  - apply search_settled_stale.
  - intros q2 st2 found.
    destruct (search_requestId q2 (run others1 st1)) as [Hc2 Hid2].
    pose proof (run_searchRequestIdRef others1 st1).
    pose proof (run_searchRequestIdRef others2 st2). fold found in H0.
    fold st2 in Hc2. split.
    + intros f2 Hf2. rewrite (Hid2 f2 Hf2). lia.
    + apply search_settled_stale. lia.
  - intros found.
    pose proof (run_searchRequestIdRef others1 st1).
    pose proof (run_searchRequestIdRef others2 (clearSearch (run others1 st1))).
    fold found in H0. simpl in H0.
    apply search_settled_stale. lia.
Qed.

End NotesContextFacts.

(** ** The editor: autosave scheduler and load/reconcile effect *)

Module EditorFacts.

Import Js JsFacts Editor.

Section WithCodec.

Context {codec : Codec}.

Lemma saveCalls_emit e st :
  saveCalls (emit e st) =
  saveCalls st ++ match e with
                  | SaveNoteCalled content noteId => [(content, noteId)]
                  | _ => []
                  end.
Proof.
  unfold saveCalls, emit. cbn [trace setTrace]. rewrite omap_app.
  by destruct e.
Qed.

(** *** The persist step *)

Lemma persist_trace noteId st :
  trace (persist noteId st) =
  trace st ++ [NeedsSaveAssigned false; MarkdownComputed;
               SaveNoteCalled (getMarkdown (editorRef st)) (Some noteId)].
Proof.
  unfold persist, saveImmediately, assignNeedsSave, emit. simpl.
  by rewrite <- !app_assoc.
Qed.

Lemma saveTimerFired_cases savingNoteId st :
  saveTimerFired savingNoteId st =
  if bool_decide (Note.id <$> currentNote st = Some savingNoteId)
     && needsSaveRef st && bool_decide (is_Some (editorRef st))
  then persist savingNoteId st else st.
Proof.
  unfold saveTimerFired, persist, computeMarkdown.
  repeat case_bool_decide; destruct (needsSaveRef st), (editorRef st) eqn:E;
    simpl; rewrite ?E; try done; exfalso; eauto using is_Some_None.
Qed.



Lemma persist_frame noteId st :
  let st' := persist noteId st in
  needsSaveRef st' = false ∧
  lastSaveRef st' = Some (noteId, getMarkdown (editorRef st)) ∧
  saveCalls st' = saveCalls st ++ [(getMarkdown (editorRef st), Some noteId)] ∧
  editorRef st' = editorRef st ∧ loadedNoteIdRef st' = loadedNoteIdRef st ∧
  saveTimeoutRef st' = saveTimeoutRef st ∧ timers st' = timers st ∧
  currentNote st' = currentNote st ∧ isLoadingRef st' = isLoadingRef st ∧
  now st' = now st.
Proof.
  repeat split; try reflexivity.
  unfold saveCalls. by rewrite persist_trace, omap_app.
Qed.




(** *** The load/reconcile effect *)

(** Same identity and same reload version: only the last-known modified
    time is recorded. *)
Lemma loadEffect_same_note st note d :
  currentNote st = Some note → editorRef st = Some d →
  loadedNoteIdRef st = Some (Note.id note) →
  reloadVersion st = lastReloadVersionRef st →
  loadEffect st = setLoadedModifiedRef (Some (Note.modified note)) st.
Proof.
  intros Hn He Hl Hv. unfold loadEffect. rewrite Hn, He, Hl.
  rewrite bool_decide_eq_true_2 by done. simpl.
  by rewrite bool_decide_eq_false_2 by (intros ?; congruence).
Qed.

Lemma loadEffect_rename_echo st note d loaded :
  currentNote st = Some note → editorRef st = Some d →
  loadedNoteIdRef st = Some loaded → Note.id note ≠ loaded →
  lastSaveRef st = Some (loaded, Note.content note) →
  loadEffect st =
  if needsSaveRef st then flushPendingSave (adopted note st)
  else adopted note st.
Proof.
  intros Hn He Hl Hne Hs. unfold loadEffect, isRenameEcho.
  rewrite Hn, He, Hl, Hs.
  rewrite (bool_decide_eq_false_2 (Some _ = _)) by congruence.
  by rewrite !bool_decide_eq_true_2 by done.
Qed.


(** *** The debounce *)


Lemma ownsTimers_none st :
  ownsTimers st → saveTimeoutRef st = None → timers st = [].
Proof.
  intros Hown Hh. apply elem_of_nil_inv. intros tm Hin.
  apply Hown in Hin. congruence.
Qed.




Lemma last_cons_default {A} (a d : A) l : List.last (a :: l) d = List.last l a.
Proof.
  revert a d. induction l as [|b l IH]; intros a d; [done|].
  change (List.last (a :: b :: l) d) with (List.last (b :: l) d).
  by rewrite !IH.
Qed.



Lemma setNow_frame t st :
  saveCalls (setNow t st) = saveCalls st ∧
  needsSaveRef (setNow t st) = needsSaveRef st ∧
  timers (setNow t st) = timers st ∧
  lastSaveRef (setNow t st) = lastSaveRef st ∧
  editorRef (setNow t st) = editorRef st.
Proof. by repeat split. Qed.



(** *** Mutations during a load *)





End WithCodec.

End EditorFacts.

(** ** The controller and the editor together *)

Module EngineFacts.

Import Js JsFacts.

(** C5, as amended. A file-change notification that carries an id that
    is not in the recently-saved set makes the listener call [refreshNotes]
    (which requests the list when a notes folder is set) and, at most, set
    the external-change flag; it leaves the current note, the selection and
    the reload version as they were, also once the refreshed list has
    arrived; an editor that has the current note loaded, run again on these
    props, keeps its buffer and makes no call.
    When that id is the selection the listener reads,
    [selectedNoteIdRef.current] (the selection as of the last render), the
    listener also sets the external-change flag, and does nothing else; so it
    does for the selected id of the state once the provider has rendered.
    The flag is on afterwards only if it was on before or the id in
    [selectedNoteIdRef.current] is one of the ids of the notification that
    are not in the recently-saved set: a notification for a note selected
    since the last render does not raise it. *)
Theorem external_change_flags_without_reload {codec : Codec}
  (changed_ids : list string) (st : NotesContext.State) (id : string) :
  id ≠ "" → id ∈ changed_ids → id ∉ NotesContext.recentlySavedRef st →
  let result := NotesContext.onFileChange false (Some changed_ids) st in
  let st' := fst result in
  (result =
     (NotesContext.setHasExternalChanges true
        (fst (NotesContext.refreshNotes st)),
      snd (NotesContext.refreshNotes st)) ∨
   result = NotesContext.refreshNotes st) ∧
  (truthyOpt (NotesContext.notesFolder st) = true →
   NotesContext.requests st' =
     NotesContext.requests st ++ [NotesContext.ListNotes] ∧
   snd result = true) ∧
  NotesContext.currentNote st' = NotesContext.currentNote st ∧
  NotesContext.selectedNoteId st' = NotesContext.selectedNoteId st ∧
  NotesContext.reloadVersion st' = NotesContext.reloadVersion st ∧
  (∀ r, let st'' := NotesContext.refreshNotes_settled r st' in
        NotesContext.currentNote st'' = NotesContext.currentNote st ∧
        NotesContext.reloadVersion st'' = NotesContext.reloadVersion st ∧
        NotesContext.hasExternalChanges st'' =
          NotesContext.hasExternalChanges st') ∧
  (∀ (es : Editor.State) note d,
     NotesContext.currentNote st = Some note →
     Editor.editorRef es = Some d →
     Editor.loadedNoteIdRef es = Some (Note.id note) →
     Editor.lastReloadVersionRef es = NotesContext.reloadVersion st →
     let es' := Editor.render (NotesContext.currentNote st')
                  (NotesContext.reloadVersion st') es in
     Editor.editorRef es' = Some d ∧
     Editor.trace es' = Editor.trace es ∧
     Editor.needsSaveRef es' = Editor.needsSaveRef es ∧
     Editor.timers es' = Editor.timers es) ∧
  (NotesContext.selectedNoteIdRef st = Some id →
   result =
     (NotesContext.setHasExternalChanges true
        (fst (NotesContext.refreshNotes st)),
      snd (NotesContext.refreshNotes st)) ∧
   NotesContext.hasExternalChanges st' = true) ∧
  (NotesContext.selectedNoteId st = Some id →
   NotesContext.hasExternalChanges
     (fst (NotesContext.onFileChange false (Some changed_ids)
             (NotesContext.render st))) = true) ∧
  (NotesContext.hasExternalChanges st' = true ↔
   NotesContext.hasExternalChanges st = true ∨
   ∃ c, NotesContext.selectedNoteIdRef st = Some c ∧ c ≠ "" ∧
        c ∈ changed_ids ∧ c ∉ NotesContext.recentlySavedRef st).
Proof.
  intros Hid Hin Hnot result st'.
  assert (id ∈ filter (λ x, x ∉ NotesContext.recentlySavedRef st) changed_ids)
    as Hext by (by apply list_elem_of_filter).
  pose proof (NotesContextFacts.refreshNotes_frame st)
    as (Hs & Hc & Hf & Hv & _ & _ & Hr).
  assert (∃ flag,
            result =
              (if flag : bool
               then NotesContext.setHasExternalChanges true
                      (fst (NotesContext.refreshNotes st))
               else fst (NotesContext.refreshNotes st),
               snd (NotesContext.refreshNotes st))) as [flag Hres].
  { unfold result, NotesContext.onFileChange.
    change (default [] (Some changed_ids)) with changed_ids.
    destruct (filter _ changed_ids) as [|x l] eqn:E.
    { by apply elem_of_nil in Hext. }
    destruct (NotesContext.refreshNotes st) as [st1 w]. cbn [fst snd].
    destruct (NotesContext.selectedNoteIdRef st1) as [c|];
      [|by exists false].
    destruct (truthy c && _); [by exists true|by exists false]. }
  assert (NotesContext.currentNote st' = NotesContext.currentNote st ∧
          NotesContext.selectedNoteId st' = NotesContext.selectedNoteId st ∧
          NotesContext.reloadVersion st' = NotesContext.reloadVersion st ∧
          NotesContext.requests st' =
            NotesContext.requests (fst (NotesContext.refreshNotes st)))
    as (Hc' & Hs' & Hv' & Hq').
  { subst st'. rewrite Hres. cbn [fst]. by destruct flag. }
  assert (NotesContext.hasExternalChanges st' =
          NotesContext.hasExternalChanges st
          || match NotesContext.selectedNoteIdRef st with
             | Some c =>
                 truthy c
                 && bool_decide (c ∈ NotesContext.externalIds (Some changed_ids) st)
             | None => false
             end) as Hflag.
  { subst st' result. by rewrite NotesContextFacts.onFileChange_flag. }
  split.
  { rewrite Hres. destruct flag; [by left|right].
    by destruct (NotesContext.refreshNotes st). }
  split.
  { intros Hfolder. rewrite Hq'. subst st'. rewrite Hres. cbn [snd].
    unfold NotesContext.refreshNotes. by rewrite Hfolder. }
  split; [exact Hc'|]. split; [exact Hs'|]. split; [exact Hv'|]. split.
  { intros [l|e]; cbn; by rewrite ?Hc', ?Hv'. }
  split.
  { intros es note d Hn He Hl Hrv. rewrite Hc', Hv'. unfold Editor.render.
    by rewrite (EditorFacts.loadEffect_same_note _ note d). }
  split.
  { intros Hsel. split.
    - clear Hres Hc' Hs' Hv' Hq' Hflag. subst st'.
      unfold result, NotesContext.onFileChange.
      change (default [] (Some changed_ids)) with changed_ids.
      destruct (filter _ changed_ids) as [|x l] eqn:E.
      { by apply elem_of_nil in Hext. }
      destruct (NotesContext.refreshNotes st) as [st1 w]. cbn [fst snd] in *.
      apply truthy_true in Hid. cbv zeta.
      rewrite Hr, Hsel, Hid. by rewrite bool_decide_eq_true_2.
    - rewrite Hflag, Hsel. apply truthy_true in Hid. rewrite Hid.
      unfold NotesContext.externalIds.
      change (default [] (Some changed_ids)) with changed_ids.
      rewrite bool_decide_eq_true_2 by done. apply orb_true_r. }
  split.
  { intros Hsel. rewrite NotesContextFacts.onFileChange_flag.
    change (NotesContext.selectedNoteIdRef (NotesContext.render st))
      with (NotesContext.selectedNoteId st).
    rewrite Hsel. apply truthy_true in Hid. rewrite Hid.
    unfold NotesContext.externalIds.
    change (default [] (Some changed_ids)) with changed_ids.
    change (NotesContext.recentlySavedRef (NotesContext.render st))
      with (NotesContext.recentlySavedRef st).
    rewrite bool_decide_eq_true_2 by done. apply orb_true_r. }
  rewrite Hflag, orb_true_iff. unfold NotesContext.externalIds.
  change (default [] (Some changed_ids)) with changed_ids.
  split.
  - intros [?|Hm]; [by left|right].
    destruct (NotesContext.selectedNoteIdRef st) as [c|]; [|done].
    apply andb_prop in Hm as [Hc1%truthy_true Hc2%bool_decide_eq_true].
    apply list_elem_of_filter in Hc2 as [? ?]. eauto 10.
  - intros [?|(c & -> & Hc1%truthy_true & Hc2 & Hc3)]; [by left|right].
    rewrite Hc1. rewrite bool_decide_eq_true_2; [done|].
    by apply list_elem_of_filter.
Qed.


End EngineFacts.

(** ** The properties on concrete runs *)

Module Examples.

Import Js Scenario.

(** Closed equations between concrete states are decided by evaluation. *)
Ltac evaluate := vm_compute; reflexivity.

(** The save of note [a] completes after the user switched to note [b]:
    the selection and the current note stay those of [b]. *)
Lemma saveNote_after_switch_witness :
  NotesContext.saveNote (Some noteA) "alpha!" None controller0 =
    (savingA, Some (NotesContext.AwaitWrite "a")) ∧
  NotesContext.saveNote_run (NotesContext.AwaitWrite "a") saveScript savingA =
    Some (NotesContext.run switchToB savingA,
          NotesContext.saveNote_finish "a" savedA
            (NotesContext.run switchToB savingA),
          NotesContext.Completed) ∧
  ∃ savingNoteId updated,
    NotesContext.savingNoteIdOf None (Some noteA) = Some savingNoteId ∧
    NotesContext.writeResult saveScript = Some updated ∧
    (NotesContext.selectedNoteId (NotesContext.run switchToB savingA)
       = Some savingNoteId →
     NotesContext.selectedNoteId
       (NotesContext.saveNote_finish "a" savedA
          (NotesContext.run switchToB savingA)) = Some (Note.id updated) ∧
     NotesContext.currentNote
       (NotesContext.saveNote_finish "a" savedA
          (NotesContext.run switchToB savingA)) = Some updated) ∧
    (NotesContext.selectedNoteId (NotesContext.run switchToB savingA)
       ≠ Some savingNoteId →
     NotesContext.selectedNoteId
       (NotesContext.saveNote_finish "a" savedA
          (NotesContext.run switchToB savingA)) =
       NotesContext.selectedNoteId (NotesContext.run switchToB savingA) ∧
     NotesContext.currentNote
       (NotesContext.saveNote_finish "a" savedA
          (NotesContext.run switchToB savingA)) =
       NotesContext.currentNote (NotesContext.run switchToB savingA)).
Proof.
  split; [evaluate|]. split; [evaluate|].
  apply (NotesContextFacts.saveNote_updates_selection_iff_still_selected
           (Some noteA) "alpha!" None controller0 savingA (NotesContext.AwaitWrite "a")
           saveScript); evaluate.
Defined.

Example saveNote_after_switch_keeps_b :
  let st' := NotesContext.saveNote_finish "a" savedA
               (NotesContext.run switchToB savingA) in
  NotesContext.selectedNoteId st' = Some "b" ∧
  NotesContext.currentNote st' = Some noteB.
Proof. split; evaluate. Qed.

(** C10, as stated, fails: the editor was mounted while note [a] was
    current, so the [saveNote] its unmount cleanup holds closed over note
    [a]; the note is deleted while the buffer is dirty, and no note is
    current; the editor is unmounted, and its call without a note id writes
    note [a]. *)
Lemma saveNote_without_target_counterexample :
  NotesContext.currentNote Scenes.deletedA = None ∧
  NotesContext.selectedNoteId Scenes.deletedA = None ∧
  Editor.saveCalls Scenes.unmountedAfterDelete = [("alpha, edited", None)] ∧
  NotesContext.saveNote (Some noteA) "alpha, edited" None Scenes.deletedA
    ≠ (Scenes.deletedA, None) ∧
  NotesContext.requests
    (fst (NotesContext.saveNote (Some noteA) "alpha, edited" None
            Scenes.deletedA)) =
    NotesContext.requests Scenes.deletedA ++
      [NotesContext.SaveNote "a" "alpha, edited"] ∧
  "a" ∈ NotesContext.recentlySavedRef
          (fst (NotesContext.saveNote (Some noteA) "alpha, edited" None
                  Scenes.deletedA)).
Proof.
  split; [evaluate|]. split; [evaluate|]. split; [evaluate|].
  split; [vm_compute; discriminate|]. split; [evaluate|].
  apply (bool_decide_unpack _). vm_compute. exact I.
Qed.

(** An editor mounted before any note was current holds the [saveNote]
    of a render without a current note: the call of its unmount cleanup is
    dropped, also when note [a] is current by then. *)
Example saveNote_without_target_mounted_early :
  NotesContext.currentNote controller0 = Some noteA ∧
  NotesContext.saveNote None "alpha, edited" None controller0 =
    (controller0, None).
Proof. split; evaluate. Qed.

(** C7, as stated, fails: note [a] is selected, the read of note [b]
    fails, and the selection is [b]. *)
Lemma selectNote_read_failure_counterexample :
  NotesContext.selectedNoteId controller0 = Some "a" ∧
  NotesContext.selectedNoteId
    (NotesContext.selectNote_settled (Rejected OtherValue)
       (NotesContext.selectNote "b" controller0)) = Some "b" ∧
  NotesContext.selectedNoteId
    (NotesContext.selectNote_settled (Rejected OtherValue)
       (NotesContext.selectNote "b" controller0))
  ≠ NotesContext.selectedNoteId controller0.
Proof.
  split; [evaluate|]. split; [evaluate|]. vm_compute. discriminate.
Qed.

(** The mark of note [a] has been released; a notification for [a] is
    external. *)
Lemma external_change_witness :
  NotesContext.selectedNoteIdRef afterSave = Some "a" ∧
  ("a" ∉ NotesContext.recentlySavedRef afterSave) ∧
  NotesContext.hasExternalChanges
    (fst (NotesContext.onFileChange false (Some ["a"; "c"]) afterSave)) = true ∧
  NotesContext.requests
    (fst (NotesContext.onFileChange false (Some ["a"; "c"]) afterSave)) =
    NotesContext.requests afterSave ++ [NotesContext.ListNotes] ∧
  NotesContext.currentNote
    (fst (NotesContext.onFileChange false (Some ["a"; "c"]) afterSave)) =
  NotesContext.currentNote afterSave.
Proof.
  assert ("a" ∉ NotesContext.recentlySavedRef afterSave) as Hnot.
  { apply (bool_decide_unpack _). vm_compute. exact I. }
  assert (NotesContext.selectedNoteIdRef afterSave = Some "a") as Hsel
    by evaluate.
  split; [exact Hsel|]. split; [exact Hnot|].
  pose proof (EngineFacts.external_change_flags_without_reload
                (codec := textCodec) ["a"; "c"] afterSave "a"
                ltac:(discriminate) ltac:(left) Hnot)
    as (_ & Hreq & Hcur & _ & _ & _ & _ & Hflag & _).
  split; [exact (proj2 (Hflag Hsel))|].
  split; [exact (proj1 (Hreq ltac:(evaluate)))|exact Hcur].
Defined.

(** C5, as stated, fails: note [b] has just been selected and the provider
    has not rendered since; a notification for [b], which is not in the
    recently-saved set, refreshes the list and leaves the flag off, because
    the listener still reads [a] as the selection.  After the render the same
    notification raises the flag. *)
Lemma external_change_before_render_counterexample :
  let st := NotesContext.selectNote "b" controller0 in
  let st' := fst (NotesContext.onFileChange false (Some ["b"]) st) in
  NotesContext.selectedNoteId st = Some "b" ∧
  ("b" ∉ NotesContext.recentlySavedRef st) ∧
  NotesContext.selectedNoteIdRef st = Some "a" ∧
  NotesContext.hasExternalChanges st' = false ∧
  NotesContext.requests st' =
    NotesContext.requests st ++ [NotesContext.ListNotes] ∧
  NotesContext.hasExternalChanges
    (fst (NotesContext.onFileChange false (Some ["b"])
            (NotesContext.render st))) = true.
Proof.
  cbv zeta. split; [evaluate|]. split.
  { apply (bool_decide_unpack _). vm_compute. exact I. }
  split; [evaluate|]. split; [evaluate|]. split; evaluate.
Qed.

(** While the mark is held the same notification sets nothing. *)
Lemma self_echo_witness :
  ("a" ∈ NotesContext.recentlySavedRef
           (NotesContext.saveNote_finish "a" savedA savingA)) ∧
  NotesContext.onFileChange false (Some ["a"])
    (NotesContext.saveNote_finish "a" savedA savingA) =
  (NotesContext.saveNote_finish "a" savedA savingA, false).
Proof.
  assert ("a" ∈ NotesContext.recentlySavedRef
                  (NotesContext.saveNote_finish "a" savedA savingA)) as Hin.
  { apply (bool_decide_unpack _). vm_compute. exact I. }
  split; [exact Hin|].
  apply NotesContextFacts.onFileChange_ignores_recently_saved.
  by intros id ->%list_elem_of_singleton.
Defined.

(** A slow response to [apple] arrives after [apple p] was searched. *)
Lemma stale_search_witness :
  snd (NotesContext.search "apple" controller0) =
    Some (NotesContext.mkSearchFrame 1
            [NotesContext.toInstantResult metaA;
             NotesContext.toInstantResult metaB]) ∧
  (let st2 := fst (NotesContext.search "apple p"
                     (fst (NotesContext.search "apple" controller0))) in
   NotesContext.searchResults st2 = [NotesContext.toInstantResult metaA] ∧
   NotesContext.search_settled
     (NotesContext.mkSearchFrame 1
        [NotesContext.toInstantResult metaA; NotesContext.toInstantResult metaB])
     (Resolved [SearchResult.mk "b" "Banana" "An APPLE a day" 20 7])
     st2 = st2).
Proof.
  assert (snd (NotesContext.search "apple" controller0) =
            Some (NotesContext.mkSearchFrame 1
                    [NotesContext.toInstantResult metaA;
                     NotesContext.toInstantResult metaB])) as Hf by evaluate.
  split; [exact Hf|]. split; [evaluate|].
  pose proof (NotesContextFacts.stale_search_response_is_discarded
                "apple" controller0
                (NotesContext.mkSearchFrame 1
                   [NotesContext.toInstantResult metaA;
                    NotesContext.toInstantResult metaB])
                (Resolved [SearchResult.mk "b" "Banana" "An APPLE a day" 20 7])
                [] [] Hf) as (_ & _ & _ & Hstale & _).
  exact (proj2 (Hstale "apple p")).
Defined.

Example search_merge_ex :
  let st1 := fst (NotesContext.search " Apple " controller0) in
  let f := NotesContext.mkSearchFrame 1 (NotesContext.searchResults st1) in
  NotesContext.searchResults st1 =
    [NotesContext.toInstantResult metaA; NotesContext.toInstantResult metaB] ∧
  NotesContext.searchResults
    (NotesContext.search_settled f (Resolved []) st1) =
    [NotesContext.toInstantResult metaA; NotesContext.toInstantResult metaB] ∧
  NotesContext.searchResults
    (NotesContext.search_settled f
       (Resolved [SearchResult.mk "b" "Banana" "An APPLE a day" 20 7;
                  SearchResult.mk "c" "Cherry" "stone fruit" 30 3]) st1) =
    [SearchResult.mk "b" "Banana" "An APPLE a day" 20 7;
     SearchResult.mk "c" "Cherry" "stone fruit" 30 3;
     NotesContext.toInstantResult metaA].
Proof. repeat split; evaluate. Qed.

(** The query [ Apple ] on the three listed notes: notes [a] and [b]
    match, by title and by preview; the response ranks [b] first and knows
    [c] too. *)
Lemma search_witness :
  trim " Apple " ≠ "" ∧
  NotesContext.searchResults (fst (NotesContext.search " Apple " controller0)) =
    [SearchResult.mk "a" "Apple pie" "recipe" 10 0;
     SearchResult.mk "b" "Banana" "An APPLE a day" 20 0] ∧
  NotesContext.requests (fst (NotesContext.search " Apple " controller0)) =
    [NotesContext.SearchNotes "Apple"] ∧
  ∃ f, snd (NotesContext.search " Apple " controller0) = Some f ∧
       NotesContext.searchResults
         (NotesContext.search_settled f (Resolved [])
            (fst (NotesContext.search " Apple " controller0))) =
         [SearchResult.mk "a" "Apple pie" "recipe" 10 0;
          SearchResult.mk "b" "Banana" "An APPLE a day" 20 0] ∧
       NotesContext.searchResults
         (NotesContext.search_settled f
            (Resolved [SearchResult.mk "b" "Banana" "An APPLE a day" 20 7;
                       SearchResult.mk "c" "Cherry" "stone fruit" 30 3])
            (fst (NotesContext.search " Apple " controller0))) =
         [SearchResult.mk "b" "Banana" "An APPLE a day" 20 7;
          SearchResult.mk "c" "Cherry" "stone fruit" 30 3;
          SearchResult.mk "a" "Apple pie" "recipe" 10 0].
Proof.
  assert (trim " Apple " ≠ "") as Hq by (vm_compute; discriminate).
  split; [exact Hq|].
  destruct (proj2 (NotesContextFacts.search_instant_then_merged
                     " Apple " controller0) Hq)
    as (f & Hf & Hshown & _ & Heq & _ & _ & _ & _ & Hreq & Hmerge).
  assert (NotesContext.instantResults f =
            [SearchResult.mk "a" "Apple pie" "recipe" 10 0;
             SearchResult.mk "b" "Banana" "An APPLE a day" 20 0]) as Hinstant.
  { rewrite Heq. evaluate. }
  assert (NotesContext.searchRequestIdRef
            (fst (NotesContext.search " Apple " controller0)) =
          NotesContext.requestId f) as Hlatest.
  { assert (snd (NotesContext.search " Apple " controller0) =
            Some (NotesContext.mkSearchFrame 1 (NotesContext.instantResults f)))
      as Hf'.
    { rewrite Hinstant. evaluate. }
    rewrite Hf in Hf'. injection Hf' as ->. evaluate. }
  split; [by rewrite Hshown|]. split; [rewrite Hreq; evaluate|].
  exists f. split; [exact Hf|]. split.
  - rewrite (proj1 (Hmerge _ [] Hlatest) eq_refl). exact Hinstant.
  - rewrite (proj2 (Hmerge _ _ Hlatest)) by discriminate.
    rewrite Hinstant. evaluate.
Defined.





End Examples.

(** * Further properties *)

(** ** Timers, marks and the remaining actions of the controller *)

Module NotesActionsFacts.

Import Js JsFacts NotesContext NotesContextFacts NotesActions.

(** *** Timer bookkeeping *)

Lemma filter_all {A} (P : A → Prop) `{!∀ x, Decision (P x)} (l : list A) :
  Forall P l → filter P l = l.
Proof.
  induction 1 as [|x l Hx Hl IH]; [done|].
  by rewrite filter_cons, decide_True, IH.
Qed.

Lemma NoDup_handle_filter (P : Timer → Prop) `{!∀ x, Decision (P x)} l :
  NoDup (handle <$> l) → NoDup (handle <$> filter P l).
Proof.
  induction l as [|t l IH]; [done|].
  rewrite fmap_cons, NoDup_cons. intros [Hnot Hl]. rewrite filter_cons.
  case_decide; [|auto]. rewrite fmap_cons. apply NoDup_cons. split; [|auto].
  intros (t' & Heq & Hin)%list_elem_of_fmap.
  apply list_elem_of_filter in Hin as [_ Hin].
  apply Hnot. rewrite Heq. by apply list_elem_of_fmap_2.
Qed.

Lemma setTimeout_timersOk cb ms st :
  timersOk st → cb ≠ RefreshCb →
  timersOk (snd (setTimeout cb ms st)).
Proof.
  intros (Hf & Ho & Hn) Hcb. unfold setTimeout. cbn [snd].
  split; [|split].
  - intros t. cbn [timers nextHandle setNextHandle setTimers].
    rewrite elem_of_app, list_elem_of_singleton. intros [Hin| ->].
    + apply Hf in Hin. lia.
    + cbn. lia.
  - intros t. cbn [timers refreshTimeoutRef setNextHandle setTimers].
    rewrite elem_of_app, list_elem_of_singleton. intros [Hin| ->]; [auto|].
    cbn. done.
  - cbn [timers setNextHandle setTimers]. rewrite fmap_app. cbn.
    apply NoDup_app. split; [done|]. split; [|apply NoDup_singleton].
    intros h (t & Heq & Hin)%list_elem_of_fmap Hh%list_elem_of_singleton.
    apply Hf in Hin. rewrite <- Heq, Hh in Hin. lia.
Qed.

Lemma clearTimeout_handlesFresh h st :
  handlesFresh st → handlesFresh (clearTimeout h st).
Proof.
  intros Hf t. unfold clearTimeout. cbn [timers nextHandle setTimers].
  intros [_ Hin]%list_elem_of_filter. auto.
Qed.

Lemma clearTimeout_NoDup h st :
  NoDup (handle <$> timers st) → NoDup (handle <$> timers (clearTimeout h st)).
Proof.
  unfold clearTimeout. cbn [timers setTimers]. apply NoDup_handle_filter.
Qed.

Lemma clearTimeout_timersOk h st : timersOk st → timersOk (clearTimeout h st).
Proof.
  intros (Hf & Ho & Hn). split; [by apply clearTimeout_handlesFresh|].
  split; [|by apply clearTimeout_NoDup].
  intros t. unfold clearTimeout. cbn [timers refreshTimeoutRef setTimers].
  intros [_ Hin]%list_elem_of_filter. auto.
Qed.

(** No live timer has the handle that was just cleared. *)
Lemma clearTimeout_gone h st t : t ∈ timers (clearTimeout h st) → handle t ≠ h.
Proof.
  unfold clearTimeout. cbn [timers setTimers].
  by intros [? _]%list_elem_of_filter.
Qed.

Lemma scheduleRefresh_timers st :
  timers (scheduleRefresh st) =
  filter (λ t, Some (handle t) ≠ refreshTimeoutRef st) (timers st)
    ++ [mkTimer (nextHandle st) 300 RefreshCb] ∧
  refreshTimeoutRef (scheduleRefresh st) = Some (nextHandle st) ∧
  nextHandle (scheduleRefresh st) = Pos.succ (nextHandle st) ∧
  recentlySavedRef (scheduleRefresh st) = recentlySavedRef st ∧
  requests (scheduleRefresh st) = requests st.
Proof.
  unfold scheduleRefresh. destruct (refreshTimeoutRef st) as [h|] eqn:E.
  - repeat split; try done. cbn. f_equal. apply list_filter_iff.
    intros t. split; intros H; congruence.
  - repeat split; try done. cbn. f_equal.
    symmetry. apply filter_all. by apply Forall_forall.
Qed.

Lemma scheduleRefresh_timersOk st :
  timersOk st → timersOk (scheduleRefresh st).
Proof.
  intros (Hf & Ho & Hn).
  destruct (scheduleRefresh_timers st) as (Ht & Hr & Hh & _).
  split; [|split].
  - intros t. rewrite Ht, Hh, elem_of_app, list_elem_of_singleton.
    intros [[_ Hin]%list_elem_of_filter| ->].
    + apply Hf in Hin. lia.
    + cbn. lia.
  - intros t. rewrite Ht, Hr, elem_of_app, list_elem_of_singleton.
    intros [[Hne Hin]%list_elem_of_filter| ->] Hcb; [|done].
    exfalso. apply Hne. symmetry. by apply Ho.
  - rewrite Ht, fmap_app. apply NoDup_app. split; [|split].
    + by apply NoDup_handle_filter.
    + intros h (t & Heq & [_ Hin]%list_elem_of_filter)%list_elem_of_fmap.
      cbn. intros Hh'%list_elem_of_singleton. apply Hf in Hin.
      rewrite <- Heq, Hh' in Hin. lia.
    + apply NoDup_singleton.
Qed.

Lemma refreshNotes_timers st :
  timers (fst (refreshNotes st)) = timers st ∧
  nextHandle (fst (refreshNotes st)) = nextHandle st ∧
  refreshTimeoutRef (fst (refreshNotes st)) = refreshTimeoutRef st.
Proof. unfold refreshNotes. by destruct (truthyOpt _). Qed.

(** A state that differs from one with good timers in neither the timer
    table, nor the handle counter, nor the refresh handle. *)
Lemma timersOk_same st st' :
  timers st' = timers st → nextHandle st' = nextHandle st →
  refreshTimeoutRef st' = refreshTimeoutRef st →
  timersOk st → timersOk st'.
Proof.
  intros Ht Hn Hr (Hf & Ho & Hd). unfold timersOk, handlesFresh, refreshOwned.
  rewrite Ht, Hn, Hr. done.
Qed.

Lemma find_handle h (l : list Timer) t :
  List.find (λ t, bool_decide (handle t = h)) l = Some t →
  t ∈ l ∧ handle t = h.
Proof.
  intros [Hin Hh%bool_decide_eq_true]%List.find_some.
  split; [by apply list_elem_of_In|done].
Qed.

Lemma fireTimer_timersOk h st : timersOk st → timersOk (fst (fireTimer h st)).
Proof.
  intros Hok. unfold fireTimer.
  destruct (List.find _ (timers st)) as [t|] eqn:E; [|done].
  apply find_handle in E as [Hin Hh].
  pose proof (clearTimeout_timersOk h st Hok) as Hok'.
  unfold runCallback. destruct (callback t) as [|s u] eqn:Ecb.
  - destruct (refreshNotes_timers (setRefreshTimeout None (clearTimeout h st)))
      as (Ht & Hn & Hr).
    destruct Hok' as (Hf' & Ho' & Hd').
    split; [|split].
    + intros x. rewrite Ht, Hn. apply Hf'.
    + intros x. rewrite Ht, Hr. intros Hx Hcb. exfalso.
      pose proof (clearTimeout_gone h st x Hx) as Hne.
      destruct Hok as (_ & Ho & _).
      assert (x ∈ timers st) as Hxin.
      { unfold clearTimeout in Hx. cbn in Hx.
        by apply list_elem_of_filter in Hx as [_ ?]. }
      pose proof (Ho x Hxin Hcb). pose proof (Ho t Hin Ecb). congruence.
    + by rewrite Ht.
  - cbn [fst]. eapply timersOk_same; [| | |exact Hok'];
      by destruct u as [u|]; [destruct (truthy u)|].
Qed.

Lemma call_timersOk r st : timersOk st → timersOk (call r st).
Proof. by apply timersOk_same. Qed.

Lemma refreshNotes_timersOk st : timersOk st → timersOk (fst (refreshNotes st)).
Proof. destruct (refreshNotes_timers st) as (? & ? & ?). by apply timersOk_same. Qed.

Lemma saveNote_finish_timersOk s u st :
  timersOk st → timersOk (saveNote_finish s u st).
Proof.
  intros Hok. unfold saveNote_finish. apply setTimeout_timersOk; [|done].
  apply scheduleRefresh_timersOk.
  eapply timersOk_same; [| | |exact Hok];
    unfold saveNote_updateSelection; by case_decide.
Qed.

Lemma saveNote_catch_timersOk s u e st :
  timersOk st → timersOk (saveNote_catch s u e st).
Proof.
  intros Hok. eapply timersOk_same; [| | |exact Hok];
    unfold saveNote_catch; by destruct u as [u|]; [destruct (truthy u)|].
Qed.

Lemma saveNote_resume_timersOk f resp st st' out :
  saveNote_resume f resp st = Some (st', out) → timersOk st → timersOk st'.
Proof.
  intros H Hok.
  destruct f as [s|s u|s u], resp as [r|r|r]; simpl in H; try done;
    unfold saveNote_written, saveNote_gotSettings, saveNote_settingsUpdated in H;
    destruct r; repeat case_decide; simplify_eq;
    auto using saveNote_finish_timersOk, saveNote_catch_timersOk,
      call_timersOk.
Qed.

(** Every action of the controller keeps the timers in order. *)
Lemma step_timersOk a st : timersOk st → timersOk (step a st).
Proof.
  intros Hok. destruct a; cbn [step].
  - by eapply timersOk_same.
  - by apply refreshNotes_timersOk.
  - eapply timersOk_same; [| | |exact Hok]; by destruct r.
  - by eapply timersOk_same.
  - eapply timersOk_same; [| | |exact Hok]; by destruct r.
  - eapply timersOk_same; [| | |exact Hok]; unfold reloadCurrentNote;
      by destruct (selectedNoteIdRef st) as [i|]; [destruct (truthy i)|].
  - eapply timersOk_same; [| | |exact Hok]; by destruct r.
  - eapply timersOk_same; [| | |exact Hok]; unfold saveNote;
      by destruct (savingNoteIdOf _ _) as [i|]; [destruct (truthy i)|].
  - destruct (saveNote_resume f resp st) as [[st' out]|] eqn:E; [|done].
    by eapply saveNote_resume_timersOk.
  - eapply timersOk_same; [| | |exact Hok]; unfold search;
      by destruct (negb _).
  - eapply timersOk_same; [| | |exact Hok]; unfold search_settled;
      destruct r as [[|? ?]|]; by case_decide.
  - by eapply timersOk_same.
  - unfold onFileChange. destruct isCancelled; [done|].
    destruct (filter _ _); [done|].
    pose proof (refreshNotes_timersOk st Hok) as Hok'.
    destruct (refreshNotes st) as [st1 w]. cbn [fst] in *.
    destruct (selectedNoteIdRef st1) as [c|]; [|done].
    destruct (_ && _); [|done]. by eapply timersOk_same.
  - by apply fireTimer_timersOk.
Qed.

Lemma awaitRefresh_timersOk {F} (frame : F) st :
  timersOk st → timersOk (fst (awaitRefresh frame st)).
Proof.
  intros Hok. unfold awaitRefresh.
  pose proof (refreshNotes_timersOk st Hok).
  by destruct (refreshNotes st).
Qed.

Lemma refreshNotes_settled_timersOk r st :
  timersOk st → timersOk (refreshNotes_settled r st).
Proof. intros Hok. eapply timersOk_same; [| | |exact Hok]; by destruct r. Qed.

Lemma deleteNote_resume_timersOk f resp st st' out :
  deleteNote_resume f resp st = Some (st', out) → timersOk st → timersOk st'.
Proof.
  intros H Hok.
  assert (timersOk (deleteNote_unselect
                      match f with DelAwaitDelete i | DelAwaitSettings i
                                 | DelAwaitUpdate i => i | _ => "" end st)) as Hu.
  { eapply timersOk_same; [| | |exact Hok]; unfold deleteNote_unselect;
      by case_decide. }
  destruct f as [i|i|i|], resp as [r|r|r|r]; simpl in H; try done;
    destruct r; simplify_eq;
    try (by apply call_timersOk);
    try (by eapply timersOk_same);
    try (by apply refreshNotes_settled_timersOk).
  - case_decide; simplify_eq; [by apply call_timersOk|].
    unfold deleteNote_finish in H.
    pose proof (awaitRefresh_timersOk DelAwaitRefresh _ Hu) as Ha.
    by rewrite H in Ha.
  - unfold deleteNote_finish in H.
    pose proof (awaitRefresh_timersOk DelAwaitRefresh _ Hu) as Ha.
    by rewrite H in Ha.
Qed.

Lemma pinNote_resume_timersOk f resp st st' out :
  pinNote_resume f resp st = Some (st', out) → timersOk st → timersOk st'.
Proof.
  intros H Hok. destruct f as [i| |], resp as [r|r|r]; simpl in H; try done;
    destruct r; simplify_eq;
    try (by eapply timersOk_same);
    try (by apply refreshNotes_settled_timersOk).
  - case_decide; simplify_eq; [done|by apply call_timersOk].
  - pose proof (awaitRefresh_timersOk PinAwaitRefresh _ Hok) as Ha.
    by rewrite H in Ha.
Qed.

Lemma unpinNote_resume_timersOk f resp st st' out :
  unpinNote_resume f resp st = Some (st', out) → timersOk st → timersOk st'.
Proof.
  intros H Hok. destruct f as [i| |], resp as [r|r|r]; simpl in H; try done;
    destruct r; simplify_eq;
    try (by eapply timersOk_same);
    try (by apply refreshNotes_settled_timersOk).
  pose proof (awaitRefresh_timersOk PinAwaitRefresh _ Hok) as Ha.
  by rewrite H in Ha.
Qed.

Lemma create_resume_timersOk finish fallback f resp st st' out :
  (∀ note s, timersOk s → timersOk (finish note s)) →
  create_resume finish fallback f resp st = Some (st', out) →
  timersOk st → timersOk st'.
Proof.
  intros Hfin H Hok. destruct f as [|note], resp as [r|r]; simpl in H; try done.
  - destruct r as [note|e]; simplify_eq; [|by eapply timersOk_same].
    assert (timersOk (recentlySavedAdd (Note.id note) st)) as Hok1
      by (by eapply timersOk_same).
    pose proof (refreshNotes_timersOk _ Hok1) as Hok2.
    destruct (refreshNotes (recentlySavedAdd (Note.id note) st)) as [st2 w].
    destruct w; simplify_eq; auto.
  - simplify_eq. by apply Hfin, refreshNotes_settled_timersOk.
Qed.

Lemma createNote_finish_timersOk note st :
  timersOk st → timersOk (createNote_finish note st).
Proof.
  intros Hok. unfold createNote_finish. apply setTimeout_timersOk; [|done].
  by eapply timersOk_same.
Qed.

Lemma duplicateNote_finish_timersOk note st :
  timersOk st → timersOk (duplicateNote_finish note st).
Proof.
  intros Hok. unfold duplicateNote_finish. apply setTimeout_timersOk; [|done].
  by eapply timersOk_same.
Qed.

Lemma stepAny_timersOk a st : timersOk st → timersOk (stepAny a st).
Proof.
  intros Hok.
  destruct a;
    cbn [stepAny fst deleteNote pinNote unpinNote createNote duplicateNote];
    unfold resumed; try done.
  - by apply step_timersOk.
  - destruct (deleteNote_resume f resp st) as [[st' out]|] eqn:E; [|done].
    by eapply deleteNote_resume_timersOk.
  - destruct (pinNote_resume f resp st) as [[st' out]|] eqn:E; [|done].
    by eapply pinNote_resume_timersOk.
  - destruct (unpinNote_resume f resp st) as [[st' out]|] eqn:E; [|done].
    by eapply unpinNote_resume_timersOk.
  - destruct (createNote_resume f resp st) as [[st' out]|] eqn:E; [|done].
    eapply create_resume_timersOk; [|exact E|done].
    apply createNote_finish_timersOk.
  - destruct (duplicateNote_resume f resp st) as [[st' out]|] eqn:E; [|done].
    eapply create_resume_timersOk; [|exact E|done].
    apply duplicateNote_finish_timersOk.
Qed.

Lemma runAny_timersOk actions st : timersOk st → timersOk (runAny actions st).
Proof.
  revert st. induction actions as [|a actions IH]; intros st Hok; [done|].
  cbn. apply IH. by apply stepAny_timersOk.
Qed.

Lemma initial_timersOk : timersOk initial.
Proof.
  split; [|split]; [intros t Ht|intros t Ht|constructor];
    by apply elem_of_nil in Ht.
Qed.

(** Owned distinct handles leave room for one refresh timer. *)
Lemma timersOk_refreshTimers st :
  timersOk st → List.length (refreshTimers st) ≤ 1.
Proof.
  intros (_ & Ho & Hd). unfold refreshTimers.
  destruct (filter _ (timers st)) as [|t1 [|t2 l]] eqn:E; cbn; [lia|lia|].
  exfalso.
  assert (t1 ∈ filter (λ t, callback t = RefreshCb) (timers st)) as H1
    by (rewrite E; set_solver).
  assert (t2 ∈ filter (λ t, callback t = RefreshCb) (timers st)) as H2
    by (rewrite E; set_solver).
  apply list_elem_of_filter in H1 as [Hc1 Hi1].
  apply list_elem_of_filter in H2 as [Hc2 Hi2].
  pose proof (Ho _ Hi1 Hc1) as Hr1. pose proof (Ho _ Hi2 Hc2) as Hr2.
  assert (handle t1 = handle t2) as Heq by congruence.
  assert (NoDup (handle <$> filter (λ t, callback t = RefreshCb) (timers st)))
    as Hnd by (by apply NoDup_handle_filter).
  rewrite E in Hnd. cbn in Hnd. apply NoDup_cons in Hnd as [Hnot _].
  apply Hnot. rewrite Heq. left.
Qed.

(** X1. In every state the controller can reach from its initial state, by
    any of its actions in any order, timer handles are never reused and at
    most one debounced list refresh is pending. *)
Theorem at_most_one_refresh_pending actions :
  let st := runAny actions initial in
  handlesFresh st ∧
  NoDup (handle <$> timers st) ∧
  List.length (refreshTimers st) ≤ 1 ∧
  (∀ t, t ∈ refreshTimers st → refreshTimeoutRef st = Some (handle t)).
Proof.
  intros st. pose proof (runAny_timersOk actions initial initial_timersOk) as Hok.
  fold st in Hok. split; [apply Hok|]. split; [apply Hok|].
  split; [by apply timersOk_refreshTimers|].
  intros t [Hc Hin]%list_elem_of_filter. by apply Hok.
Qed.

(** *** Debounced refresh *)

Lemma handle_inj_on (l : list Timer) t1 t2 :
  NoDup (handle <$> l) → t1 ∈ l → t2 ∈ l → handle t1 = handle t2 → t1 = t2.
Proof.
  induction l as [|t l IH]; [by intros _ ?%elem_of_nil|].
  rewrite fmap_cons, NoDup_cons. intros [Hnot Hl].
  rewrite !elem_of_cons. intros [->|H1] [->|H2] Heq; try done.
  - exfalso. apply Hnot. rewrite Heq. by apply list_elem_of_fmap_2.
  - exfalso. apply Hnot. rewrite <- Heq. by apply list_elem_of_fmap_2.
  - auto.
Qed.

(** Firing the timer with a given handle runs the callback of the live
    timer that has it. *)
Lemma fireTimer_live t st :
  NoDup (handle <$> timers st) → t ∈ timers st →
  fireTimer (handle t) st = runCallback (callback t) (clearTimeout (handle t) st).
Proof.
  intros Hd Hin. unfold fireTimer.
  destruct (List.find _ (timers st)) as [t'|] eqn:E.
  - apply find_handle in E as [Hin' Hh].
    by rewrite (handle_inj_on _ _ _ Hd Hin' Hin Hh).
  - exfalso. apply list_elem_of_In in Hin.
    pose proof (List.find_none _ _ E _ Hin) as Hf. cbn in Hf.
    by apply bool_decide_eq_false in Hf.
Qed.

Lemma saveNote_finish_timers s u st :
  let st1 := saveNote_finish s u st in
  timers st1 =
    filter (λ t, Some (handle t) ≠ refreshTimeoutRef st) (timers st)
      ++ [mkTimer (nextHandle st) 300 RefreshCb;
          mkTimer (Pos.succ (nextHandle st)) 1000 (ReleaseCb s (Some (Note.id u)))] ∧
  refreshTimeoutRef st1 = Some (nextHandle st) ∧
  recentlySavedRef st1 = recentlySavedRef st ∧
  requests st1 = requests st ∧ notesFolder st1 = notesFolder st.
Proof.
  cbn zeta. unfold saveNote_finish.
  set (st0 := saveNote_updateSelection s u (setHasExternalChanges false st)).
  assert (timers st0 = timers st ∧ refreshTimeoutRef st0 = refreshTimeoutRef st ∧
          nextHandle st0 = nextHandle st ∧
          recentlySavedRef st0 = recentlySavedRef st ∧
          requests st0 = requests st ∧ notesFolder st0 = notesFolder st)
    as (Ht & Hr & Hn & Hs & Hq & Hf).
  { unfold st0, saveNote_updateSelection. by case_decide. }
  clearbody st0.
  destruct (scheduleRefresh_timers st0) as (Ht' & Hr' & Hn' & Hs' & Hq').
  assert (notesFolder (scheduleRefresh st0) = notesFolder st0) as Hf'.
  { unfold scheduleRefresh. by destruct (refreshTimeoutRef st0). }
  revert Ht' Hr' Hn' Hs' Hq' Hf'. generalize (scheduleRefresh st0).
  intros st1 Ht' Hr' Hn' Hs' Hq' Hf'.
  unfold setTimeout.
  cbn [snd timers refreshTimeoutRef recentlySavedRef requests notesFolder
       setNextHandle setTimers].
  rewrite Ht', Hr', Hn', Hs', Hq', Hf', Ht, Hr, Hn, Hs, Hq, Hf.
  by rewrite <- app_assoc.
Qed.

Lemma owned_refresh_filtered st :
  refreshOwned st →
  filter (λ t, callback t = RefreshCb)
    (filter (λ t, Some (handle t) ≠ refreshTimeoutRef st) (timers st)) = [].
Proof.
  intros Ho. apply elem_of_nil_inv. intros t.
  rewrite !list_elem_of_filter. intros (Hc & Hne & Hin).
  apply Hne. symmetry. by apply Ho.
Qed.

Lemma saveNote_finish_refreshTimers s u st :
  refreshOwned st →
  refreshTimers (saveNote_finish s u st) =
    [mkTimer (nextHandle st) 300 RefreshCb].
Proof.
  intros Ho. unfold refreshTimers.
  destruct (saveNote_finish_timers s u st) as (-> & _).
  rewrite filter_app, owned_refresh_filtered by done.
  by rewrite filter_cons_True, filter_cons_False by done.
Qed.

Lemma finishSaves_timersOk saves st :
  timersOk st → timersOk (finishSaves saves st).
Proof.
  revert st. induction saves as [|p saves IH]; intros st Hok; [done|].
  change (finishSaves (p :: saves) st)
    with (finishSaves saves (saveNote_finish (fst p) (snd p) st)).
  generalize (saveNote_finish_timersOk (fst p) (snd p) st Hok).
  generalize (saveNote_finish (fst p) (snd p) st). intros st1 Hok1.
  by apply IH.
Qed.

(** X2. However many saves complete in a row, one debounced refresh is
    pending afterwards; when its timer fires it calls [refreshNotes] once
    (so one list request goes out when a notes folder is set) and no refresh
    is pending any more. *)
Theorem saves_coalesce_into_one_refresh saves st :
  timersOk st → saves ≠ [] →
  let st' := finishSaves saves st in
  ∃ h, refreshTimeoutRef st' = Some h ∧
       refreshTimers st' = [mkTimer h 300 RefreshCb] ∧
       let fired := fireTimer h st' in
       refreshTimers (fst fired) = [] ∧
       refreshTimeoutRef (fst fired) = None ∧
       (truthyOpt (notesFolder st') = true →
        requests (fst fired) = requests st' ++ [ListNotes] ∧
        snd fired = true) ∧
       (truthyOpt (notesFolder st') = false →
        requests (fst fired) = requests st' ∧ snd fired = false).
Proof.
  intros Hok Hne st'. subst st'.
  destruct saves as [|p saves _] using rev_ind; [done|]. clear Hne.
  unfold finishSaves. rewrite foldl_app. cbn [foldl].
  fold (finishSaves saves st).
  pose proof (finishSaves_timersOk saves st Hok) as Hok0.
  revert Hok0. generalize (finishSaves saves st). intros st0 Hok0.
  pose proof (saveNote_finish_timersOk p.1 p.2 st0 Hok0) as Hok1.
  pose proof (saveNote_finish_refreshTimers p.1 p.2 st0 (proj1 (proj2 Hok0)))
    as Hrt.
  destruct (saveNote_finish_timers p.1 p.2 st0) as (_ & Hr & _).
  revert Hok1 Hrt Hr. generalize (saveNote_finish p.1 p.2 st0).
  intros st1 Hok1 Hrt Hr.
  exists (nextHandle st0). split; [done|]. split; [done|]. cbn zeta.
  assert (mkTimer (nextHandle st0) 300 RefreshCb ∈ timers st1) as Hin.
  { assert (mkTimer (nextHandle st0) 300 RefreshCb ∈ refreshTimers st1) as H
      by (rewrite Hrt; left).
    by apply list_elem_of_filter in H as [_ ?]. }
  destruct Hok1 as (Hf1 & Ho1 & Hd1).
  pose proof (fireTimer_live _ st1 Hd1 Hin) as Hfire.
  cbn [callback handle runCallback] in Hfire. rewrite Hfire. clear Hfire.
  set (c := setRefreshTimeout None (clearTimeout (nextHandle st0) st1)).
  assert (notesFolder c = notesFolder st1 ∧ requests c = requests st1)
    as [Hcf Hcq] by done.
  assert (refreshTimers c = []) as Hct.
  { apply elem_of_nil_inv. intros t [Hc Ht]%list_elem_of_filter.
    pose proof (clearTimeout_gone _ _ _ Ht) as Hgone.
    assert (t ∈ timers st1) as Ht1.
    { unfold c, clearTimeout in Ht. cbn in Ht.
      by apply list_elem_of_filter in Ht as [_ ?]. }
    pose proof (Ho1 t Ht1 Hc). congruence. }
  assert (refreshTimeoutRef c = None) as Hcr by done.
  clearbody c. unfold refreshNotes. rewrite Hcf.
  destruct (truthyOpt (notesFolder st1)) eqn:Ef; cbn [fst snd].
  - repeat split; try done. by rewrite <- Hcq.
  - by repeat split.
Qed.

(** *** The recently-saved marks of a save *)

Lemma in_delete (X : gset string) x y : x ∈ X ∖ {[y]} ↔ x ∈ X ∧ x ≠ y.
Proof. by rewrite elem_of_difference, elem_of_singleton. Qed.


(** X3. A save that ends in its [catch] block leaves no mark behind: the id
    being saved, and the renamed id when the write had already returned one,
    are out of the recently-saved set; the error is reported; selection,
    current note, external-change flag, timers and requests are as found, and
    no mark is added. *)
Theorem saveNote_failure_releases_marks f resp st st' :
  saveNote_resume f resp st = Some (st', Caught) →
  (frameSavingNoteId f ∉ recentlySavedRef st') ∧
  (∀ updated, frameUpdated f resp = Some updated → Note.id updated ≠ "" →
              Note.id updated ∉ recentlySavedRef st') ∧
  (∃ msg, error st' = Some msg) ∧
  (∀ x, x ∈ recentlySavedRef st' → x ∈ recentlySavedRef st) ∧
  selectedNoteId st' = selectedNoteId st ∧
  currentNote st' = currentNote st ∧
  hasExternalChanges st' = hasExternalChanges st ∧
  timers st' = timers st ∧
  requests st' = requests st.
Proof.
  intros H.
  assert (∃ u err, st' = saveNote_catch (frameSavingNoteId f) u err st ∧
                   ∀ updated, frameUpdated f resp = Some updated →
                              u = Some (Note.id updated)) as (u & err & -> & Hu).
  { destruct f as [s|s n|s n], resp as [r|r|r]; simpl in H; try done;
      unfold saveNote_written, saveNote_gotSettings, saveNote_settingsUpdated in H;
      destruct r; repeat case_decide; simplify_eq; eexists _, _;
      (split; [done|]); simpl; intros; congruence. }
  assert (∀ x, x ∈ recentlySavedRef
                     (saveNote_catch (frameSavingNoteId f) u err st) ↔
               x ∈ recentlySavedRef st ∧ x ≠ frameSavingNoteId f ∧
               match u with
               | Some u' => truthy u' = true → x ≠ u'
               | None => True
               end) as Hset.
  { intros x. unfold saveNote_catch.
    destruct u as [u|]; [destruct (truthy u) eqn:Et|];
      cbn [recentlySavedRef recentlySavedDelete setRecentlySaved setError];
      rewrite ?in_delete; intuition congruence. }
  split; [rewrite Hset; tauto|]. split.
  { intros updated Hup Hid%truthy_true. pose proof (Hu _ Hup) as ->.
    rewrite Hset. tauto. }
  split; [unfold saveNote_catch;
          by destruct u as [u|]; [destruct (truthy u)|]; eexists|].
  split; [intros x; rewrite Hset; tauto|].
  unfold saveNote_catch.
  by destruct u as [u|]; [destruct (truthy u)|].
Qed.

(** X4. From every state the controller can reach: when a save completes, the
    timer that releases its marks is live and the marks are still as the save
    found them; when that timer fires, the id that was saved and the id the
    write returned are out of the recently-saved set, and no other id's mark
    is touched. *)
Theorem save_marks_released_by_timer actions s u :
  let st := runAny actions initial in
  let st1 := saveNote_finish s u st in
  let h := Pos.succ (nextHandle st) in
  let st2 := fst (fireTimer h st1) in
  mkTimer h 1000 (ReleaseCb s (Some (Note.id u))) ∈ timers st1 ∧
  recentlySavedRef st1 = recentlySavedRef st ∧
  (s ∉ recentlySavedRef st2) ∧
  (Note.id u ≠ "" → Note.id u ∉ recentlySavedRef st2) ∧
  (∀ x, x ≠ s → x ≠ Note.id u →
        (x ∈ recentlySavedRef st2 ↔ x ∈ recentlySavedRef st)).
Proof.
  intros st st1 h st2.
  pose proof (runAny_timersOk actions initial initial_timersOk) as Hok.
  fold st in Hok.
  pose proof (saveNote_finish_timersOk s u st Hok) as (_ & _ & Hd1).
  destruct (saveNote_finish_timers s u st) as (Ht & _ & Hs & _).
  fold st1 in Hd1, Ht, Hs.
  assert (mkTimer h 1000 (ReleaseCb s (Some (Note.id u))) ∈ timers st1) as Hin.
  { rewrite Ht, elem_of_app, !elem_of_cons. auto. }
  split; [done|]. split; [done|].
  pose proof (fireTimer_live _ st1 Hd1 Hin) as Hfire.
  cbn [handle callback runCallback] in Hfire.
  assert (∀ x, x ∈ recentlySavedRef st2 ↔
               x ∈ recentlySavedRef st ∧ x ≠ s ∧
               (truthy (Note.id u) = true → x ≠ Note.id u)) as Hset.
  { intros x. unfold st2. rewrite Hfire. cbn [fst].
    destruct (truthy (Note.id u)) eqn:Et;
      cbn [recentlySavedRef recentlySavedDelete setRecentlySaved clearTimeout
           setTimers];
      rewrite ?in_delete, Hs; intuition congruence. }
  split; [rewrite Hset; tauto|]. split.
  - intros Hid%truthy_true. rewrite Hset. tauto.
  - intros x Hxs Hxu. rewrite Hset. tauto.
Qed.

(** *** [deleteNote] *)

Lemma awaitRefresh_frame {F} (frame : F) st :
  let r := awaitRefresh frame st in
  selectedNoteId (fst r) = selectedNoteId st ∧
  currentNote (fst r) = currentNote st ∧
  recentlySavedRef (fst r) = recentlySavedRef st ∧
  (snd r = Finished ∨ snd r = Waiting frame).
Proof.
  unfold awaitRefresh, refreshNotes.
  destruct (truthyOpt (notesFolder st)); cbn; auto.
Qed.

(** X5. When [deleteNote(id)] gets past the deletion and the pin clean-up,
    it clears the selection and the current note if the selection it finds is
    [id], and leaves both as they are otherwise; then it refreshes the
    list. *)
Theorem deleteNote_unselects_only_the_deleted id f resp st st' out :
  f = DelAwaitSettings id ∨ f = DelAwaitUpdate id →
  deleteNote_resume f resp st = Some (st', out) →
  out = Finished ∨ out = Waiting DelAwaitRefresh →
  (selectedNoteId st = Some id →
   selectedNoteId st' = None ∧ currentNote st' = None) ∧
  (selectedNoteId st ≠ Some id →
   selectedNoteId st' = selectedNoteId st ∧ currentNote st' = currentNote st).
Proof.
  intros Hf H Hout.
  assert ((st', out) = deleteNote_finish id st) as Hfin.
  { destruct Hf as [-> | ->], resp as [r|r|r|r]; simpl in H; try done;
      destruct r; simplify_eq; try (by destruct Hout);
      try done.
    case_decide; simplify_eq; [by destruct Hout|done]. }
  unfold deleteNote_finish in Hfin.
  destruct (awaitRefresh_frame DelAwaitRefresh (deleteNote_unselect id st))
    as (Hs & Hc & _).
  rewrite <- Hfin in Hs, Hc. cbn [fst] in Hs, Hc. rewrite Hs, Hc.
  unfold deleteNote_unselect. split; intros Hsel; by case_decide.
Qed.

(** X6. Whichever promise of [deleteNote] is rejected (the deletion, the
    read of the settings or their update), the action reports the error and
    does nothing else: the selection and the current note are kept and no
    request (in particular no list refresh) is issued. *)
Theorem deleteNote_failure_only_reports f resp st st' :
  deleteNote_resume f resp st = Some (st', Failed) →
  (∃ msg, error st' = Some msg) ∧
  selectedNoteId st' = selectedNoteId st ∧
  currentNote st' = currentNote st ∧
  notes st' = notes st ∧
  requests st' = requests st ∧
  timers st' = timers st.
Proof.
  intros H.
  assert (∃ err, st' = deleteNote_catch err st) as [err ->].
  { destruct f as [i|i|i|], resp as [r|r|r|r]; simpl in H; try done;
      destruct r; simplify_eq; eauto.
    - case_decide; simplify_eq. unfold deleteNote_finish in H.
      destruct (awaitRefresh_frame DelAwaitRefresh (deleteNote_unselect i st))
        as (_ & _ & _ & [Ho|Ho]); rewrite H in Ho; done.
    - unfold deleteNote_finish in H.
      destruct (awaitRefresh_frame DelAwaitRefresh (deleteNote_unselect i st))
        as (_ & _ & _ & [Ho|Ho]); rewrite H in Ho; done. }
  split; [by eexists|]. done.
Qed.

(** *** Pins *)

(** X7. [pinNote(id)] once the settings are read: when [id] is already
    pinned nothing happens at all (no update, no list refresh); otherwise
    exactly one update is requested, with [id] appended after the existing
    pins and every other field of the settings unchanged, and a list without
    repetitions stays without repetitions. *)
Theorem pinNote_appends_once id currentSettings st :
  let pinnedIds := default [] (Settings.pinnedNoteIds currentSettings) in
  let r := pinNote_resume (PinAwaitSettings id)
             (PinSettingsSettled (Resolved currentSettings)) st in
  (id ∈ pinnedIds → r = Some (st, Finished)) ∧
  (id ∉ pinnedIds →
   ∃ updatedSettings,
     r = Some (call (UpdateSettings updatedSettings) st, Waiting PinAwaitUpdate) ∧
     Settings.pinnedNoteIds updatedSettings = Some (pinnedIds ++ [id]) ∧
     Settings.otherFields updatedSettings =
       Settings.otherFields currentSettings ∧
     (NoDup pinnedIds → NoDup (pinnedIds ++ [id])) ∧
     (* pinning again on what was written changes nothing *)
     pinNote_resume (PinAwaitSettings id)
       (PinSettingsSettled (Resolved updatedSettings)) st = Some (st, Finished)).
Proof.
  cbn zeta. cbn [pinNote_resume]. split.
  - intros Hin. by rewrite decide_True.
  - intros Hnot. rewrite decide_False by done. eexists. split; [done|].
    cbn [Settings.pinnedNoteIds Settings.otherFields default].
    split; [done|]. split; [done|]. split.
    + intros Hnd. apply NoDup_app. split; [done|]. split; [|apply NoDup_singleton].
      by intros x Hx ->%list_elem_of_singleton.
    + rewrite decide_True; [done|]. apply elem_of_app. right.
      by apply list_elem_of_singleton.
Qed.

Lemma filter_ne_app_last (id : string) l :
  id ∉ l → filter (λ x, x ≠ id) (l ++ [id]) = l.
Proof.
  intros Hnot. rewrite filter_app, filter_cons_False, filter_nil, app_nil_r
    by (by intros ?).
  apply filter_all, Forall_forall. intros x Hx ->. done.
Qed.

(** X8. [unpinNote(id)] always requests one update, whose pin list is the
    old one without [id], other pins in their order, other fields unchanged;
    and unpinning what [pinNote] wrote for a note that was not pinned gives
    back the pin list there was. *)
Theorem unpinNote_removes_and_undoes_pin id currentSettings st :
  let pinnedIds := default [] (Settings.pinnedNoteIds currentSettings) in
  ∃ updatedSettings,
    unpinNote_resume (PinAwaitSettings id)
      (PinSettingsSettled (Resolved currentSettings)) st =
      Some (call (UpdateSettings updatedSettings) st, Waiting PinAwaitUpdate) ∧
    Settings.otherFields updatedSettings = Settings.otherFields currentSettings ∧
    ∃ l, Settings.pinnedNoteIds updatedSettings = Some l ∧
         (id ∉ l) ∧ (∀ x, x ≠ id → (x ∈ l ↔ x ∈ pinnedIds)) ∧
         l `sublist_of` pinnedIds ∧
         (id ∉ pinnedIds → l = pinnedIds) ∧
         (∀ pinned st1 st2,
            pinNote_resume (PinAwaitSettings id)
              (PinSettingsSettled (Resolved currentSettings)) st1 =
              Some (call (UpdateSettings pinned) st1, Waiting PinAwaitUpdate) →
            ∃ restored,
              unpinNote_resume (PinAwaitSettings id)
                (PinSettingsSettled (Resolved pinned)) st2 =
                Some (call (UpdateSettings restored) st2,
                      Waiting PinAwaitUpdate) ∧
              Settings.pinnedNoteIds restored = Some pinnedIds ∧
              Settings.otherFields restored =
                Settings.otherFields currentSettings).
Proof.
  cbn zeta. cbn [unpinNote_resume]. eexists. split; [done|].
  cbn [Settings.pinnedNoteIds Settings.otherFields]. split; [done|].
  eexists. split; [done|]. split.
  { rewrite list_elem_of_filter. tauto. }
  split.
  { intros x Hx. rewrite list_elem_of_filter. tauto. }
  split; [apply sublist_filter|]. split.
  { intros Hnot. apply filter_all, Forall_forall. intros x Hx ->. done. }
  intros pinned st1 st2 Hpin. cbn [pinNote_resume] in Hpin.
  case_decide as Hin; [done|]. simplify_eq.
  eexists. split; [done|].
  cbn [Settings.pinnedNoteIds Settings.otherFields default].
  split; [|done]. f_equal. by apply filter_ne_app_last.
Qed.

(** X9. The rename branch of [saveNote], once the settings are read: when
    the old id is not pinned no update is requested and the save goes on to
    its end; when it is pinned, one update is requested in which the pin list
    has the same length, the new id stands at every position where the old id
    stood and every other position is unchanged, so the new id is pinned and
    (the ids being different) the old one no longer is; the other fields of
    the settings are unchanged. *)
Theorem rename_transfers_pin savingNoteId updated currentSettings st :
  Note.id updated ≠ savingNoteId →
  let pinnedIds := default [] (Settings.pinnedNoteIds currentSettings) in
  let r := saveNote_gotSettings savingNoteId updated
             (Resolved currentSettings) st in
  (savingNoteId ∉ pinnedIds →
   r = (saveNote_finish savingNoteId updated st, Completed)) ∧
  (savingNoteId ∈ pinnedIds →
   ∃ updatedSettings l,
     r = (call (UpdateSettings updatedSettings) st,
          Suspended (AwaitUpdate savingNoteId updated)) ∧
     Settings.pinnedNoteIds updatedSettings = Some l ∧
     Settings.otherFields updatedSettings =
       Settings.otherFields currentSettings ∧
     List.length l = List.length pinnedIds ∧
     (∀ i x, pinnedIds !! i = Some x →
             l !! i = Some (if decide (x = savingNoteId)
                            then Note.id updated else x)) ∧
     Note.id updated ∈ l ∧ savingNoteId ∉ l).
Proof.
  intros Hne. cbn zeta. unfold saveNote_gotSettings. split.
  - intros Hnot. by rewrite decide_False.
  - intros Hin. rewrite decide_True by done. eexists _, _. split; [done|].
    cbn [Settings.pinnedNoteIds Settings.otherFields].
    split; [done|]. split; [done|]. split; [by rewrite length_fmap|]. split.
    { intros i x Hi. by rewrite list_lookup_fmap, Hi. }
    split.
    + apply list_elem_of_fmap. exists savingNoteId. by rewrite decide_True.
    + intros (x & Hx & _)%list_elem_of_fmap. case_decide; congruence.
Qed.

(** *** [createNote] and [duplicateNote] *)

Lemma refreshNotes_settled_keeps r st :
  let st' := refreshNotes_settled r st in
  selectedNoteId st' = selectedNoteId st ∧ currentNote st' = currentNote st ∧
  searchQuery st' = searchQuery st ∧ searchResults st' = searchResults st ∧
  recentlySavedRef st' = recentlySavedRef st ∧ timers st' = timers st ∧
  nextHandle st' = nextHandle st ∧ requests st' = requests st ∧
  hasExternalChanges st' = hasExternalChanges st.
Proof. by destruct r, st. Qed.

Lemma refreshNotes_keeps st :
  let st' := fst (refreshNotes st) in
  selectedNoteId st' = selectedNoteId st ∧ currentNote st' = currentNote st ∧
  searchQuery st' = searchQuery st ∧ searchResults st' = searchResults st ∧
  recentlySavedRef st' = recentlySavedRef st ∧ timers st' = timers st ∧
  nextHandle st' = nextHandle st ∧
  hasExternalChanges st' = hasExternalChanges st ∧ error st' = error st.
Proof. unfold refreshNotes. by destruct (truthyOpt _), st. Qed.

(** A finished [createNote] or [duplicateNote] ran its last statements on
    a state that differs from the one the resumption found only by the list
    refresh and, when the service call has just resolved, by the mark. *)
Lemma create_resume_finished finish fallback f resp note st st' :
  create_resume finish fallback f resp st = Some (st', Finished) →
  frameNote f resp = Some note →
  ∃ st0, st' = finish note st0 ∧
    timers st0 = timers st ∧ nextHandle st0 = nextHandle st ∧
    hasExternalChanges st0 = hasExternalChanges st ∧
    searchQuery st0 = searchQuery st ∧ searchResults st0 = searchResults st ∧
    (∀ x, x ∈ recentlySavedRef st → x ∈ recentlySavedRef st0) ∧
    (f = CreateAwaitNote → Note.id note ∈ recentlySavedRef st0).
Proof.
  intros Hres Hnote. destruct f as [|note'], resp as [r|r]; try done.
  - destruct r as [n|]; [|done]. cbn in Hnote. simplify_eq.
    unfold create_resume in Hres.
    pose proof (refreshNotes_keeps (recentlySavedAdd (Note.id note) st))
      as (_ & _ & Hq & Hs & Hr & Ht & Hn & Hx & _).
    destruct (refreshNotes _) as [st2 [|]]; [done|]. cbn [fst] in *.
    simplify_eq. eexists. split; [done|]. rewrite Ht, Hn, Hx, Hr, Hq, Hs.
    destruct st. cbn. repeat split.
    + intros x Hx'. by apply elem_of_union_r.
    + intros _. apply elem_of_union_l. by apply elem_of_singleton.
  - cbn in Hnote. simplify_eq. cbn in Hres. simplify_eq.
    pose proof (refreshNotes_settled_keeps r st)
      as (_ & _ & Hq & Hs & Hr & Ht & Hn & _ & Hx).
    eexists. split; [done|]. by rewrite Ht, Hn, Hx, Hq, Hs, Hr.
Qed.

(** The release timer armed on [st0] with the next handle fires. *)
Lemma find_last_armed (h : positive) cb ms (l : list Timer) :
  (∀ t, t ∈ l → (handle t < h)%positive) →
  List.find (λ t, bool_decide (handle t = h)) (l ++ [mkTimer h ms cb]) =
    Some (mkTimer h ms cb) ∧
  filter (λ t, handle t ≠ h) (l ++ [mkTimer h ms cb]) = l.
Proof.
  intros Hfresh. split.
  - induction l as [|t l IH]; cbn.
    + by rewrite bool_decide_eq_true_2.
    + rewrite bool_decide_eq_false_2.
      * apply IH. intros t' Ht'. apply Hfresh. by right.
      * intros Heq. specialize (Hfresh t (list_elem_of_here _ _)). lia.
  - rewrite filter_app, filter_cons_False, filter_nil, app_nil_r
      by (by intros ?).
    apply filter_all, Forall_forall. intros t Ht' Heq.
    specialize (Hfresh t Ht'). lia.
Qed.

(** X10. When [createNote] reaches the end of its [try] block, immediately or
    after the list refresh settled (whichever way it settled): the created
    note is the current and the selected note, the search is cleared, the
    external-change flag is as it was, and one timer of 1000 ms was armed
    that, when it fires, removes the mark of the created note and nothing
    else. *)
Theorem createNote_shows_the_created_note f resp note st st' :
  createNote_resume f resp st = Some (st', Finished) →
  frameNote f resp = Some note →
  currentNote st' = Some note ∧
  selectedNoteId st' = Some (Note.id note) ∧
  searchQuery st' = "" ∧ searchResults st' = [] ∧
  hasExternalChanges st' = hasExternalChanges st ∧
  timers st' =
    timers st ++ [mkTimer (nextHandle st) 1000 (ReleaseCb (Note.id note) None)] ∧
  (f = CreateAwaitNote → Note.id note ∈ recentlySavedRef st') ∧
  (handlesFresh st →
   let released := fireTimer (nextHandle st) st' in
   snd released = false ∧
   timers (fst released) = timers st ∧
   recentlySavedRef (fst released) = recentlySavedRef st' ∖ {[Note.id note]} ∧
   currentNote (fst released) = Some note ∧
   selectedNoteId (fst released) = Some (Note.id note)).
Proof.
  intros Hres Hnote.
  destruct (create_resume_finished _ _ _ _ _ _ _ Hres Hnote)
    as (st0 & -> & Ht & Hn & Hx & _ & _ & _ & Hmark).
  assert (timers (createNote_finish note st0) =
          timers st ++ [mkTimer (nextHandle st) 1000
                          (ReleaseCb (Note.id note) None)]) as Htimers.
  { rewrite <- Ht, <- Hn. by destruct st0. }
  split; [by destruct st0|]. split; [by destruct st0|].
  split; [by destruct st0|]. split; [by destruct st0|].
  split; [rewrite <- Hx; by destruct st0|]. split; [done|].
  split; [intros Hf; specialize (Hmark Hf); by destruct st0|].
  intros Hfresh. cbn zeta. unfold fireTimer.
  destruct (find_last_armed (nextHandle st) (ReleaseCb (Note.id note) None)
              1000 (timers st) Hfresh) as [Hfind Hfilter].
  rewrite Htimers, Hfind.
  cbn [callback runCallback snd fst]. split; [done|].
  split.
  { assert (timers (recentlySavedDelete (Note.id note)
              (clearTimeout (nextHandle st) (createNote_finish note st0))) =
            filter (λ t, handle t ≠ nextHandle st)
              (timers (createNote_finish note st0))) as -> by by destruct st0.
    by rewrite Htimers. }
  by destruct st0.
Qed.

(** X11. When [duplicateNote] reaches the end of its [try] block: the copy is
    the current and the selected note and a release timer of 1000 ms was
    armed for it; unlike [createNote], the search query and the search
    results are left as they were. *)
Theorem duplicateNote_selects_the_copy_keeps_search f resp newNote st st' :
  duplicateNote_resume f resp st = Some (st', Finished) →
  frameNote f resp = Some newNote →
  currentNote st' = Some newNote ∧
  selectedNoteId st' = Some (Note.id newNote) ∧
  searchQuery st' = searchQuery st ∧ searchResults st' = searchResults st ∧
  hasExternalChanges st' = hasExternalChanges st ∧
  timers st' =
    timers st ++
    [mkTimer (nextHandle st) 1000 (ReleaseCb (Note.id newNote) None)] ∧
  (f = CreateAwaitNote → Note.id newNote ∈ recentlySavedRef st').
Proof.
  intros Hres Hnote.
  destruct (create_resume_finished _ _ _ _ _ _ _ Hres Hnote)
    as (st0 & -> & Ht & Hn & Hx & Hq & Hs & _ & Hmark).
  split; [by destruct st0|]. split; [by destruct st0|].
  split; [rewrite <- Hq; by destruct st0|].
  split; [rewrite <- Hs; by destruct st0|].
  split; [rewrite <- Hx; by destruct st0|].
  split; [rewrite <- Ht, <- Hn; by destruct st0|].
  intros Hf; specialize (Hmark Hf); by destruct st0.
Qed.

(** X12. The quiet window of a creation.  Once [createNote] or [duplicateNote]
    has finished with the mark of the new note still in place, a
    notification of the file watcher that names the new note changes nothing
    and asks for no list; after the release timer has fired, the same
    notification raises the external-change flag, the new note being the
    selected one (the provider having rendered since the creation, before or
    after the timer fired). *)
Theorem creation_echo_window f resp note st st' :
  createNote_resume f resp st = Some (st', Finished) ∨
  duplicateNote_resume f resp st = Some (st', Finished) →
  frameNote f resp = Some note →
  truthy (Note.id note) = true →
  Note.id note ∈ recentlySavedRef st' →
  handlesFresh st →
  onFileChange false (Some [Note.id note]) st' = (st', false) ∧
  (let released := fst (fireTimer (nextHandle st) (render st')) in
   hasExternalChanges
     (fst (onFileChange false (Some [Note.id note]) released)) = true) ∧
  (let released := render (fst (fireTimer (nextHandle st) st')) in
   hasExternalChanges
     (fst (onFileChange false (Some [Note.id note]) released)) = true).
Proof.
  intros Hres Hnote Htruthy Hmark Hfresh. split.
  { unfold onFileChange.
    change (default [] (Some [Note.id note])) with [Note.id note].
    rewrite filter_cons_False; [done|]. tauto. }
  assert (∃ st0 finish, st' = finish note st0 ∧
            timers st0 = timers st ∧ nextHandle st0 = nextHandle st ∧
            (finish = createNote_finish ∨ finish = duplicateNote_finish))
    as (st0 & finish & -> & Ht & Hn & Hfin).
  { destruct Hres as [Hres|Hres];
      destruct (create_resume_finished _ _ _ _ _ _ _ Hres Hnote)
        as (st0 & -> & Ht & Hn & _); eauto 10. }
  assert (timers (finish note st0) =
          timers st ++ [mkTimer (nextHandle st) 1000
                          (ReleaseCb (Note.id note) None)]) as Htimers.
  { rewrite <- Ht, <- Hn. by destruct Hfin as [-> | ->], st0. }
  destruct (find_last_armed (nextHandle st) (ReleaseCb (Note.id note) None)
              1000 (timers st) Hfresh) as [Hfind Hfilter].
  assert (∀ released,
            selectedNoteIdRef released = Some (Note.id note) →
            recentlySavedRef released =
              recentlySavedRef (finish note st0) ∖ {[Note.id note]} →
            hasExternalChanges
              (fst (onFileChange false (Some [Note.id note]) released)) = true)
    as Hraised.
  { intros released Hsel Hset. rewrite onFileChange_flag. cbn [negb andb].
    rewrite Hsel, Htruthy. cbn [andb]. apply orb_true_intro. right.
    apply bool_decide_eq_true. unfold externalIds.
    change (default [] (Some [Note.id note])) with [Note.id note].
    rewrite filter_cons_True; [left|].
    rewrite Hset, elem_of_difference, elem_of_singleton. tauto. }
  split; cbn zeta; apply Hraised.
  - unfold fireTimer.
    change (timers (render (finish note st0))) with (timers (finish note st0)).
    rewrite Htimers, Hfind. cbn [callback runCallback snd fst].
    by destruct Hfin as [-> | ->], st0.
  - unfold fireTimer.
    change (timers (render (finish note st0))) with (timers (finish note st0)).
    rewrite Htimers, Hfind. cbn [callback runCallback snd fst].
    by destruct Hfin as [-> | ->], st0.
  - unfold fireTimer. rewrite Htimers, Hfind.
    cbn [callback runCallback snd fst].
    by destruct Hfin as [-> | ->], st0.
  - unfold fireTimer. rewrite Htimers, Hfind.
    cbn [callback runCallback snd fst].
    by destruct Hfin as [-> | ->], st0.
Qed.

(** X13. A failed creation or duplication reports the failure and does
    nothing else: nothing is selected, no mark is left, no timer is armed
    and no request is sent. *)
Theorem creation_failure_only_reports f resp st st' :
  createNote_resume f resp st = Some (st', Failed) ∨
  duplicateNote_resume f resp st = Some (st', Failed) →
  (∃ msg, error st' = Some msg) ∧
  selectedNoteId st' = selectedNoteId st ∧ currentNote st' = currentNote st ∧
  recentlySavedRef st' = recentlySavedRef st ∧
  searchQuery st' = searchQuery st ∧
  timers st' = timers st ∧ requests st' = requests st.
Proof.
  unfold createNote_resume, duplicateNote_resume, create_resume.
  intros [Hres|Hres]; destruct f, resp as [[n|err]|r]; try done;
    try (destruct (refreshNotes _) as [? [|]]; done);
    simplify_eq; destruct st; cbn; eauto 10.
Qed.

End NotesActionsFacts.

(** ** The editor: switching, loading, reloading, unmounting, the source view *)

Module EditorScenesFacts.
Import Js JsFacts Editor EditorFacts EditorScenes.

Section WithCodec.

Context {codec : Codec}.

(** Reduces setters applied to a state given field by field. *)
Ltac norm_state :=
  cbv beta iota zeta delta
    [setCurrentNote setReloadVersion setEditorRef setIsSaving setSourceMode
     setSourceContent setSaveTimeoutRef setSourceTimeoutRef setIsLoadingRef
     setNeedsSaveRef setLoadedNoteIdRef setLoadedModifiedRef setLastSaveRef
     setLastReloadVersionRef setNow setTimers setNextHandle setFrames setTrace
     emit setContent assignNeedsSave
     currentNote reloadVersion editorRef isSaving sourceMode sourceContent
     saveTimeoutRef sourceTimeoutRef isLoadingRef needsSaveRef loadedNoteIdRef
     loadedModifiedRef lastSaveRef lastReloadVersionRef now timers nextHandle
     frames trace].

(** *** Switching to another note *)

Lemma loadContent_loadedDoc content st :
  loadContent content st = setContent (loadedDoc content) st.
Proof.
  unfold loadContent, loadedDoc. destruct hasManager; [|done].
  by destruct (parse content).
Qed.

(** What [flushPendingSave] leaves of the state, whichever way it goes. *)
Lemma flushPendingSave_frame st :
  let st' := flushPendingSave st in
  saveTimeoutRef st' = None ∧
  trace st' =
    trace st ++
    (if needsSaveRef st && bool_decide (is_Some (editorRef st))
        && from_option truthy false (loadedNoteIdRef st)
     then [NeedsSaveAssigned false; MarkdownComputed;
           SaveNoteCalled (getMarkdown (editorRef st))
             (loadedNoteIdRef st)]
     else []) ∧
  needsSaveRef st' =
    needsSaveRef st
    && negb (bool_decide (is_Some (editorRef st))
             && from_option truthy false (loadedNoteIdRef st)) ∧
  editorRef st' = editorRef st ∧ loadedNoteIdRef st' = loadedNoteIdRef st ∧
  currentNote st' = currentNote st ∧ isLoadingRef st' = isLoadingRef st ∧
  sourceTimeoutRef st' = sourceTimeoutRef st ∧
  sourceMode st' = sourceMode st ∧ frames st' = frames st ∧
  reloadVersion st' = reloadVersion st ∧
  lastReloadVersionRef st' = lastReloadVersionRef st ∧
  nextHandle st' = nextHandle st ∧ now st' = now st ∧
  timers st' =
    match saveTimeoutRef st with
    | Some h => filter (λ tm, handle tm ≠ h) (timers st)
    | None => timers st
    end.
Proof.
  cbn zeta. unfold flushPendingSave.
  destruct st as [cn rv ed sv sm sc sto srto il ns ln lm ls lrv nw tms nh fr tr].
  destruct sto as [h|]; cbn;
    destruct ed as [d|]; cbn; try (rewrite ?andb_false_r, ?app_nil_r; done);
    destruct ln as [loaded|]; cbn;
      try (rewrite ?andb_false_r, ?app_nil_r; done);
    destruct ns; cbn; try (rewrite ?app_nil_r; done);
    destruct (truthy loaded); cbn; rewrite ?app_nil_r, <- ?app_assoc; done.
Qed.

(** The effect on a genuine switch, stage by stage. *)
Lemma loadEffect_switch note d st :
  currentNote st = Some note → editorRef st = Some d →
  loadedNoteIdRef st ≠ Some (Note.id note) →
  isRenameEcho note st = false →
  loadEffect st =
  let st1 := if needsSaveRef st then flushPendingSave st else st in
  let st' := setSourceMode false st1 in
  let st2 :=
    match sourceTimeoutRef st' with
    | Some h => setSourceTimeoutRef None (clearTimeout h st')
    | None => st'
    end in
  let st5 :=
    setIsLoadingRef true
      (setLoadedModifiedRef (Some (Note.modified note))
         (setLoadedNoteIdRef (Some (Note.id note)) st2)) in
  let st8 :=
    emit ScrolledToTop
      (setContent (loadedDoc (Note.content note)) (emit Blurred st5)) in
  setFrames
    (frames st8 ++
       [mkFrame (Note.id note)
          (bool_decide (loadedNoteIdRef st = None)
           || bool_decide (trim (Note.content note) = ""))
          (Note.content note)]) st8.
Proof.
  intros Hn He Hl Hecho. unfold loadEffect. rewrite Hn, He, Hecho.
  rewrite (bool_decide_eq_false_2 (Some (Note.id note) = loadedNoteIdRef st))
    by congruence.
  cbn [negb andb]. cbn zeta.
  set (st1 := if needsSaveRef st then flushPendingSave st else st).
  assert (loadedNoteIdRef st1 = loadedNoteIdRef st) as Hl1.
  { unfold st1. destruct (needsSaveRef st); [|done].
    by destruct (flushPendingSave_frame st) as (_ & _ & _ & _ & -> & _). }
  set (st2 := match sourceTimeoutRef (setSourceMode false st1) with
              | Some h => setSourceTimeoutRef None
                            (clearTimeout h (setSourceMode false st1))
              | None => setSourceMode false st1
              end).
  assert (loadedNoteIdRef st2 = loadedNoteIdRef st) as Hl2.
  { rewrite <- Hl1. unfold st2.
    by destruct (sourceTimeoutRef (setSourceMode false st1)). }
  rewrite Hl2, loadContent_loadedDoc. f_equal. f_equal. f_equal.
  by destruct (bool_decide (loadedNoteIdRef st = None)).
Qed.

(** X14. A genuine switch to another note (not the echo of a rename).  If the
    buffer is dirty and a note is loaded, the old buffer is serialized and
    handed to [saveNote] under the id of the note that was loaded, and only
    then is the buffer replaced; the trace shows the order.  Afterwards the
    new note is the loaded one, the component is loading, the source view is
    closed and its pending save is cancelled, the save timer (when the buffer
    was dirty) is cancelled, and one animation frame is requested. *)
Theorem switch_saves_old_buffer_before_loading note d st :
  currentNote st = Some note → editorRef st = Some d →
  loadedNoteIdRef st ≠ Some (Note.id note) →
  isRenameEcho note st = false →
  let st' := loadEffect st in
  let flushed :=
    needsSaveRef st && from_option truthy false (loadedNoteIdRef st) in
  trace st' =
    trace st ++
    (if flushed
     then [NeedsSaveAssigned false; MarkdownComputed;
           SaveNoteCalled (getMarkdown (Some d)) (loadedNoteIdRef st)]
     else []) ++
    [Blurred; ContentSet (loadedDoc (Note.content note)); ScrolledToTop] ∧
  editorRef st' = Some (loadedDoc (Note.content note)) ∧
  loadedNoteIdRef st' = Some (Note.id note) ∧
  loadedModifiedRef st' = Some (Note.modified note) ∧
  needsSaveRef st' = (needsSaveRef st && negb flushed) ∧
  isLoadingRef st' = true ∧ sourceMode st' = false ∧
  sourceTimeoutRef st' = None ∧
  (needsSaveRef st = true → saveTimeoutRef st' = None) ∧
  (∀ tm, tm ∈ timers st' →
         tm ∈ timers st ∧ sourceTimeoutRef st ≠ Some (handle tm) ∧
         (needsSaveRef st = true → saveTimeoutRef st ≠ Some (handle tm))) ∧
  ∃ f, frames st' = frames st ++ [f] ∧ loadingNoteId f = Note.id note ∧
       noteContent f = Note.content note.
Proof.
  intros Hn He Hl Hecho. cbn zeta. rewrite (loadEffect_switch note d) by done.
  cbn zeta.
  set (st1 := if needsSaveRef st then flushPendingSave st else st).
  assert (trace st1 =
            trace st ++
            (if needsSaveRef st && from_option truthy false (loadedNoteIdRef st)
             then [NeedsSaveAssigned false; MarkdownComputed;
                   SaveNoteCalled (getMarkdown (Some d)) (loadedNoteIdRef st)]
             else []) ∧
          needsSaveRef st1 =
            (needsSaveRef st
             && negb (needsSaveRef st
                      && from_option truthy false (loadedNoteIdRef st))) ∧
          sourceTimeoutRef st1 = sourceTimeoutRef st ∧
          frames st1 = frames st ∧
          (needsSaveRef st = true → saveTimeoutRef st1 = None) ∧
          (∀ tm, tm ∈ timers st1 →
                 tm ∈ timers st ∧
                 (needsSaveRef st = true → saveTimeoutRef st ≠ Some (handle tm))))
    as (Htr & Hns & Hsrc & Hfr & Hsto & Htm).
  { unfold st1. destruct (needsSaveRef st) eqn:Hd.
    - destruct (flushPendingSave_frame st)
        as (Hto & Htr & Hns & _ & _ & _ & _ & Hsrc & _ & Hfr & _ & _ & _ & _ & Ht).
      rewrite Hd, He in Htr, Hns.
      rewrite (bool_decide_eq_true_2 (is_Some (Some d))) in Htr, Hns by eauto.
      cbn [andb] in Htr, Hns |- *.
      repeat split; try done.
      + rewrite Ht in H. destruct (saveTimeoutRef st); [|done].
        by apply list_elem_of_filter in H as [_ ?].
      + intros _. rewrite Ht in H. destruct (saveTimeoutRef st) as [h|]; [|done].
        apply list_elem_of_filter in H as [Hne _]. congruence.
    - cbn [andb]. rewrite app_nil_r. repeat split; done. }
  clearbody st1.
  assert (sourceTimeoutRef (setSourceMode false st1) = sourceTimeoutRef st)
    as -> by done.
  destruct st1 as [cn rv ed sv sm sc sto srto il ns ln lm ls lrv nw tms nh fr tr].
  cbn in Htr, Hns, Hsrc, Hfr, Hsto, Htm. subst tr ns fr.
  destruct (sourceTimeoutRef st) as [h|] eqn:Hsrc'; subst srto; cbn;
    rewrite <- !app_assoc; cbn.
  - split_and!; try done; [|eauto].
    intros tm [Hne Hin]%list_elem_of_filter. cbn in Hne.
    destruct (Htm tm Hin) as [? ?]. split_and!; [done| |done]. congruence.
  - split_and!; try done; [|eauto].
    intros tm Hin. destruct (Htm tm Hin) as [? ?]. done.
Qed.

(** *** The persist step and the mutations after it *)


(** *** The loading window *)

Lemma loadEffect_switch_shape note d st :
  currentNote st = Some note → editorRef st = Some d →
  loadedNoteIdRef st ≠ Some (Note.id note) →
  isRenameEcho note st = false →
  ∃ st2, frames st2 = frames st ∧
  loadEffect st =
  let st8 :=
    emit ScrolledToTop
      (setContent (loadedDoc (Note.content note))
         (emit Blurred
            (setIsLoadingRef true
               (setLoadedModifiedRef (Some (Note.modified note))
                  (setLoadedNoteIdRef (Some (Note.id note)) st2))))) in
  setFrames
    (frames st8 ++
       [mkFrame (Note.id note)
          (bool_decide (loadedNoteIdRef st = None)
           || bool_decide (trim (Note.content note) = ""))
          (Note.content note)]) st8.
Proof.
  intros Hn He Hl Hecho. rewrite (loadEffect_switch note d) by done.
  cbn zeta. eexists. split; [|reflexivity].
  assert (frames (if needsSaveRef st then flushPendingSave st else st) =
          frames st) as Hfr.
  { destruct (needsSaveRef st); [|done].
    by destruct (flushPendingSave_frame st)
      as (_ & _ & _ & _ & _ & _ & _ & _ & _ & -> & _). }
  revert Hfr. generalize (if needsSaveRef st then flushPendingSave st else st).
  intros st1 <-. by destruct (sourceTimeoutRef (setSourceMode false st1)).
Qed.

Lemma frameFired_own id flag content st :
  loadedNoteIdRef st = Some id →
  frameFired (mkFrame id flag content) st =
  let st2 := setIsLoadingRef false (emit ScrolledToTop st) in
  if flag && bool_decide (trim content = "")
  then emit FocusedAndSelectedAll st2 else st2.
Proof.
  intros Hl. unfold frameFired. cbn [loadingNoteId isNewNoteOrWasEmpty noteContent].
  by rewrite bool_decide_eq_false_2 by (by rewrite Hl; intros ?).
Qed.

(** X15. From a genuine switch until the animation frame it requested runs,
    the component is loading: an update of the editor in that window is
    recorded in the buffer but schedules no save and does not mark the buffer
    dirty.  A frame requested for another note does nothing.  The frame of
    this load ends the loading window, scrolls to the top, and focuses the
    editor exactly when the content of the note is blank, whether or not a
    note was loaded before. *)
Theorem loading_window_ends_with_own_frame note d st :
  currentNote st = Some note → editorRef st = Some d →
  loadedNoteIdRef st ≠ Some (Note.id note) →
  isRenameEcho note st = false →
  let st' := loadEffect st in
  ∃ f, frames st' = frames st ++ [f] ∧
    isLoadingRef st' = true ∧
    (∀ d', onUpdate d' st' = setEditorRef (Some d') st') ∧
    (∀ f0, loadingNoteId f0 ≠ Note.id note → frameFired f0 st' = st') ∧
    let st'' := frameFired f st' in
    isLoadingRef st'' = false ∧
    trace st'' =
      trace st' ++
      ScrolledToTop ::
      (if bool_decide (trim (Note.content note) = "")
       then [FocusedAndSelectedAll] else []) ∧
    editorRef st'' = editorRef st' ∧ needsSaveRef st'' = needsSaveRef st' ∧
    timers st'' = timers st' ∧ saveCalls st'' = saveCalls st'.
Proof.
  intros Hn He Hl Hecho. cbn zeta.
  destruct (loadEffect_switch_shape note d st) as (st2 & Hfr & ->); [done..|].
  destruct st2 as [cn rv ed sv sm sc sto srto il ns ln lm ls lrv nw tms nh fr tr].
  cbn in Hfr. subst fr. generalize (frames st). intros fr.
  generalize (bool_decide (loadedNoteIdRef st = None)). intros isNewNote.
  clear. cbn zeta.
  exists (mkFrame (Note.id note)
            (isNewNote || bool_decide (trim (Note.content note) = ""))
            (Note.content note)).
  rewrite frameFired_own by reflexivity.
  assert (∀ f0 st0, loadedNoteIdRef st0 = Some (Note.id note) →
            loadingNoteId f0 ≠ Note.id note → frameFired f0 st0 = st0) as Hstale.
  { intros f0 st0 Hl0 Hf0. unfold frameFired.
    rewrite bool_decide_eq_true_2; [reflexivity|]. rewrite Hl0. congruence. }
  generalize (bool_decide (trim (Note.content note) = "")). intros blank.
  unfold saveCalls, onUpdate.
  split; [by cbn|]. split; [by cbn|]. split; [by cbn|].
  split; [intros f0 Hf0; by apply Hstale|].
  destruct isNewNote, blank; cbn; rewrite <- !app_assoc, !omap_app; cbn;
    rewrite !app_nil_r; by split_and!.
Qed.

(** *** Manual reload *)

Lemma loadEffect_manual_reload note d st :
  currentNote st = Some note → editorRef st = Some d →
  loadedNoteIdRef st = Some (Note.id note) →
  reloadVersion st ≠ lastReloadVersionRef st →
  loadEffect st =
  setIsLoadingRef false
    (setContent (loadedDoc (Note.content note))
       (setIsLoadingRef true
          (setLoadedModifiedRef (Some (Note.modified note))
             (setLastReloadVersionRef (reloadVersion st) st)))).
Proof.
  intros Hn He Hl Hv. unfold loadEffect. rewrite Hn, He, Hl.
  rewrite (bool_decide_eq_true_2 (Some (Note.id note) = Some (Note.id note)))
    by done.
  cbn [negb andb]. rewrite bool_decide_eq_true_2 by done.
  by rewrite loadContent_loadedDoc.
Qed.

(** X16. A manual reload of the loaded note (the reload version differs from
    the one last seen): the buffer is replaced by the content of the note,
    nothing is saved or flushed, the dirty flag and the pending save timer
    are left as they are, and the load is over at once.  Running the effect
    again changes nothing.  A debounced save that was pending therefore
    persists, when it fires, the reloaded content. *)
Theorem manual_reload_replaces_buffer note d st :
  currentNote st = Some note → editorRef st = Some d →
  loadedNoteIdRef st = Some (Note.id note) →
  reloadVersion st ≠ lastReloadVersionRef st →
  let st' := loadEffect st in
  let loaded := loadedDoc (Note.content note) in
  trace st' = trace st ++ [ContentSet loaded] ∧
  editorRef st' = Some loaded ∧
  isLoadingRef st' = false ∧
  lastReloadVersionRef st' = reloadVersion st ∧
  loadedModifiedRef st' = Some (Note.modified note) ∧
  needsSaveRef st' = needsSaveRef st ∧ timers st' = timers st ∧
  saveTimeoutRef st' = saveTimeoutRef st ∧ saveCalls st' = saveCalls st ∧
  frames st' = frames st ∧
  loadEffect st' = st' ∧
  (needsSaveRef st = true →
   saveCalls (saveTimerFired (Note.id note) st') =
     saveCalls st ++ [(getMarkdown (Some loaded), Some (Note.id note))]).
Proof.
  intros Hn He Hl Hv. cbn zeta.
  rewrite (loadEffect_manual_reload note d) by done.
  destruct st as [cn rv ed sv sm sc sto srto il ns ln lm ls lrv nw tms nh fr tr].
  cbn in Hn, He, Hl, Hv. subst cn ed ln.
  split_and!; try (norm_state; reflexivity).
  - unfold saveCalls. norm_state. rewrite omap_app. cbn [omap].
    by rewrite app_nil_r.
  - norm_state.
    by rewrite (loadEffect_same_note _ note (loadedDoc (Note.content note))).
  - norm_state. intros ->. rewrite saveTimerFired_cases.
    cbn [currentNote needsSaveRef editorRef fmap option_fmap option_map].
    rewrite !bool_decide_eq_true_2 by eauto. cbn [andb].
    match goal with
    | |- context [persist ?id ?s] =>
        destruct (persist_frame id s) as (_ & _ & Hp & _)
    end.
    rewrite Hp. unfold saveCalls. norm_state.
    rewrite omap_app. cbn [omap]. by rewrite app_nil_r.
Qed.

(** *** Unmount *)

Lemma runTimers_no_timers fuel t st : timers st = [] → runTimers fuel t st = st.
Proof. intros Ht. destruct fuel; [done|]. cbn. by rewrite Ht. Qed.

(** X17. The cleanup on unmount: a dirty buffer is serialized and handed to
    [saveNote] once, without a note id, after the dirty flag is cleared; a
    clean buffer is not saved.  The pending save timer is cancelled, so that
    (when no other timer is live) no later save follows. *)
Theorem unmount_flushes_dirty_buffer_once d st :
  editorRef st = Some d →
  let st' := unmount st in
  trace st' =
    trace st ++
    (if needsSaveRef st
     then [NeedsSaveAssigned false; MarkdownComputed;
           SaveNoteCalled (unmountMarkdown d) None]
     else []) ∧
  saveCalls st' =
    saveCalls st ++
    (if needsSaveRef st then [(unmountMarkdown d, None)] else []) ∧
  needsSaveRef st' = false ∧
  (∀ tm, tm ∈ timers st' →
         tm ∈ timers st ∧ saveTimeoutRef st ≠ Some (handle tm)) ∧
  (ownsTimers st → ∀ t, saveCalls (advanceTo t st') = saveCalls st').
Proof.
  intros He. cbn zeta.
  assert (∀ st0, editorRef st0 = Some d →
            let st' := if needsSaveRef st0
                       then emit (SaveNoteCalled (unmountMarkdown d) None)
                              (emit MarkdownComputed (assignNeedsSave false st0))
                       else st0 in
            trace st' =
              trace st0 ++
              (if needsSaveRef st0
               then [NeedsSaveAssigned false; MarkdownComputed;
                     SaveNoteCalled (unmountMarkdown d) None]
               else []) ∧
            saveCalls st' =
              saveCalls st0 ++
              (if needsSaveRef st0 then [(unmountMarkdown d, None)] else []) ∧
            needsSaveRef st' = false ∧ timers st' = timers st0) as Hbody.
  { intros st0 _.
    destruct st0
      as [cn rv ed sv sm sc sto srto il ns ln lm ls lrv nw tms nh fr tr].
    unfold saveCalls.
    destruct ns; cbn; rewrite ?omap_app, ?app_nil_r, <- ?app_assoc; cbn;
      rewrite ?app_nil_r; by split_and!. }
  assert (unmount st =
          let st1 := match saveTimeoutRef st with
                     | Some h => clearTimeout h st
                     | None => st
                     end in
          if needsSaveRef st1
          then emit (SaveNoteCalled (unmountMarkdown d) None)
                 (emit MarkdownComputed (assignNeedsSave false st1))
          else st1) as ->.
  { unfold unmount.
    assert (editorRef match saveTimeoutRef st with
                      | Some h => clearTimeout h st
                      | None => st
                      end = Some d) as ->; [|done].
    by destruct (saveTimeoutRef st). }
  cbn zeta.
  set (st1 := match saveTimeoutRef st with
              | Some h => clearTimeout h st
              | None => st
              end).
  assert (editorRef st1 = Some d ∧ trace st1 = trace st ∧
          needsSaveRef st1 = needsSaveRef st ∧
          timers st1 = match saveTimeoutRef st with
                       | Some h => filter (λ tm, handle tm ≠ h) (timers st)
                       | None => timers st
                       end) as (He1 & Ht1 & Hd1 & Htm1).
  { unfold st1. by destruct (saveTimeoutRef st). }
  clearbody st1. destruct (Hbody st1 He1) as (Htr & Hc & Hns & Htm).
  assert (saveCalls st1 = saveCalls st) as Hc1
    by (unfold saveCalls; by rewrite Ht1).
  revert Htr Hc Hns Htm.
  generalize (if needsSaveRef st1
              then emit (SaveNoteCalled (unmountMarkdown d) None)
                     (emit MarkdownComputed (assignNeedsSave false st1))
              else st1).
  intros st' Htr Hc Hns Htm.
  rewrite Ht1, Hd1 in Htr. rewrite Hc1, Hd1 in Hc. rewrite Htm1 in Htm.
  split_and!; try done.
  - intros tm. rewrite Htm. destruct (saveTimeoutRef st) as [h|].
    + intros [Hne Hin]%list_elem_of_filter. split; [done|]. congruence.
    + done.
  - intros Hown t. assert (timers st' = []) as Hnil.
    { rewrite Htm. destruct (saveTimeoutRef st) as [h|] eqn:Hh.
      - apply elem_of_nil_inv. intros tm [Hne Hin]%list_elem_of_filter.
        apply Hown in Hin. congruence.
      - by apply ownsTimers_none. }
    unfold advanceTo. rewrite runTimers_no_timers by done.
    by destruct (setNow_frame (Nat.max (now st') t) st') as (-> & _).
Qed.

(** *** The source view *)

Lemma handleSourceChange_arms value st :
  ownsSourceTimers st →
  sourceArmed (currentNote st) value (saveCalls st)
    (handleSourceChange value st).
Proof.
  intros Hown. unfold handleSourceChange.
  assert (timers match sourceTimeoutRef (setSourceContent value st) with
                 | Some h => clearTimeout h (setSourceContent value st)
                 | None => setSourceContent value st
                 end = []) as Hnil.
  { apply elem_of_nil_inv. intros tm.
    change (sourceTimeoutRef (setSourceContent value st))
      with (sourceTimeoutRef st).
    destruct (sourceTimeoutRef st) as [h|] eqn:Hh.
    - cbn. intros [Hne Hin]%list_elem_of_filter. apply Hown in Hin. congruence.
    - cbn. intros Hin. apply Hown in Hin. congruence. }
  assert (∀ st2, timers st2 = [] →
            sourceArmed (currentNote st2) (sourceContent st2) (saveCalls st2)
              (let (h, st3) :=
                 setTimeout (SourceCb (sourceContent st2) (currentNote st2))
                   300 st2 in
               setSourceTimeoutRef (Some h) st3)) as Harm.
  { intros st2 Ht. unfold sourceArmed, setTimeout. cbn. rewrite Ht.
    split_and!; try done. eauto. }
  revert Hnil.
  assert (∀ st2, currentNote st2 = currentNote st → sourceContent st2 = value →
                 saveCalls st2 = saveCalls st → timers st2 = [] →
            sourceArmed (currentNote st) value (saveCalls st)
              (let (h, st3) :=
                 setTimeout (SourceCb value (currentNote st2)) 300 st2 in
               setSourceTimeoutRef (Some h) st3)) as Hgen.
  { intros st2 <- <- <- Ht. by apply Harm. }
  intros Hnil. apply Hgen; try done;
    change (sourceTimeoutRef (setSourceContent value st))
      with (sourceTimeoutRef st); by destruct (sourceTimeoutRef st).
Qed.

Lemma advanceTo_sourceArmed_idle note value calls st gap :
  sourceArmed note value calls st → gap < 300 →
  advanceTo (now st + gap) st = setNow (now st + gap) st.
Proof.
  intros (_ & _ & _ & h & _ & Ht) Hgap. unfold advanceTo.
  rewrite Ht. cbn [List.length runTimers]. rewrite Ht. cbn [nextDue deadline].
  rewrite (proj2 (Nat.leb_gt _ _)) by lia.
  f_equal. lia.
Qed.

Lemma step_sourceArmed note value value' calls st gap :
  sourceArmed note value calls st → gap < 300 →
  sourceArmed note value' calls
    (handleSourceChange value' (advanceTo (now st + gap) st)).
Proof.
  intros Ha Hgap. rewrite (advanceTo_sourceArmed_idle note value calls) by done.
  destruct Ha as (Hn & Hv & Hc & h & Hh & Ht).
  replace calls with (saveCalls (setNow (now st + gap) st)) by done.
  replace note with (currentNote (setNow (now st + gap) st)) by done.
  apply handleSourceChange_arms.
  intros tm. cbn. rewrite Ht, Hh. by intros ->%list_elem_of_singleton.
Qed.

Lemma sourceEdits_armed note value calls vs st :
  sourceArmed note value calls st → Forall (λ m, fst m < 300) vs →
  sourceArmed note (lastValue value vs) calls (sourceEdits vs st).
Proof.
  revert value st. induction vs as [|[gap v'] vs IH]; intros value st Ha Hvs.
  { done. }
  apply Forall_cons in Hvs as [Hgap Hvs]. cbn [sourceEdits].
  unfold lastValue. rewrite fmap_cons, last_cons_default.
  apply IH; [|done]. by eapply step_sourceArmed.
Qed.

Lemma advanceTo_single_source st h dl value note t :
  timers st = [mkTimer h dl (SourceCb value note)] → dl ≤ t →
  let st' := advanceTo t st in
  saveCalls st' =
    saveCalls st ++ match note with
                    | Some n => [(value, Some (Note.id n))]
                    | None => []
                    end ∧
  timers st' = [] ∧ sourceContent st' = sourceContent st ∧
  loadedNoteIdRef st' = loadedNoteIdRef st ∧
  (∀ n, note = Some n → lastSaveRef st' = Some (Note.id n, value)).
Proof.
  intros Ht Hq. cbn zeta.
  unfold advanceTo. rewrite Ht. cbn [List.length runTimers]. rewrite Ht.
  cbn [nextDue deadline]. rewrite (proj2 (Nat.leb_le _ _)) by lia.
  unfold fire. cbn [callback handle deadline runCallback].
  assert (∀ s1, timers s1 = [] →
            let p := sourceTimerFired value note s1 in
            saveCalls p =
              saveCalls s1 ++ match note with
                              | Some n => [(value, Some (Note.id n))]
                              | None => []
                              end ∧
            timers p = [] ∧ sourceContent p = sourceContent s1 ∧
            loadedNoteIdRef p = loadedNoteIdRef s1 ∧
            (∀ n, note = Some n → lastSaveRef p = Some (Note.id n, value)))
    as Hfire.
  { intros s1 E1. cbn zeta. unfold sourceTimerFired.
    destruct note as [n|].
    - split_and!; try done.
      + unfold saveCalls in *. cbn. by rewrite omap_app.
      + by intros ? [= ->].
    - rewrite app_nil_r. done. }
  assert (timers (clearTimeout h (setNow (Nat.max (now st) dl) st)) = []) as E1.
  { unfold clearTimeout. cbn [timers setTimers setNow].
    rewrite Ht, filter_cons. cbn [handle].
    by rewrite decide_False by (by intros ?). }
  assert (sourceContent (clearTimeout h (setNow (Nat.max (now st) dl) st))
          = sourceContent st) as E2 by done.
  assert (saveCalls (clearTimeout h (setNow (Nat.max (now st) dl) st))
          = saveCalls st) as E3 by done.
  assert (loadedNoteIdRef (clearTimeout h (setNow (Nat.max (now st) dl) st))
          = loadedNoteIdRef st) as E4 by done.
  revert E1 E2 E3 E4.
  generalize (clearTimeout h (setNow (Nat.max (now st) dl) st)).
  intros s1 E1 E2 E3 E4. destruct (Hfire s1 E1) as (Hc' & Ht' & Hv' & Hi' & Hl').
  rewrite E2 in Hv'. rewrite E3 in Hc'. rewrite E4 in Hi'.
  revert Hc' Ht' Hv' Hi' Hl'. generalize (sourceTimerFired value note s1).
  intros p Hc' Ht' Hv' Hi' Hl'. by split_and!.
Qed.

Lemma advanceTo_sourceArmed_fires note value calls st quiet :
  sourceArmed note value calls st → 300 ≤ quiet →
  let st' := advanceTo (now st + quiet) st in
  saveCalls st' =
    calls ++ match note with
             | Some n => [(value, Some (Note.id n))]
             | None => []
             end ∧
  timers st' = [] ∧ sourceContent st' = value ∧
  (∀ n, note = Some n → lastSaveRef st' = Some (Note.id n, value)).
Proof.
  intros (Hn & Hv & Hc & h & Hh & Ht) Hq.
  destruct (advanceTo_single_source st h _ value note (now st + quiet) Ht)
    as (Hc' & Ht' & Hv' & _ & Hl'); [lia|].
  rewrite Hc in Hc'. rewrite Hv in Hv'. by split_and!.
Qed.

(** X18. Edits of the source view are debounced: a burst of edits less than
    300 ms apart makes no save call while it lasts, and 300 ms or more after
    the last edit exactly one call [saveNote(value, id)] has been made, with
    the last text and the id of the current note. *)
Theorem source_burst_is_saved_once st note v0 vs quiet :
  currentNote st = Some note → ownsSourceTimers st →
  Forall (λ m, fst m < 300) vs → 300 ≤ quiet →
  let st1 := sourceBurst v0 vs st in
  let st2 := advanceTo (now st1 + quiet) st1 in
  saveCalls st1 = saveCalls st ∧
  sourceContent st1 = lastValue v0 vs ∧
  saveCalls st2 = saveCalls st ++ [(lastValue v0 vs, Some (Note.id note))] ∧
  lastSaveRef st2 = Some (Note.id note, lastValue v0 vs) ∧
  timers st2 = [].
Proof.
  intros Hn Hown Hvs Hq st1 st2.
  assert (sourceArmed (Some note) (lastValue v0 vs) (saveCalls st) st1) as Ha.
  { apply sourceEdits_armed; [|done]. rewrite <- Hn.
    by apply handleSourceChange_arms. }
  split; [apply Ha|]. split; [apply Ha|].
  pose proof (advanceTo_sourceArmed_fires _ _ _ _ quiet Ha Hq)
    as (? & ? & ? & Hl).
  split_and!; try done. by apply Hl.
Qed.

(** X19. The echo of a rename, arriving while an edit of the source view is
    waiting for its 300 ms: unlike a genuine switch, the echo leaves the
    source view open and its timer live, and when the timer fires the text is
    handed to [saveNote] under the id of the note the edit was made on (the
    one its callback closed over), although the loaded note has the new id
    by then. *)
Theorem rename_echo_keeps_pending_source_save
  st note d loaded h dl value old t :
  currentNote st = Some note → editorRef st = Some d →
  loadedNoteIdRef st = Some loaded → Note.id note ≠ loaded →
  lastSaveRef st = Some (loaded, Note.content note) →
  needsSaveRef st = false →
  timers st = [mkTimer h dl (SourceCb value (Some old))] →
  dl ≤ t →
  let st' := loadEffect st in
  let st'' := advanceTo t st' in
  timers st' = timers st ∧ sourceTimeoutRef st' = sourceTimeoutRef st ∧
  sourceMode st' = sourceMode st ∧ sourceContent st' = sourceContent st ∧
  loadedNoteIdRef st' = Some (Note.id note) ∧
  saveCalls st' = saveCalls st ∧
  saveCalls st'' = saveCalls st ++ [(value, Some (Note.id old))] ∧
  lastSaveRef st'' = Some (Note.id old, value) ∧
  loadedNoteIdRef st'' = Some (Note.id note) ∧
  timers st'' = [].
Proof.
  intros Hn He Hl Hne Hls Hd Ht Hdl. cbn zeta.
  rewrite (loadEffect_rename_echo st note d loaded) by done. rewrite Hd.
  assert (timers (adopted note st) = timers st ∧
          sourceTimeoutRef (adopted note st) = sourceTimeoutRef st ∧
          sourceMode (adopted note st) = sourceMode st ∧
          sourceContent (adopted note st) = sourceContent st ∧
          loadedNoteIdRef (adopted note st) = Some (Note.id note) ∧
          saveCalls (adopted note st) = saveCalls st)
    as (Ht' & Hsrc & Hsm & Hsc & Hl' & Hc') by done.
  revert Ht' Hsrc Hsm Hsc Hl' Hc'. generalize (adopted note st).
  intros st' Ht' Hsrc Hsm Hsc Hl' Hc'. rewrite Ht in Ht'.
  destruct (advanceTo_single_source st' h dl value (Some old) t Ht' Hdl)
    as (Hc'' & Ht'' & _ & Hl'' & Hls'').
  rewrite Hc' in Hc''. rewrite Hl' in Hl''.
  pose proof (Hls'' old eq_refl). rewrite Ht. by split_and!.
Qed.

End WithCodec.

End EditorScenesFacts.

(** ** Reloading, from the controller to the editor *)

Module EngineScenesFacts.

Import Js JsFacts.

(** X20. A reload of the current note, end to end.  The editor shows a note
    and is in step with the controller's reload version.  When the read
    resolves, the controller clears the external-change flag and increments
    the reload version, and the render that follows replaces the buffer by
    the content read, without any save call.  When the read is rejected,
    the controller only records the failure: the flag and the reload version
    stay, and the render that follows leaves the buffer alone. *)
Theorem reload_reaches_the_editor {codec : Codec}
  (cst : NotesContext.State) (est : Editor.State) shown note d err :
  NotesContext.currentNote cst = Some shown →
  Editor.currentNote est = Some shown →
  Editor.editorRef est = Some d →
  Editor.loadedNoteIdRef est = Some (Note.id shown) →
  Editor.reloadVersion est = NotesContext.reloadVersion cst →
  Editor.lastReloadVersionRef est = NotesContext.reloadVersion cst →
  Note.id note = Note.id shown →
  (let cst' := NotesContext.reloadCurrentNote_settled (Resolved note) cst in
   let est' := Editor.render (NotesContext.currentNote cst')
                 (NotesContext.reloadVersion cst') est in
   NotesContext.hasExternalChanges cst' = false ∧
   NotesContext.currentNote cst' = Some note ∧
   NotesContext.reloadVersion cst' = S (NotesContext.reloadVersion cst) ∧
   NotesContext.requests cst' = NotesContext.requests cst ∧
   Editor.editorRef est' = Some (EditorScenes.loadedDoc (Note.content note)) ∧
   Editor.trace est' =
     Editor.trace est ++
     [Editor.ContentSet (EditorScenes.loadedDoc (Note.content note))] ∧
   Editor.needsSaveRef est' = Editor.needsSaveRef est ∧
   Editor.timers est' = Editor.timers est) ∧
  (let cst' := NotesContext.reloadCurrentNote_settled (Rejected err) cst in
   let est' := Editor.render (NotesContext.currentNote cst')
                 (NotesContext.reloadVersion cst') est in
   NotesContext.hasExternalChanges cst' = NotesContext.hasExternalChanges cst ∧
   NotesContext.reloadVersion cst' = NotesContext.reloadVersion cst ∧
   NotesContext.error cst' = Some (messageOr err "Failed to reload note") ∧
   Editor.editorRef est' = Some d ∧
   Editor.trace est' = Editor.trace est).
Proof.
  intros Hc Hn He Hl Hv Hlv Hid. split.
  - cbn zeta.
    assert (NotesContext.currentNote
              (NotesContext.reloadCurrentNote_settled (Resolved note) cst)
            = Some note) as -> by done.
    assert (NotesContext.reloadVersion
              (NotesContext.reloadCurrentNote_settled (Resolved note) cst)
            = NotesContext.reloadVersion cst + 1) as -> by done.
    split; [done|]. split; [done|]. split; [lia|]. split; [done|].
    unfold Editor.render.
    rewrite (EditorScenesFacts.loadEffect_manual_reload note d);
      [ | done | done | cbn; by rewrite Hl, Hid | cbn; lia ].
    destruct est. cbn. by split_and!.
  - cbn zeta.
    assert (NotesContext.currentNote
              (NotesContext.reloadCurrentNote_settled (Rejected err) cst)
            = Some shown) as -> by done.
    assert (NotesContext.reloadVersion
              (NotesContext.reloadCurrentNote_settled (Rejected err) cst)
            = NotesContext.reloadVersion cst) as -> by done.
    split; [done|]. split; [done|]. split; [done|].
    unfold Editor.render.
    rewrite (EditorFacts.loadEffect_same_note _ shown d);
      [ | done | done | done | cbn; congruence ].
    destruct est. cbn in *. by split_and!.
Qed.

End EngineScenesFacts.

(** ** Arrow-key navigation of the note list *)

Module AppKeysFacts.
Import Js JsFacts NotesContext AppKeys.

Local Open Scope Z_scope.

Lemma findIndexFrom_spec i selected items :
  (∀ id, selected = Some id → id ∉ items) ∧
    findIndexFrom i selected items = -1 ∨
  ∃ id k, selected = Some id ∧ items !! k = Some id ∧
    (∀ j, (j < k)%nat → items !! j ≠ Some id) ∧
    findIndexFrom i selected items = i + Z.of_nat k.
Proof.
  revert i. induction items as [|x items IH]; intros i.
  { left. split; [|done]. intros id _. apply not_elem_of_nil. }
  cbn [findIndexFrom]. case_decide as Hx.
  - right. exists x, 0%nat. split; [done|]. split; [done|].
    split; [lia|]. lia.
  - destruct (IH (i + 1)) as [[Hnot ->]|(id & k & -> & Hk & Hfirst & ->)].
    + left. split; [|done]. intros id ->. rewrite not_elem_of_cons.
      split; [congruence|]. by apply Hnot.
    + right. exists id, (S k). split; [done|]. split; [done|]. split; [|lia].
      intros [|j] Hj; cbn; [congruence|]. apply Hfirst. lia.
Qed.

Lemma findIndex_range selected items :
  -1 ≤ findIndex selected items < Z.of_nat (List.length items).
Proof.
  unfold findIndex.
  destruct (findIndexFrom_spec 0 selected items)
    as [[_ ->]|(id & k & _ & Hk & _ & ->)]; [lia|].
  apply lookup_lt_Some in Hk. lia.
Qed.

Lemma findIndex_NoDup items k id :
  NoDup items → items !! k = Some id →
  findIndex (Some id) items = Z.of_nat k.
Proof.
  intros Hnd Hk. unfold findIndex.
  destruct (findIndexFrom_spec 0 (Some id) items)
    as [[Hnot _]|(id' & k' & [= <-] & Hk' & _ & ->)].
  - exfalso. apply (Hnot id eq_refl). by eapply list_elem_of_lookup_2.
  - by rewrite (NoDup_lookup _ _ _ _ Hnd Hk' Hk).
Qed.

Lemma itemAt_nat items (k : nat) : itemAt items (Z.of_nat k) = items !! k.
Proof.
  unfold itemAt. rewrite (proj2 (Z.ltb_ge _ _)) by lia. by rewrite Nat2Z.id.
Qed.

Lemma selectNote_displayItems id st :
  displayItems (selectNote id st) = displayItems st ∧
  selectedNoteId (selectNote id st) = Some id.
Proof. by destruct st. Qed.

(** X23. An arrow key pressed over a list that is not empty never fails: it
    calls [selectNote] with the id of an item of the list.  When the selected
    note is not in the list (or nothing is selected), the down key selects
    the first item and the up key the last one; from the last item the down
    key wraps to the first, and from the first the up key wraps to the
    last. *)
Theorem arrow_key_selects_an_item_of_the_list key st :
  displayItems st ≠ [] →
  let items := displayItems st in
  let len := List.length items in
  ∃ id, handleArrow key st = Resolved (selectNote id st) ∧
    id ∈ items ∧
    ((∀ s, selectedNoteId st = Some s → s ∉ items) →
     Some id = match key with
               | ArrowDown => items !! 0%nat
               | ArrowUp => items !! (len - 1)%nat
               end) ∧
    (∀ k s, selectedNoteId st = Some s → items !! k = Some s →
            (∀ j, (j < k)%nat → items !! j ≠ Some s) →
            Some id = match key with
                      | ArrowDown =>
                          items !! (if decide (k = len - 1)%nat
                                    then 0 else k + 1)%nat
                      | ArrowUp =>
                          items !! (if decide (k = 0)%nat
                                    then len - 1 else k - 1)%nat
                      end).
Proof.
  intros Hne. cbn zeta. unfold handleArrow, arrowTarget.
  set (items := displayItems st) in *.
  assert (0 < List.length items)%nat as Hlen.
  { destruct items; [done|]. cbn. lia. }
  destruct (findIndexFrom_spec 0 (selectedNoteId st) items)
    as [[Hnot Hidx]|(s & k & Hsel & Hk & Hfirst & Hidx)];
    fold (findIndex (selectedNoteId st) items) in Hidx.
  - (* the selection is not in the list *)
    assert (∃ n : nat,
              newIndex key (findIndex (selectedNoteId st) items)
                (Z.of_nat (List.length items)) = Z.of_nat n ∧
              n = match key with
                  | ArrowDown => 0%nat
                  | ArrowUp => (List.length items - 1)%nat
                  end) as (n & -> & Hn).
    { rewrite Hidx. destruct key; cbn [newIndex].
      - rewrite (proj2 (Z.ltb_lt _ _)) by lia. by exists 0%nat.
      - rewrite (proj2 (Z.ltb_ge _ _)) by lia.
        exists (List.length items - 1)%nat. split; [lia|done]. }
    rewrite itemAt_nat.
    destruct (lookup_lt_is_Some_2 items n) as [id Hid].
    { subst n. destruct key; lia. }
    rewrite Hid. exists id. destruct items as [|x l] eqn:E; [done|].
    rewrite <- E in *. split; [done|].
    split; [by eapply list_elem_of_lookup_2|]. split.
    + intros _. rewrite <- Hid, Hn. by destruct key.
    + intros k s Hs Hk. exfalso. apply (Hnot s Hs).
      by eapply list_elem_of_lookup_2.
  - (* the selection is the item at [k] *)
    pose proof (lookup_lt_Some _ _ _ Hk) as Hklt.
    assert (∃ n : nat,
              newIndex key (findIndex (selectedNoteId st) items)
                (Z.of_nat (List.length items)) = Z.of_nat n ∧
              n = match key with
                  | ArrowDown =>
                      if decide (k = List.length items - 1)%nat
                      then 0%nat else (k + 1)%nat
                  | ArrowUp =>
                      if decide (k = 0)%nat
                      then (List.length items - 1)%nat else (k - 1)%nat
                  end) as (n & -> & Hn).
    { rewrite Hidx. destruct key; cbn [newIndex].
      - case_decide.
        + rewrite (proj2 (Z.ltb_ge _ _)) by lia. by exists 0%nat.
        + rewrite (proj2 (Z.ltb_lt _ _)) by lia. exists (k + 1)%nat.
          split; [lia|done].
      - case_decide.
        + rewrite (proj2 (Z.ltb_ge _ _)) by lia.
          exists (List.length items - 1)%nat. split; [lia|done].
        + rewrite (proj2 (Z.ltb_lt _ _)) by lia. exists (k - 1)%nat.
          split; [lia|done]. }
    rewrite itemAt_nat.
    destruct (lookup_lt_is_Some_2 items n) as [id Hid].
    { subst n. destruct key; case_decide; lia. }
    rewrite Hid. exists id. destruct items as [|x l] eqn:E; [done|].
    rewrite <- E in *. split; [done|].
    split; [by eapply list_elem_of_lookup_2|]. split.
    + intros Hnot. exfalso. apply (Hnot s Hsel).
      by eapply list_elem_of_lookup_2.
    + intros k' s' Hs' Hk' Hfirst'. rewrite Hsel in Hs'. simplify_eq.
      assert (k' = k) as ->.
      { destruct (Nat.lt_trichotomy k' k) as [Hlt|[->|Hlt]]; [|done|].
        - by destruct (Hfirst k' Hlt).
        - by destruct (Hfirst' k Hlt). }
      rewrite <- Hid. by destruct key.
Qed.

(** X24. In a list without repeated ids, with the selected note in the list:
    the up key undoes the down key and the down key undoes the up key. *)
Theorem arrow_keys_undo_each_other st id :
  NoDup (displayItems st) → selectedNoteId st = Some id →
  id ∈ displayItems st →
  (∀ k1 k2, k1 ≠ k2 →
     ∃ id', arrowTarget k1 st = Some id' ∧
            arrowTarget k2 (selectNote id' st) = Some id).
Proof.
  intros Hnd Hsel Hin k1 k2 Hkeys. unfold arrowTarget.
  destruct (selectNote_displayItems id st) as [_ _].
  set (items := displayItems st) in *.
  apply list_elem_of_lookup_1 in Hin as [k Hk].
  pose proof (lookup_lt_Some _ _ _ Hk) as Hklt.
  rewrite Hsel, (findIndex_NoDup items k id Hnd Hk).
  assert (∃ n : nat,
            newIndex k1 (Z.of_nat k) (Z.of_nat (List.length items))
              = Z.of_nat n ∧ (n < List.length items)%nat ∧
            newIndex k2 (Z.of_nat n) (Z.of_nat (List.length items))
              = Z.of_nat k) as (n & -> & Hn & Hback).
  { destruct k1, k2; try done; cbn [newIndex].
    - destruct (decide (k = List.length items - 1)%nat).
      + rewrite (proj2 (Z.ltb_ge _ _)) by lia. exists 0%nat.
        split; [done|]. split; [lia|].
        rewrite (proj2 (Z.ltb_ge _ _)) by lia. lia.
      + rewrite (proj2 (Z.ltb_lt _ _)) by lia. exists (k + 1)%nat.
        split; [lia|]. split; [lia|].
        rewrite (proj2 (Z.ltb_lt _ _)) by lia. lia.
    - destruct (decide (k = 0)%nat).
      + rewrite (proj2 (Z.ltb_ge _ _)) by lia.
        exists (List.length items - 1)%nat.
        split; [lia|]. split; [lia|].
        rewrite (proj2 (Z.ltb_ge _ _)) by lia. lia.
      + rewrite (proj2 (Z.ltb_lt _ _)) by lia. exists (k - 1)%nat.
        split; [lia|]. split; [lia|].
        rewrite (proj2 (Z.ltb_lt _ _)) by lia. lia. }
  rewrite itemAt_nat.
  destruct (lookup_lt_is_Some_2 items n Hn) as [id' Hid'].
  exists id'. split; [done|].
  destruct (selectNote_displayItems id' st) as [-> ->]. fold items.
  rewrite (findIndex_NoDup items n id' Hnd Hid'), Hback.
  by rewrite itemAt_nat.
Qed.

End AppKeysFacts.

(** ** Navigation between the matches of the in-note search *)

Module EditorSearchFacts.
Import EditorSearch.

Local Open Scope Z_scope.

Lemma next_index c len :
  0 ≤ c < len → Z.rem (c + 1) len = if decide (c = len - 1) then 0 else c + 1.
Proof.
  intros Hc. rewrite Z.rem_mod_nonneg by lia. case_decide.
  - subst c. replace (len - 1 + 1) with len by lia. apply Z_mod_same_full.
  - apply Z.mod_small. lia.
Qed.

Lemma previous_index c len :
  0 ≤ c < len →
  Z.rem (c - 1 + len) len = if decide (c = 0) then len - 1 else c - 1.
Proof.
  intros Hc. rewrite Z.rem_mod_nonneg by lia. case_decide.
  - subst c. replace (0 - 1 + len) with (len - 1) by lia.
    apply Z.mod_small. lia.
  - replace (c - 1 + len) with (c - 1 + 1 * len) by lia.
    rewrite Z.mod_add by lia. apply Z.mod_small. lia.
Qed.

Lemma goToNextMatch_iter j matches c :
  let len := Z.of_nat (List.length matches) in
  0 ≤ c < len →
  Nat.iter j goToNextMatch (mkState matches c) =
  mkState matches ((c + Z.of_nat j) mod len).
Proof.
  intros len Hc. induction j as [|j IH].
  { rewrite Z.add_0_r, Z.mod_small by lia. done. }
  rewrite Nat.iter_succ, IH. unfold goToNextMatch.
  cbn [searchMatches currentMatchIndex]. fold len.
  rewrite (proj2 (Z.eqb_neq _ _)) by lia. f_equal.
  rewrite Z.rem_mod_nonneg; [|pose proof (Z.mod_pos_bound (c + Z.of_nat j) len); lia|lia].
  rewrite Zplus_mod_idemp_l. f_equal. lia.
Qed.

(** X22. Navigation between the matches of the in-note search.  With the
    index in range, [goToNextMatch] and [goToPreviousMatch] keep it in range,
    so there is always an active match; each undoes the other; the last match
    is followed by the first and the first preceded by the last; and as many
    steps forward as there are matches lead back to the start.  Storing a
    list of matches that is not empty puts the index in range. *)
Theorem match_navigation_cycles st :
  let len := Z.of_nat (List.length (searchMatches st)) in
  0 ≤ currentMatchIndex st < len →
  (0 ≤ currentMatchIndex (goToNextMatch st) < len ∧
   0 ≤ currentMatchIndex (goToPreviousMatch st) < len) ∧
  (is_Some (activeMatch (goToNextMatch st)) ∧
   is_Some (activeMatch (goToPreviousMatch st))) ∧
  goToPreviousMatch (goToNextMatch st) = st ∧
  goToNextMatch (goToPreviousMatch st) = st ∧
  (currentMatchIndex st = len - 1 →
   currentMatchIndex (goToNextMatch st) = 0) ∧
  (currentMatchIndex st = 0 →
   currentMatchIndex (goToPreviousMatch st) = len - 1) ∧
  Nat.iter (List.length (searchMatches st)) goToNextMatch st = st ∧
  (∀ found, found ≠ [] →
     0 ≤ currentMatchIndex (setMatches found st)
       < Z.of_nat (List.length (searchMatches (setMatches found st)))).
Proof.
  destruct st as [matches c]. cbn [searchMatches currentMatchIndex].
  intros Hc. set (len := Z.of_nat (List.length matches)) in *.
  assert ((len =? 0) = false) as Hlen by (apply Z.eqb_neq; lia).
  assert (goToNextMatch (mkState matches c) =
          mkState matches (if decide (c = len - 1) then 0 else c + 1)) as Hn.
  { unfold goToNextMatch. cbn [searchMatches currentMatchIndex]. fold len.
    by rewrite Hlen, next_index. }
  assert (goToPreviousMatch (mkState matches c) =
          mkState matches (if decide (c = 0) then len - 1 else c - 1)) as Hp.
  { unfold goToPreviousMatch. cbn [searchMatches currentMatchIndex]. fold len.
    by rewrite Hlen, previous_index. }
  assert (∀ c', 0 ≤ c' < len → is_Some (activeMatch (mkState matches c')))
    as Hactive.
  { intros c' Hc'. unfold activeMatch. cbn [searchMatches currentMatchIndex].
    rewrite (proj2 (Z.ltb_ge _ _)) by lia. apply lookup_lt_is_Some_2.
    unfold len in Hc'. lia. }
  rewrite Hn, Hp. clear Hn Hp. cbn [currentMatchIndex]. split_and!.
  - case_decide; lia.
  - case_decide; lia.
  - case_decide; lia.
  - case_decide; lia.
  - apply Hactive. case_decide; lia.
  - apply Hactive. case_decide; lia.
  - unfold goToPreviousMatch. cbn [searchMatches currentMatchIndex]. fold len.
    rewrite Hlen, previous_index by (case_decide; lia). f_equal.
    repeat case_decide; lia.
  - unfold goToNextMatch. cbn [searchMatches currentMatchIndex]. fold len.
    rewrite Hlen, next_index by (case_decide; lia). f_equal.
    repeat case_decide; lia.
  - intros ->. by rewrite decide_True.
  - intros ->. by rewrite decide_True.
  - rewrite goToNextMatch_iter by done. fold len. f_equal.
    replace (c + len) with (c + 1 * len) by lia.
    rewrite Z.mod_add by lia. apply Z.mod_small. lia.
  - intros found Hfound. destruct found; [done|]. cbn. lia.
Qed.

End EditorSearchFacts.

(** ** The search box of the sidebar *)

Module SidebarFacts.
Import Js JsFacts Sidebar.

Lemma search_sets_query v c :
  NotesContext.searchQuery (fst (NotesContext.search v c)) = v.
Proof.
  unfold NotesContext.search. by destruct (negb (truthy (trim v))).
Qed.

Lemma debounceFired_frame v st :
  let st' := debounceFired v st in
  ctx st' = fst (NotesContext.search v (ctx st)) ∧
  inputValue st' =
    (if decide (v = NotesContext.searchQuery (ctx st)) then inputValue st
     else v) ∧
  timers st' = timers st ∧ debounceRef st' = debounceRef st ∧
  now st' = now st ∧ searchOpen st' = searchOpen st.
Proof.
  cbn zeta. unfold debounceFired, syncInput.
  cbn [ctx setCtx]. rewrite search_sets_query.
  by destruct (decide (v = NotesContext.searchQuery (ctx st))).
Qed.

Lemma handleSearchChange_arms v st :
  ownsTimers st → armed v (ctx st) (handleSearchChange v st).
Proof.
  intros Hown. unfold handleSearchChange.
  change (debounceRef (setInputValue v st)) with (debounceRef st).
  assert (∀ st2, timers st2 = [] → inputValue st2 = v → ctx st2 = ctx st →
            armed v (ctx st)
              (let (h, st3) := setTimeout v 220 st2 in
               setDebounceRef (Some h) st3)) as Harm.
  { intros st2 Ht Hv Hc. unfold armed, setTimeout. cbn. rewrite Ht.
    split_and!; try done. eauto. }
  apply Harm.
  - apply elem_of_nil_inv. intros tm.
    destruct (debounceRef st) as [h|] eqn:Hh.
    + cbn. intros [Hne Hin]%list_elem_of_filter. apply Hown in Hin. congruence.
    + cbn. intros Hin. apply Hown in Hin. congruence.
  - by destruct (debounceRef st).
  - by destruct (debounceRef st).
Qed.

Lemma advanceTo_idle st h dl v t :
  timers st = [mkTimer h dl v] → t < dl →
  advanceTo t st = setNow (Nat.max (now st) t) st.
Proof.
  intros Ht Hlt. unfold advanceTo.
  rewrite Ht. cbn [List.length runTimers]. rewrite Ht. cbn [nextDue deadline].
  by rewrite (proj2 (Nat.leb_gt _ _)) by lia.
Qed.

Lemma advanceTo_fires st h dl v t :
  timers st = [mkTimer h dl v] → dl ≤ t →
  let st' := advanceTo t st in
  ctx st' = fst (NotesContext.search v (ctx st)) ∧
  inputValue st' =
    (if decide (v = NotesContext.searchQuery (ctx st)) then inputValue st
     else v) ∧
  timers st' = [] ∧ searchOpen st' = searchOpen st.
Proof.
  intros Ht Hq. cbn zeta.
  unfold advanceTo. rewrite Ht. cbn [List.length runTimers]. rewrite Ht.
  cbn [nextDue deadline]. rewrite (proj2 (Nat.leb_le _ _)) by lia.
  unfold fire. cbn [handle deadline value].
  assert (timers (clearTimeout h (setNow (Nat.max (now st) dl) st)) = []) as E1.
  { unfold clearTimeout. cbn [timers setTimers setNow].
    rewrite Ht, filter_cons. cbn [handle].
    by rewrite decide_False by (by intros ?). }
  assert (ctx (clearTimeout h (setNow (Nat.max (now st) dl) st)) = ctx st)
    as E2 by done.
  assert (inputValue (clearTimeout h (setNow (Nat.max (now st) dl) st))
          = inputValue st) as E3 by done.
  assert (searchOpen (clearTimeout h (setNow (Nat.max (now st) dl) st))
          = searchOpen st) as E4 by done.
  revert E1 E2 E3 E4.
  generalize (clearTimeout h (setNow (Nat.max (now st) dl) st)).
  intros s1 E1 E2 E3 E4.
  destruct (debounceFired_frame v s1) as (Hc & Hi & Htm & _ & _ & Ho).
  rewrite E2 in Hc, Hi. rewrite E3 in Hi. rewrite E1 in Htm. rewrite E4 in Ho.
  revert Hc Hi Htm Ho. generalize (debounceFired v s1).
  intros p Hc Hi Htm Ho. by split_and!.
Qed.

Lemma change_keeps_armed v v' c st gap :
  armed v c st → gap < 220 →
  armed v' c (handleSearchChange v' (advanceTo (now st + gap) st)).
Proof.
  intros (Hv & Hc & h & Hh & Ht) Hgap.
  rewrite (advanceTo_idle st h _ v) by (done || lia).
  replace c with (ctx (setNow (Nat.max (now st) (now st + gap)) st)) by done.
  apply handleSearchChange_arms.
  intros tm. cbn. rewrite Ht, Hh. by intros ->%list_elem_of_singleton.
Qed.

Lemma last_cons_default' {A} (a d : A) l :
  List.last (a :: l) d = List.last l a.
Proof.
  revert a d. induction l as [|b l IH]; intros a d; [done|].
  change (List.last (a :: b :: l) d) with (List.last (b :: l) d).
  by rewrite !IH.
Qed.

Lemma changes_armed v c vs st :
  armed v c st → Forall (λ m, fst m < 220) vs →
  armed (lastTyped v vs) c (changes vs st).
Proof.
  revert v st. induction vs as [|[gap v'] vs IH]; intros v st Ha Hvs.
  { done. }
  apply Forall_cons in Hvs as [Hgap Hvs]. cbn [changes].
  unfold lastTyped. rewrite fmap_cons, last_cons_default'.
  apply IH; [|done]. by eapply change_keeps_armed.
Qed.

(** X25. Typing in the search box is debounced: while changes follow each
    other by less than 220 ms the notes context is not touched, and 220 ms or
    more after the last change [search] has run exactly once, with the last
    text typed. *)
Theorem typing_burst_searches_once st v0 vs quiet :
  ownsTimers st → Forall (λ m, fst m < 220) vs → 220 ≤ quiet →
  let st1 := typing v0 vs st in
  let st2 := advanceTo (now st1 + quiet) st1 in
  ctx st1 = ctx st ∧ inputValue st1 = lastTyped v0 vs ∧
  ctx st2 = fst (NotesContext.search (lastTyped v0 vs) (ctx st)) ∧
  NotesContext.searchQuery (ctx st2) = lastTyped v0 vs ∧
  NotesContext.searchRequestIdRef (ctx st2) =
    S (NotesContext.searchRequestIdRef (ctx st)) ∧
  inputValue st2 = lastTyped v0 vs ∧ timers st2 = [].
Proof.
  intros Hown Hvs Hq st1 st2.
  assert (armed (lastTyped v0 vs) (ctx st) st1) as Ha.
  { apply changes_armed; [|done]. by apply handleSearchChange_arms. }
  destruct Ha as (Hv & Hc & h & Hh & Ht).
  destruct (advanceTo_fires st1 h _ (lastTyped v0 vs) (now st1 + quiet) Ht)
    as (Hc2 & Hi2 & Ht2 & _); [lia|].
  fold st2 in Hc2, Hi2, Ht2. rewrite Hc in Hc2, Hi2. rewrite Hv in Hi2.
  split_and!; try done.
  - rewrite Hc2. apply search_sets_query.
  - rewrite Hc2. unfold NotesContext.search.
    by destruct (negb (truthy (trim (lastTyped v0 vs)))).
  - by destruct (decide _).
Qed.

(** X26. Dismissing the search (the clear button, the Escape key, closing the
    search box) clears the query of the notes context and the input, but does
    not cancel a pending debounce timer: when the timer fires, [search] runs
    with the text that had been typed, so that the query, the input and the
    results are back although the search was dismissed. *)
Theorem dismissal_does_not_cancel_pending_search how st h dl v t :
  timers st = [mkTimer h dl v] → dl ≤ t →
  let st1 := dismiss how st in
  let st2 := advanceTo t st1 in
  timers st1 = timers st ∧
  inputValue st1 = "" ∧ NotesContext.searchQuery (ctx st1) = "" ∧
  NotesContext.searchResults (ctx st1) = [] ∧
  ctx st1 = NotesContext.clearSearch (ctx st) ∧
  ctx st2 = fst (NotesContext.search v (NotesContext.clearSearch (ctx st))) ∧
  NotesContext.searchQuery (ctx st2) = v ∧ inputValue st2 = v ∧
  searchOpen st2 = searchOpen st1 ∧
  (trim v ≠ "" →
   NotesContext.requests (ctx st2) =
     NotesContext.requests (ctx st) ++ [NotesContext.SearchNotes (trim v)] ∧
   NotesContext.isSearching (ctx st2) = true).
Proof.
  intros Ht Hdl. cbn zeta.
  assert (timers (dismiss how st) = timers st ∧
          inputValue (dismiss how st) = "" ∧
          ctx (dismiss how st) = NotesContext.clearSearch (ctx st))
    as (Ht1 & Hi1 & Hc1).
  { unfold dismiss, handleEscape, handleClearSearch, closeSearch, syncInput.
    destruct how; [|destruct (truthy (inputValue st))|];
      cbn [ctx setCtx setInputValue setSearchOpen];
      case_decide as Hd; cbn; try done; split_and!; try done;
      by destruct (ctx st). }
  revert Ht1 Hi1 Hc1. generalize (dismiss how st). intros st1 Ht1 Hi1 Hc1.
  rewrite Ht in Ht1.
  destruct (advanceTo_fires st1 h dl v t Ht1 Hdl) as (Hc2 & Hi2 & Ht2 & Ho2).
  rewrite Hc1 in Hc2, Hi2. rewrite Hi1 in Hi2.
  assert (NotesContext.searchQuery (NotesContext.clearSearch (ctx st)) = "")
    as Hq by done.
  rewrite Hq in Hi2.
  split_and!; try done.
  - by rewrite Ht.
  - by rewrite Hc1.
  - by rewrite Hc1.
  - rewrite Hc2. apply search_sets_query.
  - rewrite Hi2. case_decide; congruence.
  - intros Hv. rewrite Hc2. unfold NotesContext.search.
    rewrite (proj2 (truthy_true _) Hv). cbn. by destruct (ctx st).
Qed.

End SidebarFacts.

(** ** The preview window *)

Module PreviewAppFacts.
Import Js JsFacts PreviewApp.

(** X28. The preview window after its own save.  The save clears the
    external-change flag and leaves a mark; the next focus of the window
    consumes the mark without reading the file and without touching the
    flag; the focus after that reads the file, and raises the flag exactly
    when the modification time on disk is not the one the save returned and
    a content had been loaded. *)
Theorem own_save_is_not_reported_on_focus result st :
  let st1 := save_settled (Resolved result) st in
  let st2 := fst (handleFocus st1) in
  let st3 := fst (handleFocus st2) in
  hasExternalChanges st1 = false ∧ recentlySavedRef st1 = true ∧
  modified st1 = FileContent.modified result ∧ content st1 = content st ∧
  snd (handleFocus st1) = None ∧
  requests st2 = requests st ∧ hasExternalChanges st2 = false ∧
  recentlySavedRef st2 = false ∧
  requests st3 = requests st ++ [ReadFileDirect] ∧
  ∃ f, snd (handleFocus st2) = Some f ∧
    (∀ err, handleFocus_settled f (Rejected err) st3 = st3) ∧
    ∀ onDisk,
      hasExternalChanges (handleFocus_settled f (Resolved onDisk) st3) =
      bool_decide (FileContent.modified onDisk ≠ FileContent.modified result)
      && bool_decide (content st ≠ None).
Proof.
  destruct st as [c ti m x rv rs rq]. cbn. split_and!; try done.
  eexists. split; [done|]. split; [done|]. intros onDisk.
  cbn [seenModified seenContent].
  by destruct
    (bool_decide (FileContent.modified onDisk ≠ FileContent.modified result)),
    (bool_decide (c ≠ None)).
Qed.

(** X29. The read of a focus compares the modification time on disk with the
    one the window had when the focus event arrived.  So when a save of the
    window completes while that read is in flight, and the read then returns
    what the save wrote, the flag is raised whenever the save changed the
    modification time and a content was loaded, although the save had just
    cleared the flag. *)
Theorem focus_read_compares_with_time_at_focus st f newContent result :
  recentlySavedRef st = false →
  snd (handleFocus st) = Some f →
  let st1 := fst (handleFocus st) in
  let st2 := save_settled (Resolved result) (save newContent st1) in
  let st3 := handleFocus_settled f (Resolved result) st2 in
  seenModified f = modified st ∧ seenContent f = content st ∧
  hasExternalChanges st2 = false ∧ recentlySavedRef st2 = true ∧
  hasExternalChanges st3 =
    bool_decide (FileContent.modified result ≠ modified st)
    && bool_decide (content st ≠ None) ∧
  recentlySavedRef st3 = true.
Proof.
  destruct st as [c ti m x rv rs rq]. cbn. intros -> [= <-]. cbn.
  split_and!; try done.
  - by destruct (bool_decide (FileContent.modified result ≠ m)),
      (bool_decide (c ≠ None)).
  - by destruct (bool_decide (FileContent.modified result ≠ m)),
      (bool_decide (c ≠ None)).
Qed.

(** X30. Whatever happens to the preview window, the reload version never
    decreases (over one action and over any run), and it changes only when a
    reload resolves; the content changes only when the initial load or a
    reload resolves: a focus, a save, a rejected reload and a file-change
    event leave it alone. *)
Theorem preview_content_changes_only_on_load_or_reload a st :
  let st' := step a st in
  reloadVersion st ≤ reloadVersion st' ∧
  (reloadVersion st' ≠ reloadVersion st →
   ∃ result, a = ReloadSettled (Resolved result) ∧
             content st' = Some (FileContent.content result) ∧
             modified st' = FileContent.modified result ∧
             hasExternalChanges st' = false ∧
             reloadVersion st' = S (reloadVersion st)) ∧
  (content st' ≠ content st →
   ∃ result, (a = ReloadSettled (Resolved result) ∨
              a = LoadSettled (Resolved result)) ∧
             content st' = Some (FileContent.content result)) ∧
  (∀ actions, reloadVersion st ≤ reloadVersion (run actions st)).
Proof.
  assert (∀ a st, reloadVersion st ≤ reloadVersion (step a st)) as Hstep.
  { clear. intros a st. destruct st as [c ti m x rv rs rq].
    destruct a as [[r|e]| |f [r|e]|nc|[r|e]| |[r|e]|]; cbn; try lia.
    - destruct rs; cbn; lia.
    - destruct (bool_decide _ && bool_decide _); cbn; lia. }
  assert (∀ actions st, reloadVersion st ≤ reloadVersion (run actions st))
    as Hrun.
  { clear -Hstep. intros actions.
    induction actions as [|a actions IH] using rev_ind; intros st; [done|].
    unfold run in *. rewrite foldl_app. cbn [foldl].
    etrans; [apply IH|apply Hstep]. }
  cbn zeta.
  refine ((λ p, conj (proj1 p)
                  (conj (proj1 (proj2 p))
                     (conj (proj2 (proj2 p)) (λ actions, Hrun actions st)))) _).
  clear Hstep Hrun.
  destruct st as [c ti m x rv rs rq].
  destruct a as [[r|e]| |f [r|e]|nc|[r|e]| |[r|e]|]; cbn;
    try (split_and!; [lia|done|done]).
  - split_and!; [lia|done|]. intros _. eauto.
  - destruct rs; cbn; split_and!; (lia || done).
  - destruct (bool_decide _ && bool_decide _); cbn; split_and!; (lia || done).
  - split_and!; [lia| |].
    + intros _. eexists. split_and!; try done. lia.
    + intros _. eauto.
Qed.

End PreviewAppFacts.

(** ** The command palette *)

Module CommandPaletteFacts.
Import Js JsFacts CommandPalette.

Local Open Scope Z_scope.

Lemma moveSelection_range len key i :
  0 < len → 0 ≤ i < len → 0 ≤ moveSelection len key i < len.
Proof. intros Hlen Hi. destruct key; cbn [moveSelection]; lia. Qed.

Lemma selectedIndexAfter_range items keys :
  items ≠ [] →
  0 ≤ selectedIndexAfter items keys < Z.of_nat (List.length items).
Proof.
  intros Hne. unfold selectedIndexAfter.
  assert (0 < Z.of_nat (List.length items)) as Hlen.
  { destruct items; [done|]. cbn [List.length]. lia. }
  induction keys as [|key keys IH] using rev_ind; [cbn; lia|].
  rewrite foldl_app. cbn [foldl]. by apply moveSelection_range.
Qed.

(** X27. The selection of the command palette, over a list of items that
    stays as it is.  With at least one item, after any sequence of arrow keys
    from the 0 the index is reset to, the selected index is that of an item, so
    the Enter key runs the action of an item of the list; the down key stops
    at the last item and the up key at the first (no wrap-around).  The row
    a note or a command is rendered with carries the index the item has in
    the list the Enter key reads. *)
Theorem palette_selection_is_an_item notes commands keys :
  let items := allItems notes commands in
  let len := Z.of_nat (List.length items) in
  (items ≠ [] →
   0 ≤ selectedIndexAfter items keys < len ∧
   is_Some (itemAt items (selectedIndexAfter items keys)) ∧
   moveSelection len ArrowDown (len - 1) = len - 1 ∧
   moveSelection len ArrowUp 0 = 0) ∧
  (∀ i id, (i < 10)%nat → notes !! i = Some id →
           itemAt items (Z.of_nat i) = Some (NoteItem id)) ∧
  (∀ i cmd, commands !! i = Some cmd →
            itemAt items (Z.of_nat (notesCount notes + i)) =
              Some (CommandItem cmd)) ∧
  List.length items = (notesCount notes + List.length commands)%nat.
Proof.
  cbn zeta. split_and!.
  - intros Hne. pose proof (selectedIndexAfter_range _ keys Hne) as Hr.
    split; [done|]. split.
    + unfold itemAt. rewrite (proj2 (Z.ltb_ge _ _)) by lia.
      apply lookup_lt_is_Some_2. lia.
    + cbn [moveSelection]. lia.
  - intros i id Hi Hid. unfold itemAt, allItems.
    rewrite (proj2 (Z.ltb_ge _ _)) by lia. rewrite Nat2Z.id.
    rewrite lookup_app_l.
    + by rewrite list_lookup_fmap, lookup_take_lt, Hid by lia.
    + rewrite length_fmap, length_take. apply lookup_lt_Some in Hid. lia.
  - intros i cmd Hcmd. unfold itemAt, allItems, notesCount.
    rewrite (proj2 (Z.ltb_ge _ _)) by lia. rewrite Nat2Z.id.
    rewrite lookup_app_r by (rewrite length_fmap, length_take; lia).
    rewrite length_fmap, length_take.
    replace (_ + i - _)%nat with i by lia.
    by rewrite list_lookup_fmap, Hcmd.
  - unfold allItems, notesCount.
    rewrite length_app, !length_fmap, length_take. lia.
Qed.

End CommandPaletteFacts.

(** ** The clean-up of [getMarkdown] *)

Module GetMarkdownFacts.
Import Js JsFacts.

(** A pattern without spaces that starts the cleaned text starts the
    text itself. *)
Lemma startsWith_replaceNbsp p s :
  Forall (λ a, a ≠ " "%char) (list_ascii_of_string p) →
  startsWith p (replaceNbspFrom 0 s) = true → startsWith p s = true.
Proof.
  revert s. induction p as [|a p IH]; intros s Hp; [done|].
  cbn [list_ascii_of_string] in Hp. apply Forall_cons in Hp as [Ha Hp].
  destruct s as [|c s]; [done|]. cbn [replaceNbspFrom].
  destruct (startsWith "&nbsp;" (String c s) || startsWith "&#160;" (String c s))%bool.
  - cbn [startsWith]. destruct (Ascii.eqb a " ") eqn:E; [|done].
    by apply Ascii.eqb_eq in E.
  - cbn [startsWith]. destruct (Ascii.eqb a c); [|done]. by apply IH.
Qed.

Lemma includes_replaceNbspFrom p n s k :
  p ≠ "" → Forall (λ a, a ≠ " "%char) (list_ascii_of_string p) →
  (∀ t, startsWith p t = true →
        (startsWith "&nbsp;" t || startsWith "&#160;" t)%bool = true) →
  String.length s ≤ n → includes (replaceNbspFrom k s) p = false.
Proof.
  intros Hne Hp Hent. revert s k.
  induction n as [|n IH]; intros s k Hlen.
  { destruct s; [|cbn in Hlen; lia]. destruct k, p; done. }
  destruct s as [|c s]; [by destruct k, p|]. cbn [String.length] in Hlen.
  destruct k as [|k]; [|cbn [replaceNbspFrom]; apply IH; lia].
  cbn [replaceNbspFrom].
  destruct (startsWith "&nbsp;" (String c s) || startsWith "&#160;" (String c s))%bool
    eqn:E.
  - cbn [includes].
    assert (startsWith p (String " " (replaceNbspFrom 5 s)) = false) as ->.
    { destruct p as [|a p]; [done|]. cbn [list_ascii_of_string] in Hp.
      apply Forall_cons in Hp as [Ha _]. cbn [startsWith].
      destruct (Ascii.eqb a " ") eqn:E'; [|done].
      by apply Ascii.eqb_eq in E'. }
    apply IH. lia.
  - cbn [includes].
    destruct (startsWith p (String c (replaceNbspFrom 0 s))) eqn:E'.
    + exfalso.
      assert (startsWith p (replaceNbspFrom 0 (String c s)) = true) as Hs.
      { cbn [replaceNbspFrom]. by rewrite E. }
      apply startsWith_replaceNbsp in Hs; [|done].
      apply Hent in Hs. congruence.
    + apply IH. lia.
Qed.

Lemma includes_false_tail s c p :
  includes (String c s) p = false →
  startsWith p (String c s) = false ∧ includes s p = false.
Proof. cbn [includes]. by destruct (startsWith p (String c s)). Qed.

Lemma replaceNbsp_clean s :
  includes s "&nbsp;" = false → includes s "&#160;" = false →
  replaceNbspFrom 0 s = s.
Proof.
  induction s as [|c s IH]; [done|].
  intros [H1 H1']%includes_false_tail [H2 H2']%includes_false_tail.
  cbn [replaceNbspFrom]. rewrite H1, H2. cbn [orb]. by rewrite IH.
Qed.

(** X21. What [getMarkdown] returns when the editor has a markdown manager
    contains neither [&nbsp;] nor [&#160;]; cleaning it again changes
    nothing; and a serialization without these entities is returned as it
    is. *)
Theorem getMarkdown_has_no_nbsp_entities {codec : Codec} (d : Doc) :
  hasManager = true →
  let markdown := Editor.getMarkdown (Some d) in
  includes markdown "&nbsp;" = false ∧ includes markdown "&#160;" = false ∧
  replaceNbsp markdown = markdown ∧
  (includes (serialize d) "&nbsp;" = false →
   includes (serialize d) "&#160;" = false → markdown = serialize d).
Proof.
  intros Hm. cbn zeta. unfold Editor.getMarkdown. rewrite Hm.
  assert (includes (replaceNbsp (serialize d)) "&nbsp;" = false) as H1.
  { apply (includes_replaceNbspFrom _ (String.length (serialize d)));
      [done|by repeat constructor| |done].
    by intros t ->. }
  assert (includes (replaceNbsp (serialize d)) "&#160;" = false) as H2.
  { apply (includes_replaceNbspFrom _ (String.length (serialize d)));
      [done|by repeat constructor| |done].
    intros t ->. by rewrite orb_true_r. }
  split_and!; try done.
  - by apply replaceNbsp_clean.
  - intros. by apply replaceNbsp_clean.
Qed.

End GetMarkdownFacts.

(** ** The further properties on concrete runs *)

Module FurtherExamples.

Import Js Scenario Scenes.

(** Closed equations between concrete states are decided by evaluation. *)
Ltac evaluate := vm_compute; reflexivity.

(** *** The controller *)

Lemma controller0_timersOk : NotesActions.timersOk controller0.
Proof.
  split; [|split].
  - intros t Ht. by apply elem_of_nil in Ht.
  - intros t Ht. by apply elem_of_nil in Ht.
  - apply NoDup_nil_2.
Defined.

Lemma saves_coalesce_witness :
  NotesActions.timersOk controller0 ∧ twoSaves ≠ [] ∧
  ∃ h, NotesActions.refreshTimers (NotesActions.finishSaves twoSaves controller0)
       = [NotesContext.mkTimer h 300 NotesContext.RefreshCb].
Proof.
  assert (twoSaves ≠ []) as Hne by done.
  split; [exact controller0_timersOk|]. split; [exact Hne|].
  destruct (NotesActionsFacts.saves_coalesce_into_one_refresh twoSaves
              controller0 controller0_timersOk Hne) as (h & _ & Hr & _).
  exists h. exact Hr.
Defined.

Lemma saveNote_failure_witness :
  NotesContext.saveNote_resume (NotesContext.AwaitWrite "a")
    (NotesContext.WriteSettled (Rejected OtherValue)) savingA =
    Some (NotesContext.saveNote_catch "a" None OtherValue savingA,
          NotesContext.Caught) ∧
  "a" ∉ NotesContext.recentlySavedRef
          (NotesContext.saveNote_catch "a" None OtherValue savingA).
Proof.
  assert (NotesContext.saveNote_resume (NotesContext.AwaitWrite "a")
            (NotesContext.WriteSettled (Rejected OtherValue)) savingA =
          Some (NotesContext.saveNote_catch "a" None OtherValue savingA,
                NotesContext.Caught)) as H by evaluate.
  split; [exact H|].
  exact (proj1 (NotesActionsFacts.saveNote_failure_releases_marks _ _ _ _ H)).
Defined.

Lemma deleteNote_unselects_witness :
  NotesActions.deleteNote_resume (NotesActions.DelAwaitSettings "a")
    (NotesActions.DelSettingsSettled (Resolved unpinned)) controller0 =
    Some (fst (NotesActions.deleteNote_finish "a" controller0),
          NotesActions.Waiting NotesActions.DelAwaitRefresh) ∧
  NotesContext.selectedNoteId controller0 = Some "a" ∧
  NotesContext.selectedNoteId
    (fst (NotesActions.deleteNote_finish "a" controller0)) = None ∧
  NotesContext.currentNote
    (fst (NotesActions.deleteNote_finish "a" controller0)) = None.
Proof.
  assert (NotesActions.deleteNote_resume (NotesActions.DelAwaitSettings "a")
            (NotesActions.DelSettingsSettled (Resolved unpinned)) controller0 =
          Some (fst (NotesActions.deleteNote_finish "a" controller0),
                NotesActions.Waiting NotesActions.DelAwaitRefresh)) as H
    by evaluate.
  assert (NotesContext.selectedNoteId controller0 = Some "a") as Hsel
    by evaluate.
  split; [exact H|]. split; [exact Hsel|].
  exact (proj1 (NotesActionsFacts.deleteNote_unselects_only_the_deleted
                  "a" _ _ _ _ _ (or_introl eq_refl) H (or_intror eq_refl))
           Hsel).
Defined.

Lemma deleteNote_failure_witness :
  NotesActions.deleteNote_resume (NotesActions.DelAwaitDelete "a")
    (NotesActions.DeleteSettled (Rejected (ErrorObject "gone"))) controller0 =
    Some (NotesActions.deleteNote_catch (ErrorObject "gone") controller0,
          NotesActions.Failed) ∧
  NotesContext.selectedNoteId
    (NotesActions.deleteNote_catch (ErrorObject "gone") controller0) =
    NotesContext.selectedNoteId controller0.
Proof.
  assert (NotesActions.deleteNote_resume (NotesActions.DelAwaitDelete "a")
            (NotesActions.DeleteSettled (Rejected (ErrorObject "gone")))
            controller0 =
          Some (NotesActions.deleteNote_catch (ErrorObject "gone") controller0,
                NotesActions.Failed)) as H by evaluate.
  split; [exact H|].
  exact (proj1 (proj2 (NotesActionsFacts.deleteNote_failure_only_reports
                         _ _ _ _ H))).
Defined.

Lemma rename_transfers_pin_witness :
  Note.id renamedA ≠ "a" ∧
  "a" ∈ default [] (Settings.pinnedNoteIds pinnedBA) ∧
  ∃ updatedSettings l,
    NotesContext.saveNote_gotSettings "a" renamedA (Resolved pinnedBA)
      NotesContext.initial =
      (NotesContext.call (NotesContext.UpdateSettings updatedSettings)
         NotesContext.initial,
       NotesContext.Suspended (NotesContext.AwaitUpdate "a" renamedA)) ∧
    Settings.pinnedNoteIds updatedSettings = Some l ∧
    "Title" ∈ l ∧ "a" ∉ l.
Proof.
  assert (Note.id renamedA ≠ "a") as Hne by done.
  assert ("a" ∈ default [] (Settings.pinnedNoteIds pinnedBA)) as Hin.
  { apply (bool_decide_unpack _). vm_compute. exact I. }
  split; [exact Hne|]. split; [exact Hin|].
  destruct (proj2 (NotesActionsFacts.rename_transfers_pin "a" renamedA pinnedBA
                     NotesContext.initial Hne) Hin)
    as (u & l & Hr & Hl & _ & _ & _ & Hnew & Hold).
  exists u, l. split; [exact Hr|]. split; [exact Hl|].
  split; [exact Hnew|exact Hold].
Defined.

Lemma initial_handlesFresh : NotesActions.handlesFresh NotesContext.initial.
Proof. intros t Ht. by apply elem_of_nil in Ht. Defined.

Lemma createNote_witness :
  NotesActions.createNote_resume NotesActions.CreateAwaitNote
    (NotesActions.NoteSettled (Resolved noteB)) NotesContext.initial =
    Some (created, NotesActions.Finished) ∧
  NotesActions.frameNote NotesActions.CreateAwaitNote
    (NotesActions.NoteSettled (Resolved noteB)) = Some noteB ∧
  NotesContext.currentNote created = Some noteB ∧
  NotesContext.selectedNoteId created = Some "b".
Proof.
  assert (NotesActions.createNote_resume NotesActions.CreateAwaitNote
            (NotesActions.NoteSettled (Resolved noteB)) NotesContext.initial =
          Some (created, NotesActions.Finished)) as H by evaluate.
  split; [exact H|]. split; [reflexivity|].
  destruct (NotesActionsFacts.createNote_shows_the_created_note
              _ _ noteB _ _ H eq_refl) as (Hc & Hs & _).
  split; [exact Hc|exact Hs].
Defined.

Lemma duplicateNote_witness :
  NotesActions.duplicateNote_resume NotesActions.CreateAwaitNote
    (NotesActions.NoteSettled (Resolved noteB)) NotesContext.initial =
    Some (duplicated, NotesActions.Finished) ∧
  NotesContext.selectedNoteId duplicated = Some "b" ∧
  NotesContext.searchQuery duplicated =
    NotesContext.searchQuery NotesContext.initial.
Proof.
  assert (NotesActions.duplicateNote_resume NotesActions.CreateAwaitNote
            (NotesActions.NoteSettled (Resolved noteB)) NotesContext.initial =
          Some (duplicated, NotesActions.Finished)) as H by evaluate.
  split; [exact H|].
  destruct (NotesActionsFacts.duplicateNote_selects_the_copy_keeps_search
              _ _ noteB _ _ H eq_refl) as (_ & Hs & Hq & _).
  split; [exact Hs|exact Hq].
Defined.

Lemma creation_echo_witness :
  truthy (Note.id noteB) = true ∧
  Note.id noteB ∈ NotesContext.recentlySavedRef created ∧
  NotesActions.handlesFresh NotesContext.initial ∧
  NotesContext.onFileChange false (Some [Note.id noteB]) created =
    (created, false).
Proof.
  assert (NotesActions.createNote_resume NotesActions.CreateAwaitNote
            (NotesActions.NoteSettled (Resolved noteB)) NotesContext.initial =
          Some (created, NotesActions.Finished)) as H by evaluate.
  assert (Note.id noteB ∈ NotesContext.recentlySavedRef created) as Hin.
  { apply (bool_decide_unpack _). vm_compute. exact I. }
  split; [reflexivity|]. split; [exact Hin|].
  split; [exact initial_handlesFresh|].
  exact (proj1 (NotesActionsFacts.creation_echo_window _ _ noteB _ _
                  (or_introl H) eq_refl eq_refl Hin initial_handlesFresh)).
Defined.

Lemma creation_failure_witness :
  NotesActions.createNote_resume NotesActions.CreateAwaitNote
    (NotesActions.NoteSettled (Rejected OtherValue)) controller0 =
    Some (NotesContext.setError (Some "Failed to create note") controller0,
          NotesActions.Failed) ∧
  NotesContext.selectedNoteId
    (NotesContext.setError (Some "Failed to create note") controller0) =
    NotesContext.selectedNoteId controller0.
Proof.
  assert (NotesActions.createNote_resume NotesActions.CreateAwaitNote
            (NotesActions.NoteSettled (Rejected OtherValue)) controller0 =
          Some (NotesContext.setError (Some "Failed to create note")
                  controller0, NotesActions.Failed)) as H by evaluate.
  split; [exact H|].
  exact (proj1 (proj2 (NotesActionsFacts.creation_failure_only_reports
                         _ _ _ _ (or_introl H)))).
Defined.

(** *** The editor *)

Lemma switch_witness :
  Editor.currentNote switchingToB = Some noteB ∧
  Editor.editorRef switchingToB = Some ("alpha, edited" : @Doc textCodec) ∧
  Editor.loadedNoteIdRef switchingToB ≠ Some (Note.id noteB) ∧
  Editor.isRenameEcho noteB switchingToB = false ∧
  Editor.saveCalls (Editor.loadEffect switchingToB) =
    [("alpha, edited", Some "a")] ∧
  Editor.editorRef (Editor.loadEffect switchingToB) =
    Some ("beta" : @Doc textCodec).
Proof.
  assert (Editor.currentNote switchingToB = Some noteB) as Hn by evaluate.
  assert (Editor.editorRef switchingToB =
          Some ("alpha, edited" : @Doc textCodec)) as He by evaluate.
  assert (Editor.loadedNoteIdRef switchingToB ≠ Some (Note.id noteB)) as Hl
    by (vm_compute; discriminate).
  assert (Editor.isRenameEcho noteB switchingToB = false) as Hecho by evaluate.
  split; [exact Hn|]. split; [exact He|]. split; [exact Hl|].
  split; [exact Hecho|].
  destruct (EditorScenesFacts.switch_saves_old_buffer_before_loading
              noteB _ switchingToB Hn He Hl Hecho) as (Htr & Hed & _).
  split; [|exact Hed].
  unfold Editor.saveCalls. rewrite Htr. evaluate.
Defined.

Lemma loading_window_witness :
  Editor.loadedNoteIdRef switchingToB ≠ Some (Note.id noteB) ∧
  Editor.isLoadingRef (Editor.loadEffect switchingToB) = true ∧
  ∃ f, Editor.frames (Editor.loadEffect switchingToB) = [f] ∧
       Editor.isLoadingRef
         (Editor.frameFired f (Editor.loadEffect switchingToB)) = false.
Proof.
  assert (Editor.currentNote switchingToB = Some noteB) as Hn by evaluate.
  assert (Editor.editorRef switchingToB =
          Some ("alpha, edited" : @Doc textCodec)) as He by evaluate.
  assert (Editor.loadedNoteIdRef switchingToB ≠ Some (Note.id noteB)) as Hl
    by (vm_compute; discriminate).
  assert (Editor.isRenameEcho noteB switchingToB = false) as Hecho by evaluate.
  split; [exact Hl|].
  destruct (EditorScenesFacts.loading_window_ends_with_own_frame
              noteB _ switchingToB Hn He Hl Hecho)
    as (f & Hf & Hload & _ & _ & Hdone & _).
  split; [exact Hload|]. exists f. split; [exact Hf|exact Hdone].
Defined.

Lemma manual_reload_witness :
  Editor.loadedNoteIdRef reloading = Some (Note.id reloadedA) ∧
  Editor.reloadVersion reloading ≠ Editor.lastReloadVersionRef reloading ∧
  Editor.editorRef (Editor.loadEffect reloading) =
    Some ("alpha from disk" : @Doc textCodec) ∧
  Editor.saveCalls (Editor.loadEffect reloading) = [] ∧
  Editor.saveCalls
    (Editor.saveTimerFired "a" (Editor.loadEffect reloading)) =
    [("alpha from disk", Some "a")].
Proof.
  assert (Editor.currentNote reloading = Some reloadedA) as Hn by evaluate.
  assert (Editor.editorRef reloading =
          Some ("alpha, edited" : @Doc textCodec)) as He by evaluate.
  assert (Editor.loadedNoteIdRef reloading = Some (Note.id reloadedA)) as Hl
    by evaluate.
  assert (Editor.reloadVersion reloading ≠ Editor.lastReloadVersionRef reloading)
    as Hv by (vm_compute; discriminate).
  split; [exact Hl|]. split; [exact Hv|].
  destruct (EditorScenesFacts.manual_reload_replaces_buffer
              reloadedA _ reloading Hn He Hl Hv)
    as (_ & Hed & _ & _ & _ & _ & _ & _ & Hc & _ & _ & Hlate).
  split; [exact Hed|]. split; [exact Hc|].
  exact (Hlate eq_refl).
Defined.

Lemma unmount_witness :
  Editor.editorRef dirtyA = Some ("alpha, edited" : @Doc textCodec) ∧
  Editor.saveCalls (Editor.unmount dirtyA) = [("alpha, edited", None)] ∧
  Editor.needsSaveRef (Editor.unmount dirtyA) = false.
Proof.
  assert (Editor.editorRef dirtyA = Some ("alpha, edited" : @Doc textCodec))
    as He by evaluate.
  split; [exact He|].
  destruct (EditorScenesFacts.unmount_flushes_dirty_buffer_once _ dirtyA He)
    as (_ & Hc & Hd & _).
  split; [exact Hc|exact Hd].
Defined.

Lemma source_burst_witness :
  Editor.currentNote editor0 = Some noteA ∧
  EditorScenes.ownsSourceTimers editor0 ∧
  Forall (λ m, fst m < 300) sourceTyping ∧
  Editor.saveCalls
    (Editor.advanceTo
       (Editor.now (EditorScenes.sourceBurst "#" sourceTyping editor0) + 300)
       (EditorScenes.sourceBurst "#" sourceTyping editor0)) =
    [("# Ti", Some "a")].
Proof.
  assert (Editor.currentNote editor0 = Some noteA) as Hn by evaluate.
  assert (EditorScenes.ownsSourceTimers editor0) as Hown.
  { intros tm Htm. by apply elem_of_nil in Htm. }
  assert (Forall (λ m, fst m < 300) sourceTyping) as Hvs.
  { repeat constructor; simpl; lia. }
  split; [exact Hn|]. split; [exact Hown|]. split; [exact Hvs|].
  destruct (EditorScenesFacts.source_burst_is_saved_once editor0 noteA "#"
              sourceTyping 300 Hn Hown Hvs (le_n 300)) as (_ & _ & Hc & _).
  exact Hc.
Defined.

Lemma rename_echo_source_witness :
  Editor.loadedNoteIdRef sourceRenameArrives = Some "a" ∧
  Note.id renamedA ≠ "a" ∧
  Editor.lastSaveRef sourceRenameArrives = Some ("a", Note.content renamedA) ∧
  Editor.timers sourceRenameArrives =
    [Editor.mkTimer 2 600
       (Editor.SourceCb "# Title and more" (Some noteA))] ∧
  Editor.saveCalls
    (Editor.advanceTo 600 (Editor.loadEffect sourceRenameArrives)) =
    [("# Title", Some "a"); ("# Title and more", Some "a")] ∧
  Editor.loadedNoteIdRef
    (Editor.advanceTo 600 (Editor.loadEffect sourceRenameArrives)) =
    Some "Title".
Proof.
  assert (Editor.currentNote sourceRenameArrives = Some renamedA) as Hn
    by evaluate.
  assert (Editor.editorRef sourceRenameArrives =
          Some ("alpha" : @Doc textCodec)) as He by evaluate.
  assert (Editor.loadedNoteIdRef sourceRenameArrives = Some "a") as Hl
    by evaluate.
  assert (Note.id renamedA ≠ "a") as Hne by done.
  assert (Editor.lastSaveRef sourceRenameArrives =
          Some ("a", Note.content renamedA)) as Hls by evaluate.
  assert (Editor.needsSaveRef sourceRenameArrives = false) as Hd by evaluate.
  assert (Editor.timers sourceRenameArrives =
          [Editor.mkTimer 2 600
             (Editor.SourceCb "# Title and more" (Some noteA))]) as Ht
    by evaluate.
  split; [exact Hl|]. split; [exact Hne|]. split; [exact Hls|].
  split; [exact Ht|].
  destruct (EditorScenesFacts.rename_echo_keeps_pending_source_save
              sourceRenameArrives renamedA _ "a" 2%positive 600
              "# Title and more" noteA 600 Hn He Hl Hne Hls Hd Ht (le_n 600))
    as (_ & _ & _ & _ & _ & _ & Hc & _ & Hl' & _).
  split; [|exact Hl'].
  rewrite Hc. evaluate.
Defined.

Lemma reload_witness :
  NotesContext.currentNote controller0 = Some noteA ∧
  Editor.currentNote editor0 = Some noteA ∧
  Note.id reloadedA = Note.id noteA ∧
  Editor.editorRef
    (Editor.render
       (NotesContext.currentNote
          (NotesContext.reloadCurrentNote_settled (Resolved reloadedA)
             controller0))
       (NotesContext.reloadVersion
          (NotesContext.reloadCurrentNote_settled (Resolved reloadedA)
             controller0))
       editor0) = Some ("alpha from disk" : @Doc textCodec).
Proof.
  assert (NotesContext.currentNote controller0 = Some noteA) as Hc by evaluate.
  assert (Editor.currentNote editor0 = Some noteA) as Hn by evaluate.
  assert (Editor.editorRef editor0 = Some ("alpha" : @Doc textCodec)) as He
    by evaluate.
  assert (Editor.loadedNoteIdRef editor0 = Some (Note.id noteA)) as Hl
    by evaluate.
  assert (Editor.reloadVersion editor0 = NotesContext.reloadVersion controller0)
    as Hv by evaluate.
  assert (Editor.lastReloadVersionRef editor0 =
          NotesContext.reloadVersion controller0) as Hlv by evaluate.
  assert (Note.id reloadedA = Note.id noteA) as Hid by evaluate.
  split; [exact Hc|]. split; [exact Hn|]. split; [exact Hid|].
  destruct (proj1 (EngineScenesFacts.reload_reaches_the_editor controller0
                     editor0 noteA reloadedA _ OtherValue
                     Hc Hn He Hl Hv Hlv Hid))
    as (_ & _ & _ & _ & Hed & _).
  exact Hed.
Defined.

Lemma getMarkdown_witness :
  @hasManager textCodec = true ∧
  includes (@Editor.getMarkdown textCodec (Some "a&nbsp;b&#160;c")) "&nbsp;"
    = false.
Proof.
  split; [reflexivity|].
  exact (proj1 (@GetMarkdownFacts.getMarkdown_has_no_nbsp_entities textCodec
                  "a&nbsp;b&#160;c" eq_refl)).
Defined.

(** *** Keys, the sidebar, the preview window *)

Lemma match_navigation_witness :
  (0 ≤ EditorSearch.currentMatchIndex atLastMatch < 3)%Z ∧
  EditorSearch.currentMatchIndex (EditorSearch.goToNextMatch atLastMatch) = 0%Z.
Proof.
  assert (0 ≤ EditorSearch.currentMatchIndex atLastMatch
          < Z.of_nat (List.length (EditorSearch.searchMatches atLastMatch)))%Z
    as Hr by (vm_compute; split; [discriminate|reflexivity]).
  split; [exact Hr|].
  destruct (EditorSearchFacts.match_navigation_cycles atLastMatch Hr)
    as (_ & _ & _ & _ & Hwrap & _).
  exact (Hwrap eq_refl).
Defined.

Lemma arrow_key_witness :
  AppKeys.displayItems controller0 ≠ [] ∧
  ∃ id, AppKeys.handleArrow AppKeys.ArrowUp controller0 =
          Resolved (NotesContext.selectNote id controller0) ∧
        id ∈ AppKeys.displayItems controller0.
Proof.
  assert (AppKeys.displayItems controller0 ≠ []) as Hne
    by (vm_compute; discriminate).
  split; [exact Hne|].
  destruct (AppKeysFacts.arrow_key_selects_an_item_of_the_list
              AppKeys.ArrowUp controller0 Hne) as (id & Hh & Hin & _).
  exists id. split; [exact Hh|exact Hin].
Defined.

Lemma arrow_keys_undo_witness :
  NoDup (AppKeys.displayItems controller0) ∧
  NotesContext.selectedNoteId controller0 = Some "a" ∧
  "a" ∈ AppKeys.displayItems controller0 ∧
  AppKeys.ArrowUp ≠ AppKeys.ArrowDown ∧
  ∃ id', AppKeys.arrowTarget AppKeys.ArrowUp controller0 = Some id' ∧
         AppKeys.arrowTarget AppKeys.ArrowDown
           (NotesContext.selectNote id' controller0) = Some "a".
Proof.
  assert (NoDup (AppKeys.displayItems controller0)) as Hnd.
  { apply (bool_decide_unpack _). vm_compute. exact I. }
  assert (NotesContext.selectedNoteId controller0 = Some "a") as Hsel
    by evaluate.
  assert ("a" ∈ AppKeys.displayItems controller0) as Hin.
  { apply (bool_decide_unpack _). vm_compute. exact I. }
  assert (AppKeys.ArrowUp ≠ AppKeys.ArrowDown) as Hk by done.
  split; [exact Hnd|]. split; [exact Hsel|]. split; [exact Hin|].
  split; [exact Hk|].
  exact (AppKeysFacts.arrow_keys_undo_each_other controller0 "a" Hnd Hsel Hin
           AppKeys.ArrowUp AppKeys.ArrowDown Hk).
Defined.

Lemma typing_burst_witness :
  Sidebar.ownsTimers sidebar0 ∧
  Forall (λ m, fst m < 220) searchTyping ∧
  NotesContext.searchQuery
    (Sidebar.ctx
       (Sidebar.advanceTo
          (Sidebar.now (Sidebar.typing "a" searchTyping sidebar0) + 220)
          (Sidebar.typing "a" searchTyping sidebar0))) = "app" ∧
  NotesContext.searchRequestIdRef
    (Sidebar.ctx
       (Sidebar.advanceTo
          (Sidebar.now (Sidebar.typing "a" searchTyping sidebar0) + 220)
          (Sidebar.typing "a" searchTyping sidebar0))) = 1.
Proof.
  assert (Sidebar.ownsTimers sidebar0) as Hown.
  { intros tm Htm. by apply elem_of_nil in Htm. }
  assert (Forall (λ m, fst m < 220) searchTyping) as Hvs.
  { repeat constructor; simpl; lia. }
  split; [exact Hown|]. split; [exact Hvs|].
  destruct (SidebarFacts.typing_burst_searches_once sidebar0 "a" searchTyping
              220 Hown Hvs (le_n 220)) as (_ & _ & _ & Hq & Hid & _).
  split; [exact Hq|exact Hid].
Defined.

Lemma dismissal_witness :
  Sidebar.timers typedApp = [Sidebar.mkTimer 1 220 "app"] ∧
  NotesContext.searchQuery
    (Sidebar.ctx (Sidebar.dismiss Sidebar.EscapeKey typedApp)) = "" ∧
  NotesContext.searchQuery
    (Sidebar.ctx
       (Sidebar.advanceTo 220 (Sidebar.dismiss Sidebar.EscapeKey typedApp)))
    = "app".
Proof.
  assert (Sidebar.timers typedApp = [Sidebar.mkTimer 1 220 "app"]) as Ht
    by evaluate.
  split; [exact Ht|].
  destruct (SidebarFacts.dismissal_does_not_cancel_pending_search
              Sidebar.EscapeKey typedApp 1%positive 220 "app" 220 Ht (le_n 220))
    as (_ & _ & Hq1 & _ & _ & _ & Hq2 & _).
  split; [exact Hq1|exact Hq2].
Defined.

Lemma focus_read_witness :
  PreviewApp.recentlySavedRef preview0 = false ∧
  snd (PreviewApp.handleFocus preview0) =
    Some (PreviewApp.mkFocusFrame 10 (Some "text")) ∧
  PreviewApp.hasExternalChanges
    (PreviewApp.handleFocus_settled
       (PreviewApp.mkFocusFrame 10 (Some "text")) (Resolved file1)
       (PreviewApp.save_settled (Resolved file1)
          (PreviewApp.save "text!" (fst (PreviewApp.handleFocus preview0)))))
    = true.
Proof.
  assert (PreviewApp.recentlySavedRef preview0 = false) as Hr by evaluate.
  assert (snd (PreviewApp.handleFocus preview0) =
          Some (PreviewApp.mkFocusFrame 10 (Some "text"))) as Hf by evaluate.
  split; [exact Hr|]. split; [exact Hf|].
  destruct (PreviewAppFacts.focus_read_compares_with_time_at_focus
              preview0 _ "text!" file1 Hr Hf) as (_ & _ & _ & _ & Hx & _).
  rewrite Hx. evaluate.
Defined.

End FurtherExamples.
